(** * The drone edge aggregator (drone_edge/drone.py)

    A shallow embedding of [DroneEdge]: the framed line reader of
    [_handle_sensor], the rolling window and anomaly check of
    [_process_loop], the battery simulation, the forward loop, and the lock
    that serialises them. *)

From Stdlib Require Import String Strings.Byte.
From Stdlib Require Import ZArith QArith Qround Bool Lia Arith List.
From Stdlib Require PrimFloat SpecFloat FloatOps.
From Equations Require Import Equations.
From Equations.Prop Require Import Logic.
Import ListNotations.

Set Implicit Arguments.
Set Warnings "-register-all".
Close Scope Q_scope.

(** ** Numbers

    [json.loads] gives two kinds of numbers: integers, which are Python
    [int]s of any size (modelled by [Z]), and floats.  [num] is the type of
    the floats, with the operations the drone applies to them: [+] (inside
    [sum]), [/ len(...)], [<] and [>] against integer literals, and
    [round(x, 2)].  The model is generic in how these are computed, so every
    statement made for all [num] holds of Python's own arithmetic.  Two
    instances follow further down: [FloatNumber], the binary64 floats of
    Python, and [QNumber], arithmetic without rounding. *)

Class PyNumber (num : Type) := {
  of_int : Z -> num;              (* float(z), for an integer z in float range *)
  add : num -> num -> num;        (* x + y *)
  div_len : num -> nat -> num;    (* x / len(xs) *)
  int_div_len : Z -> nat -> num;  (* z / len(xs) for an integer z, the quotient
                                     in float range *)
  ltb : num -> num -> bool;       (* x < y *)
  round2 : num -> num             (* round(x, 2) *)
}.

(** An integer converts to a float, and a quotient of integers is a float,
    when its magnitude is below [2^1024 - 2^970], half an ulp above the
    largest float; from there on Python raises [OverflowError]. *)
Definition float_limit : Z := 2 ^ 1024 - 2 ^ 970.

(** [x > y] is [y < x]. *)
Definition gtb {num} `{PyNumber num} (x y : num) : bool := ltb y x.

(** ** Values built by [json.loads] *)

Inductive pyval (num : Type) : Type :=
| PNone
| PBool (b : bool)
| PInt (z : Z)
| PNum (x : num)
| PStr (s : string)
| PList (l : list (pyval num))
| PDict (d : list (string * pyval num)).

Arguments PNone {num}.
Arguments PBool {num} b.
Arguments PInt {num} z.
Arguments PNum {num} x.
Arguments PStr {num} s.
Arguments PList {num} l.
Arguments PDict {num} d.

(** A Python number: an [int] or a [float]. *)
Inductive number (num : Type) : Type :=
| NInt (z : Z)
| NFloat (x : num).

Arguments NInt {num} z.
Arguments NFloat {num} x.

(** Exceptions that escape the code under study. *)
Inductive exn := KeyError | TypeError | OverflowError | UnicodeDecodeError.

Inductive result (A : Type) : Type :=
| Ok (a : A)
| Raise (e : exn).

Arguments Ok {A} a.
Arguments Raise {A} e.

Definition bind {A B} (r : result A) (k : A -> result B) : result B :=
  match r with
  | Ok a => k a
  | Raise e => Raise e
  end.

Notation "x <- r ;; k" := (bind r (fun x => k))
  (at level 61, r at next level, right associativity).

Fixpoint mapM {A B} (f : A -> result B) (l : list A) : result (list B) :=
  match l with
  | [] => Ok []
  | a :: l' => b <- f a ;; bs <- mapM f l' ;; Ok (b :: bs)
  end.

(** What [json.loads(line.decode("utf-8"))] does with one line: it returns a
    value, raises [json.JSONDecodeError], or raises something else
    ([UnicodeDecodeError] from [decode]). *)
Inductive loads_result (num : Type) : Type :=
| Loaded (v : pyval num)
| JSONDecodeError
| LoadsRaises (e : exn).

Arguments Loaded {num} v.
Arguments JSONDecodeError {num}.
Arguments LoadsRaises {num} e.

(** Records handed to the [logging] module. *)
Inductive log_record (num : Type) : Type :=
| Received (reading : pyval num)        (* info: "Received: ..." *)
| InvalidJSON                           (* warning: "Invalid JSON from sensor" *)
| SensorDisconnected                    (* info *)
| AnomalyDetected (anomaly : pyval num) (* warning: "Anomaly detected: ..." *)
| BatteryLow                            (* warning: "Battery low: returning to base" *)
| ForwardFailed                         (* error: "Forward failed: ..." *)
| Forwarded (n : nat)                   (* info: "Forwarded n summaries ..." *)
| BatteryReset                          (* info: "Battery reset to 100% via GUI" *)
| ThresholdSet (val : Q).               (* info: "Battery threshold set ..." *)

Arguments Received {num} reading.
Arguments InvalidJSON {num}.
Arguments SensorDisconnected {num}.
Arguments AnomalyDetected {num} anomaly.
Arguments BatteryLow {num}.
Arguments ForwardFailed {num}.
Arguments Forwarded {num} n.
Arguments BatteryReset {num}.
Arguments ThresholdSet {num} val.

Inductive log_level := INFO | WARNING | ERROR.

Definition level {num} (r : log_record num) : log_level :=
  match r with
  | InvalidJSON | AnomalyDetected _ | BatteryLow => WARNING
  | ForwardFailed => ERROR
  | _ => INFO
  end.

(** The summary dictionary built by [_process_loop]. *)
Record summary (num : Type) : Type := {
  avg_temp : num;
  avg_humid : num;
  last_update : string
}.

(** ** The state of a [DroneEdge]

    [battery] and [battery_threshold] are floats; every value [battery]
    takes is a multiple of 0.5 between 0 and 100, on which float arithmetic
    is exact, so they are kept as rationals.  [logged] is the sequence of
    records emitted so far, oldest first. *)
Record DroneEdge (num : Type) : Type := {
  rolling_window : nat;
  battery_threshold : Q;
  sensor_data : list (pyval num);       (* Queue() *)
  readings : list (pyval num);          (* deque(maxlen=rolling_window) *)
  anomalies : list (pyval num);
  battery : Q;
  returning : bool;
  forward_queue : list (summary num);
  logged : list (log_record num)
}.

Section Drone.

Context {num : Type} `{PyNumber num}.

Local Abbreviation value := (pyval num).
Local Abbreviation state := (DroneEdge num).

(** [DroneEdge.__init__] *)
Definition init (threshold : Q) (window : nat) : state :=
  {| rolling_window := window;
     battery_threshold := threshold;
     sensor_data := [];
     readings := [];
     anomalies := [];
     battery := 100;
     returning := false;
     forward_queue := [];
     logged := [] |}.

Definition set_sensor_data (q : list value) (s : state) : state :=
  {| rolling_window := rolling_window s;
     battery_threshold := battery_threshold s;
     sensor_data := q;
     readings := readings s;
     anomalies := anomalies s;
     battery := battery s;
     returning := returning s;
     forward_queue := forward_queue s;
     logged := logged s |}.

Definition set_readings (w : list value) (s : state) : state :=
  {| rolling_window := rolling_window s;
     battery_threshold := battery_threshold s;
     sensor_data := sensor_data s;
     readings := w;
     anomalies := anomalies s;
     battery := battery s;
     returning := returning s;
     forward_queue := forward_queue s;
     logged := logged s |}.

Definition set_anomalies (a : list value) (s : state) : state :=
  {| rolling_window := rolling_window s;
     battery_threshold := battery_threshold s;
     sensor_data := sensor_data s;
     readings := readings s;
     anomalies := a;
     battery := battery s;
     returning := returning s;
     forward_queue := forward_queue s;
     logged := logged s |}.

Definition set_battery (b : Q) (s : state) : state :=
  {| rolling_window := rolling_window s;
     battery_threshold := battery_threshold s;
     sensor_data := sensor_data s;
     readings := readings s;
     anomalies := anomalies s;
     battery := b;
     returning := returning s;
     forward_queue := forward_queue s;
     logged := logged s |}.

Definition set_returning (r : bool) (s : state) : state :=
  {| rolling_window := rolling_window s;
     battery_threshold := battery_threshold s;
     sensor_data := sensor_data s;
     readings := readings s;
     anomalies := anomalies s;
     battery := battery s;
     returning := r;
     forward_queue := forward_queue s;
     logged := logged s |}.

Definition set_battery_threshold (t : Q) (s : state) : state :=
  {| rolling_window := rolling_window s;
     battery_threshold := t;
     sensor_data := sensor_data s;
     readings := readings s;
     anomalies := anomalies s;
     battery := battery s;
     returning := returning s;
     forward_queue := forward_queue s;
     logged := logged s |}.

Definition set_forward_queue (q : list (summary num)) (s : state) : state :=
  {| rolling_window := rolling_window s;
     battery_threshold := battery_threshold s;
     sensor_data := sensor_data s;
     readings := readings s;
     anomalies := anomalies s;
     battery := battery s;
     returning := returning s;
     forward_queue := q;
     logged := logged s |}.

(** [logging.info], [logging.warning], [logging.error] *)
Definition log (r : log_record num) (s : state) : state :=
  {| rolling_window := rolling_window s;
     battery_threshold := battery_threshold s;
     sensor_data := sensor_data s;
     readings := readings s;
     anomalies := anomalies s;
     battery := battery s;
     returning := returning s;
     forward_queue := forward_queue s;
     logged := logged s ++ [r] |}.

(** ** The rolling window

    [deque.append] on a deque with [maxlen]: the item is added on the right
    and, when the length then exceeds [maxlen], the leftmost item is
    dropped. *)
Definition deque_append (maxlen : nat) (w : list value) (x : value) : list value :=
  let w' := w ++ [x] in
  if maxlen <? length w' then tl w' else w'.

(** The critical section of [_handle_sensor]:
    [self.sensor_data.put(reading); self.readings.append(reading)]. *)
Definition ingest (reading : value) (s : state) : state :=
  set_readings (deque_append (rolling_window s) (readings s) reading)
    (set_sensor_data (sensor_data s ++ [reading]) s).

(** ** Expressions of [_process_loop] *)

Fixpoint dict_get (d : list (string * value)) (key : string) : option value :=
  match d with
  | [] => None
  | (k, v) :: d' => if String.eqb k key then Some v else dict_get d' key
  end.

(** [d[key] = v] on a dictionary in insertion order. *)
Fixpoint dict_set (d : list (string * value)) (key : string) (v : value)
  : list (string * value) :=
  match d with
  | [] => [(key, v)]
  | (k, x) :: d' =>
      if String.eqb k key then (k, v) :: d' else (k, x) :: dict_set d' key v
  end.

(** [r[key]] for a string key: only a dictionary can be subscripted so. *)
Definition getitem (r : value) (key : string) : result value :=
  match r with
  | PDict d =>
      match dict_get d key with
      | Some v => Ok v
      | None => Raise KeyError
      end
  | _ => Raise TypeError
  end.

(** The operand of [+] next to a number: integers, floats and booleans
    (which are the integers 0 and 1) are accepted. *)
Definition as_number (v : value) : result (number num) :=
  match v with
  | PInt z => Ok (NInt z)
  | PNum x => Ok (NFloat x)
  | PBool b => Ok (NInt (Z.b2z b))
  | _ => Raise TypeError
  end.

(** [float(z)], as [+] applies it to an integer that meets a float. *)
Definition float_of_int (z : Z) : result num :=
  if (Z.abs z <? float_limit)%Z then Ok (of_int z) else Raise OverflowError.

(** [a + b]: exact on two integers; an integer next to a float is converted
    first. *)
Definition py_add (a b : number num) : result (number num) :=
  match a, b with
  | NInt x, NInt y => Ok (NInt (x + y))
  | NInt x, NFloat y => f <- float_of_int x ;; Ok (NFloat (add f y))
  | NFloat x, NInt y => f <- float_of_int y ;; Ok (NFloat (add x f))
  | NFloat x, NFloat y => Ok (NFloat (add x y))
  end.

Fixpoint sum_from (acc : number num) (xs : list value)
  : result (number num) :=
  match xs with
  | [] => Ok acc
  | x :: xs' => n <- as_number x ;; a <- py_add acc n ;; sum_from a xs'
  end.

(** [sum(xs)]: from the integer [0], item by item from the left, each step
    a [+].  (This is [sum] as documented and as CPython computes it up to
    version 3.11; from 3.12 on its float additions carry a correction term,
    which can change the last bit of a sum that is not exact.) *)
Definition py_sum (xs : list value) : result (number num) :=
  sum_from (NInt 0) xs.

(** [total / len(xs)] for a list that is not empty: always a float; the
    quotient of an integer total is rounded once, and raises
    [OverflowError] when it is out of float range. *)
Definition div_by_len (total : number num) (n : nat) : result num :=
  match total with
  | NInt z =>
      if (Z.abs z <? float_limit * Z.of_nat n)%Z then Ok (int_div_len z n)
      else Raise OverflowError
  | NFloat x => Ok (div_len x n)
  end.

(** [v < z] and [v > z] for an integer literal [z]: exact between integers,
    and between a float and the literal. *)
Definition lt_int (v : value) (z : Z) : result bool :=
  match v with
  | PInt i => Ok (i <? z)%Z
  | PNum x => Ok (ltb x (of_int z))
  | PBool b => Ok (Z.b2z b <? z)%Z
  | _ => Raise TypeError
  end.

Definition gt_int (v : value) (z : Z) : result bool :=
  match v with
  | PInt i => Ok (z <? i)%Z
  | PNum x => Ok (gtb x (of_int z))
  | PBool b => Ok (z <? Z.b2z b)%Z
  | _ => Raise TypeError
  end.

(** Lines 123-129: the averages over [self.readings]. *)
Definition window_average (w : list value) : result (num * num) :=
  match w with
  | [] => Ok (of_int 0, of_int 0)
  | _ =>
      temps <- mapM (fun r => getitem r "temperature") w ;;
      hums <- mapM (fun r => getitem r "humidity") w ;;
      st <- py_sum temps ;;
      mean_temp <- div_by_len st (length temps) ;;
      sh <- py_sum hums ;;
      mean_humid <- div_by_len sh (length hums) ;;
      Ok (mean_temp, mean_humid)
  end.

(** Lines 132-133: the anomaly condition, with the short circuit of [or]. *)
Definition is_anomaly (reading : value) : result bool :=
  t1 <- getitem reading "temperature" ;;
  b1 <- lt_int t1 (-10) ;;
  if b1 then Ok true else
  t2 <- getitem reading "temperature" ;;
  b2 <- gt_int t2 60 ;;
  if b2 then Ok true else
  h1 <- getitem reading "humidity" ;;
  b3 <- lt_int h1 0 ;;
  if b3 then Ok true else
  h2 <- getitem reading "humidity" ;;
  gt_int h2 100.

(** Line 134: [{**reading, "type": "anomaly"}]. *)
Definition annotate (reading : value) : result value :=
  match reading with
  | PDict d => Ok (PDict (dict_set d "type" (PStr "anomaly")))
  | _ => Raise TypeError
  end.

(** ** [_process_loop]: the block under the lock, for a reading taken from
    [sensor_data]; [now] is [datetime.now(timezone.utc).isoformat()].
    An exception leaves the state as it was and ends the thread. *)
Definition process_reading (now : string) (reading : value) (s : state)
  : result state :=
  avg <- window_average (readings s) ;;
  anom <- is_anomaly reading ;;
  s1 <- (if anom
         then anomaly <- annotate reading ;;
              Ok (log (AnomalyDetected anomaly)
                    (set_anomalies (anomalies s ++ [anomaly]) s))
         else Ok s) ;;
  let summary := {| avg_temp := round2 (fst avg);
                    avg_humid := round2 (snd avg);
                    last_update := now |} in
  if negb (returning s1)
  then Ok (set_forward_queue (forward_queue s1 ++ [summary]) s1)
  else Ok s1.

(** One turn of the loop when no other thread moves between the [get] and
    the locked block: [sensor_data.get(timeout=1)] either times out on an
    empty queue ([continue]) or hands over the oldest reading.  (The thread
    model further down takes the two apart.) *)
Definition process_iteration (now : string) (s : state) : result state :=
  match sensor_data s with
  | [] => Ok s
  | reading :: rest => process_reading now reading (set_sensor_data rest s)
  end.

(** Turns of the loop with nothing else running in between, one for each
    reading of the clock in [nows]: every turn calls [datetime.now] for
    itself. *)
Fixpoint process_turns (nows : list string) (s : state) : result state :=
  match nows with
  | [] => Ok s
  | now :: later => s' <- process_iteration now s ;; process_turns later s'
  end.

(** ** [_battery_simulation] *)

(** [max(a, b)]: [b] when [b > a], else [a]. *)
Definition py_max (a b : Q) : Q := if Qle_bool b a then a else b.

(** The block under the lock, once a second. *)
Definition battery_tick (s : state) : state :=
  let s1 := set_battery (py_max 0 (battery s - (1 # 2))%Q) s in
  if Qle_bool (battery s1) (battery_threshold s1) && negb (returning s1)
  then log BatteryLow (set_returning true s1)
  else s1.

(** [n] ticks in a row, no reset and no change of threshold in between. *)
Definition ticks (n : nat) (s : DroneEdge num) : DroneEdge num :=
  Nat.iter n battery_tick s.

(** [DroneGUI._reset_battery] and [DroneGUI._on_threshold_change]. *)
Definition reset_battery (s : state) : state :=
  log BatteryReset (set_returning false (set_battery 100 s)).

Definition on_threshold_change (val : Q) (s : state) : state :=
  log (ThresholdSet val) (set_battery_threshold val s).

(** ** [_forward_loop] *)

(** Whether [_send_to_central] returned or raised. *)
Inductive send_outcome := SendOk | SendRaised.

(** Lines 160-161: the guard and the copy [list(self.forward_queue)];
    [None] when the guard fails and nothing is attempted. *)
Definition forward_snapshot (s : state) : option (list (summary num)) :=
  if negb (returning s) && negb (Nat.eqb (length (forward_queue s)) 0)
  then Some (forward_queue s)
  else None.

(** Lines 162-166, after [_send_to_central(batch)] came back. *)
Definition forward_complete (o : send_outcome) (batch : list (summary num))
  (s : state) : state :=
  match o with
  | SendOk => set_forward_queue [] (log (Forwarded (length batch)) s)
  | SendRaised => log ForwardFailed s
  end.

(** The whole block under the lock. *)
Definition forward_tick (o : send_outcome) (s : state) : state :=
  match forward_snapshot s with
  | Some batch => forward_complete o batch s
  | None => s
  end.

(** ** [_handle_sensor]: the framed line reader *)

(** [json.loads(line.decode("utf-8"))], a library call. *)
Variable json_loads : list byte -> loads_result num.

(** Where a handler stands: it went on with a value, or an exception left
    it; either way the shared state is what it made of it so far. *)
Inductive run (A : Type) : Type :=
| Ret (a : A) (s : state)
| Exc (e : exn) (s : state).

Arguments Exc {A} e s.

(** [buf.split(b"\n", 1)] when [b"\n" in buf], [None] when it is not. *)
Fixpoint split_newline (buf : list byte) : option (list byte * list byte) :=
  match buf with
  | [] => None
  | b :: rest =>
      if Byte.eqb b x0a then Some ([], rest)
      else match split_newline rest with
           | Some (line, rest') => Some (b :: line, rest')
           | None => None
           end
  end.

Lemma split_newline_shorter (buf line rest : list byte) :
  split_newline buf = Some (line, rest) -> length rest < length buf.
Proof.
  revert line rest; induction buf as [|b buf IH]; intros line rest; simpl.
  - discriminate.
  - destruct (Byte.eqb b x0a).
    + intros [= _ <-]. lia.
    + destruct (split_newline buf) as [[l r]|]; [|discriminate].
      intros [= _ <-]. specialize (IH l r eq_refl). lia.
Qed.

(** Lines 106-113: one line through [try ... except json.JSONDecodeError]. *)
Definition handle_line (line : list byte) (s : state) : run unit :=
  match json_loads line with
  | Loaded reading => Ret tt (log (Received reading) (ingest reading s))
  | JSONDecodeError => Ret tt (log InvalidJSON s)
  | LoadsRaises e => Exc e s
  end.

(** Lines 104-113: [while b"\n" in buf]; returns what is left in [buf]. *)
Equations drain (buf : list byte) (s : state) : run (list byte)
  by wf (length buf) lt :=
  drain buf s with inspect (split_newline buf) => {
    | exist _ None _ => Ret buf s
    | exist _ (Some (line, rest)) Hsplit with handle_line line s => {
        | Ret _ s' => drain rest s'
        | Exc e s' => Exc e s' } }.
Next Obligation.
  eapply split_newline_shorter; eauto.
Qed.

(** Lines 99-113: the [recv] loop over the chunks the socket delivers; an
    empty chunk, or none left, is the peer closing. *)
Fixpoint recv_loop (chunks : list (list byte)) (buf : list byte) (s : state)
  : run unit :=
  match chunks with
  | [] => Ret tt s
  | data :: more =>
      match data with
      | [] => Ret tt s
      | _ =>
          match drain (buf ++ data) s with
          | Ret buf' s' => recv_loop more buf' s'
          | Exc e s' => Exc e s'
          end
      end
  end.

Definition handle_sensor (chunks : list (list byte)) (s : state) : run unit :=
  match recv_loop chunks [] s with
  | Ret _ s' => Ret tt (log SensorDisconnected s')
  | Exc e s' => Exc e s'
  end.

(** ** The threads and [self.lock]

    Every block [with self.lock:] of the sensor handlers, the process loop,
    the battery simulation and the GUI callbacks runs without blocking, so
    it is one step that needs the lock free and leaves it free.  The block
    of [_forward_loop] contains the call [_send_to_central(batch)], which
    connects and sends: the forward thread is observed between taking the
    lock and the return of that call. *)

Inductive forward_pc : Type :=
| FSleeping                                 (* in [time.sleep] or waiting for the lock *)
| FSending (batch : list (summary num)).    (* inside [_send_to_central(batch)] *)

Inductive process_pc : Type :=
| PWaiting                       (* in [sensor_data.get] *)
| PHolding (reading : value)     (* has a reading, waiting for the lock *)
| PDead (e : exn).               (* the thread ended on an exception *)

Record system : Type := {
  drone : state;
  lock : bool;                              (* [self.lock.locked()] *)
  forward_at : forward_pc;
  process_at : process_pc;
  written : list (list (summary num))       (* batches whose [sendall] returned *)
}.

(** [DroneEdge(...)] followed by [start()]. *)
Definition boot (threshold : Q) (window : nat) : system :=
  {| drone := init threshold window;
     lock := false;
     forward_at := FSleeping;
     process_at := PWaiting;
     written := [] |}.

Definition with_drone (s : state) (sys : system) : system :=
  {| drone := s;
     lock := lock sys;
     forward_at := forward_at sys;
     process_at := process_at sys;
     written := written sys |}.

Definition with_process (p : process_pc) (s : state) (sys : system) : system :=
  {| drone := s;
     lock := lock sys;
     forward_at := forward_at sys;
     process_at := p;
     written := written sys |}.

Inductive action : Type :=
| SensorLine (line : list byte)    (* a handler has split off a line *)
| ProcessGet                       (* [sensor_data.get] returns *)
| ProcessBody (now : string)       (* the locked block of [_process_loop] *)
| BatteryTick
| GuiReset
| GuiThreshold (val : Q)
| ForwardBegin                     (* lock taken, guard, copy, call entered *)
| ForwardEnd (o : send_outcome).   (* the call came back; rest of the block *)

(** One step of one thread; [None] when the thread cannot move (it waits
    for the lock, or it is not at that point of its code). *)
Definition step (a : action) (sys : system) : option system :=
  match a with
  | SensorLine line =>
      match json_loads line, lock sys with
      | Loaded _, true => None
      | _, _ =>
          match handle_line line (drone sys) with
          | Ret _ s' => Some (with_drone s' sys)
          | Exc _ s' => Some (with_drone s' sys)
          end
      end
  | ProcessGet =>
      match process_at sys, sensor_data (drone sys) with
      | PWaiting, reading :: rest =>
          Some (with_process (PHolding reading)
                  (set_sensor_data rest (drone sys)) sys)
      | _, _ => None
      end
  | ProcessBody now =>
      match process_at sys, lock sys with
      | PHolding reading, false =>
          match process_reading now reading (drone sys) with
          | Ok s' => Some (with_process PWaiting s' sys)
          | Raise e => Some (with_process (PDead e) (drone sys) sys)
          end
      | _, _ => None
      end
  | BatteryTick =>
      if lock sys then None
      else Some (with_drone (battery_tick (drone sys)) sys)
  | GuiReset =>
      if lock sys then None
      else Some (with_drone (reset_battery (drone sys)) sys)
  | GuiThreshold val =>
      if lock sys then None
      else Some (with_drone (on_threshold_change val (drone sys)) sys)
  | ForwardBegin =>
      match forward_at sys, lock sys with
      | FSleeping, false =>
          match forward_snapshot (drone sys) with
          | Some batch =>
              Some {| drone := drone sys;
                      lock := true;
                      forward_at := FSending batch;
                      process_at := process_at sys;
                      written := written sys |}
          | None => Some sys
          end
      | _, _ => None
      end
  | ForwardEnd o =>
      match forward_at sys with
      | FSending batch =>
          Some {| drone := forward_complete o batch (drone sys);
                  lock := false;
                  forward_at := FSleeping;
                  process_at := process_at sys;
                  written := match o with
                             | SendOk => written sys ++ [batch]
                             | SendRaised => written sys
                             end |}
      | FSleeping => None
      end
  end.

(** A schedule, run from a given system. *)
Fixpoint exec (schedule : list action) (sys : system) : option system :=
  match schedule with
  | [] => Some sys
  | a :: rest =>
      match step a sys with
      | Some sys' => exec rest sys'
      | None => None
      end
  end.

(** The systems some schedule leads to from [boot]. *)
Definition reachable (sys : system) : Prop :=
  exists threshold window schedule,
    exec schedule (boot threshold window) = Some sys.

(** The actions of the threads other than the forward thread. *)
Definition other_thread (a : action) : bool :=
  match a with
  | ForwardBegin | ForwardEnd _ => false
  | _ => true
  end.

(** What holds of the forward thread's place in every reachable system:
    the lock is held exactly while it is inside [_send_to_central], and the
    queue is then still the copy it took. *)
Definition lock_inv (sys : system) : Prop :=
  match forward_at sys with
  | FSleeping => lock sys = false
  | FSending batch =>
      lock sys = true
      /\ forward_queue (drone sys) = batch
      /\ returning (drone sys) = false
      /\ batch <> []
  end.

(** The readings a schedule puts into the drone: what its lines decode to,
    in order. *)
Definition ingested (schedule : list action) : list value :=
  flat_map (fun a => match a with
                     | SensorLine line =>
                         match json_loads line with
                         | Loaded v => [v]
                         | _ => []
                         end
                     | _ => []
                     end) schedule.

End Drone.

Arguments Ret {num A} a s.
Arguments Exc {num A} e s.
Arguments FSleeping {num}.
Arguments PWaiting {num}.
Arguments PDead {num} e.

(** ** The framed line reader as the specification words it

    "Splitting the concatenated stream at newline terminators and decoding
    each complete line": [stream_lines] gives the newline-terminated lines
    of a byte stream and the unterminated rest; [spec_reader] hands each
    complete line of the whole stream to [handle_line], in order. *)

Fixpoint stream_lines (stream : list byte) : list (list byte) * list byte :=
  match stream with
  | [] => ([], [])
  | b :: rest =>
      let (lines, tail) := stream_lines rest in
      if Byte.eqb b x0a then ([] :: lines, tail)
      else match lines with
           | [] => ([], b :: tail)
           | l :: lines' => ((b :: l) :: lines', tail)
           end
  end.

Definition complete_lines (stream : list byte) : list (list byte) :=
  fst (stream_lines stream).

Definition unterminated (stream : list byte) : list byte :=
  snd (stream_lines stream).

Section SpecReader.

Context {num : Type} `{PyNumber num}.
Variable json_loads : list byte -> loads_result num.

Fixpoint handle_lines (lines : list (list byte)) (s : DroneEdge num)
  : run unit :=
  match lines with
  | [] => Ret tt s
  | l :: rest =>
      match handle_line json_loads l s with
      | Ret _ s' => handle_lines rest s'
      | Exc e s' => Exc e s'
      end
  end.

Definition spec_reader (stream : list byte) (s : DroneEdge num) : run unit :=
  match handle_lines (complete_lines stream) s with
  | Ret _ s' => Ret tt (log SensorDisconnected s')
  | Exc e s' => Exc e s'
  end.

(** The objects decoded from a list of lines. *)
Definition decoded (lines : list (list byte)) : list (pyval num) :=
  flat_map (fun l => match json_loads l with
                     | Loaded v => [v]
                     | _ => []
                     end) lines.

End SpecReader.

(** ** Readings as sensors send them (sensor_node/sensor.py, [send_reading]) *)

Record Reading (num : Type) : Type := {
  sensor_id : string;
  temperature : num;
  humidity : num;
  timestamp : string
}.

(** The dictionary [json.loads] builds from the line of a reading. *)
Definition to_py {num} (r : Reading num) : pyval num :=
  PDict [("sensor_id"%string, PStr (sensor_id r));
         ("temperature"%string, PNum (temperature r));
         ("humidity"%string, PNum (humidity r));
         ("timestamp"%string, PStr (timestamp r))].

(** Ingesting a sequence of readings, oldest first. *)
Definition ingest_all {num} (rs : list (pyval num)) (s : DroneEdge num)
  : DroneEdge num :=
  fold_left (fun s r => ingest r s) rs s.

(** The arithmetic mean of a list of numbers, and what is reported over a
    window: 0.0 when it is empty, the mean otherwise. *)
Definition mean {num} `{PyNumber num} (xs : list num) : num :=
  div_len (fold_left add xs (of_int 0)) (length xs).

Definition window_mean {num} `{PyNumber num} (xs : list num) : num :=
  match xs with
  | [] => of_int 0
  | _ => mean xs
  end.

(** The bounds of the anomaly check on a reading's two measurements. *)
Definition out_of_bounds {num} `{PyNumber num} (r : Reading num) : bool :=
  ltb (temperature r) (of_int (-10)) || gtb (temperature r) (of_int 60)
  || ltb (humidity r) (of_int 0) || gtb (humidity r) (of_int 100).

(** A reading annotated as an anomaly: [{**reading, "type": "anomaly"}]. *)
Definition to_anomaly {num} (r : Reading num) : pyval num :=
  PDict [("sensor_id"%string, PStr (sensor_id r));
         ("temperature"%string, PNum (temperature r));
         ("humidity"%string, PNum (humidity r));
         ("timestamp"%string, PStr (timestamp r));
         ("type"%string, PStr "anomaly")].

(** The summary of a window of readings at time [now]. *)
Definition summary_of {num} `{PyNumber num} (now : string)
  (rs : list (Reading num)) : summary num :=
  {| avg_temp := round2 (window_mean (map (@temperature num) rs));
     avg_humid := round2 (window_mean (map (@humidity num) rs));
     last_update := now |}.

(** ** Python's floats

    A Python float is an IEEE 754 binary64 number; [PrimFloat] has these
    with the additions, divisions and comparisons of the hardware. *)

(** The float nearest to the rational [n / d], a tie going to the even
    mantissa, and an infinity beyond the largest float: what [float(n)],
    the division [n / d] of two integers and the reading of a decimal such
    as [15.15] = 1515 / 100 give.  The quotient is cut to 56 or 57 bits,
    with one more bit that tells whether anything was cut off, and rounded
    from there to the 53 bits of a float. *)
Definition float_of_ratio (n : Z) (d : positive) : PrimFloat.float :=
  match n with
  | Z0 => PrimFloat.zero
  | _ =>
      let a := Z.abs n in
      let k := (56 + Z.log2 (Z.pos d) - Z.log2 a)%Z in
      let top := if (0 <=? k)%Z then (a * 2 ^ k)%Z else a in
      let bottom := if (0 <=? k)%Z then Z.pos d else (Z.pos d * 2 ^ (- k))%Z in
      let q := (top / bottom)%Z in
      let sticky := if (top mod bottom =? 0)%Z then 0%Z else 1%Z in
      let m := (2 * q + sticky)%Z in
      FloatOps.SF2Prim
        (SpecFloat.binary_normalize FloatOps.prec FloatOps.emax
           (if (n <? 0)%Z then (- m)%Z else m) (- k - 1) false)
  end.

(** The integer nearest to [n / d], a tie going to the even one. *)
Definition half_even (n d : Z) : Z :=
  let q := (n / d)%Z in
  match (2 * (n mod d) ?= d)%Z with
  | Lt => q
  | Gt => (q + 1)%Z
  | Eq => if Z.even q then q else (q + 1)%Z
  end.

(** [round(x, 2)] on a float: the decimal with two places nearest to the
    exact value of [x], a tie going to the even last digit, read back as a
    float; the sign stays, and zeros, infinities and NaN are returned as
    they are. *)
Definition float_round2 (x : PrimFloat.float) : PrimFloat.float :=
  match FloatOps.Prim2SF x with
  | SpecFloat.S754_finite sign m e =>
      let hundredths :=
        if (0 <=? e)%Z then (Z.pos m * 2 ^ e * 100)%Z
        else half_even (Z.pos m * 100) (2 ^ (- e)) in
      let y := float_of_ratio hundredths 100 in
      if sign then PrimFloat.opp y else y
  | _ => x
  end.

#[export] Instance FloatNumber : PyNumber PrimFloat.float := {|
  of_int := fun z => float_of_ratio z 1;
  add := PrimFloat.add;
  div_len := fun x n => PrimFloat.div x (float_of_ratio (Z.of_nat n) 1);
  int_div_len := fun z n => float_of_ratio z (Pos.of_nat n);
  ltb := PrimFloat.ltb;
  round2 := float_round2
|}.

(** ** Arithmetic without rounding

    The rationals, with exact sums and quotients: the arithmetic in which
    one speaks of the arithmetic mean.  It is not the arithmetic of the
    program, whose float sums and quotients are rounded to 53 bits; the two
    agree where the float operations are exact. *)

(** The nearest multiple of 1/100, a tie going to the even one. *)
Definition Qround2 (q : Q) : Q :=
  let x := (q * 100)%Q in
  let f := Qfloor x in
  let n := match (x - inject_Z f ?= 1 # 2)%Q with
           | Lt => f
           | Gt => (f + 1)%Z
           | Eq => if Z.even f then f else (f + 1)%Z
           end in
  (n # 100)%Q.

#[export] Instance QNumber : PyNumber Q := {|
  of_int := inject_Z;
  add := Qplus;
  div_len := fun x n => (x / inject_Z (Z.of_nat n))%Q;
  int_div_len := fun z n => (inject_Z z / inject_Z (Z.of_nat n))%Q;
  ltb := fun x y => negb (Qle_bool y x);
  round2 := Qround2
|}.

(** ** Sample lines

    Lines a sensor connection can deliver, and what
    [json.loads(line.decode("utf-8"))] makes of them.  The numbers are
    binary fractions, so the rationals below are the floats themselves. *)

Definition dq : string :=
  String (Ascii.Ascii false true false false false true false false) EmptyString.

(** [json.dumps(data)] for the dictionary of [send_reading], the two
    measurements given as printed. *)
Definition reading_text (sid temp hum ts : string) : string :=
  ("{" ++ dq ++ "sensor_id" ++ dq ++ ": " ++ dq ++ sid ++ dq ++ ", "
   ++ dq ++ "temperature" ++ dq ++ ": " ++ temp ++ ", "
   ++ dq ++ "humidity" ++ dq ++ ": " ++ hum ++ ", "
   ++ dq ++ "timestamp" ++ dq ++ ": " ++ dq ++ ts ++ dq ++ "}")%string.

Definition mild : Reading Q :=
  {| sensor_id := "sensor_1234";
     temperature := 25.5%Q;
     humidity := 40%Q;
     timestamp := "2025-05-01T10:00:00+00:00" |}.

Definition hot : Reading Q :=
  {| sensor_id := "sensor_1234";
     temperature := 100%Q;
     humidity := 50%Q;
     timestamp := "2025-05-01T10:00:02+00:00" |}.

Definition mild_line : list byte :=
  list_byte_of_string
    (reading_text "sensor_1234" "25.5" "40.0" "2025-05-01T10:00:00+00:00").

Definition hot_line : list byte :=
  list_byte_of_string
    (reading_text "sensor_1234" "100.0" "50.0" "2025-05-01T10:00:02+00:00").

(** [{}] is JSON, but no reading; [oops] is not JSON; the byte [0xff] is
    not UTF-8. *)
Definition empty_object_line : list byte := list_byte_of_string "{}".
Definition garbage_line : list byte := list_byte_of_string "oops".
Definition not_utf8_line : list byte := [xff].

(** The decoder on these five lines.  (No example feeds it another line;
    there it answers as on [oops].) *)
Definition sample_loads (line : list byte) : loads_result Q :=
  let text := string_of_list_byte line in
  if String.eqb text (string_of_list_byte mild_line) then Loaded (to_py mild)
  else if String.eqb text (string_of_list_byte hot_line) then Loaded (to_py hot)
  else if String.eqb text (string_of_list_byte empty_object_line)
       then Loaded (PDict [])
  else if String.eqb text (string_of_list_byte not_utf8_line)
       then LoadsRaises UnicodeDecodeError
  else JSONDecodeError.

(** ** Sample states and schedules *)

(** The system a schedule leads to from [boot 20 10] with the sample
    decoder (the booted system itself if the schedule cannot run). *)
Definition after (schedule : list action) : @system Q :=
  match exec sample_loads schedule (boot 20 10) with
  | Some sys => sys
  | None => boot 20 10
  end.

(** One reading arrives and is processed; the forward thread then takes the
    lock and enters [_send_to_central]. *)
Definition one_summary : list action :=
  [SensorLine mild_line; ProcessGet; ProcessBody "2025-05-01T10:00:01+00:00"].

Definition sending : list action := one_summary ++ [ForwardBegin].

(** A drone whose window holds [mild] and [hot], with [hot] still to be
    processed. *)
Definition two_readings : DroneEdge Q :=
  set_sensor_data [to_py hot]
    (ingest_all [to_py mild; to_py hot] (init 20 10)).

(** Two readings arrive and the first is processed; the threshold slider is
    moved to 100 and the battery ticks, so the drone is returning; the
    process loop then takes the second reading from the queue. *)
Definition returning_schedule : list action :=
  [SensorLine mild_line; SensorLine hot_line; ProcessGet;
   ProcessBody "2025-05-01T10:00:01+00:00"; GuiThreshold 100; BatteryTick;
   ProcessGet].

Definition low_battery : DroneEdge Q := drone (after returning_schedule).

(** The clock as twelve turns of the process loop read it, a tenth of a
    second apart. *)
Definition twelve_nows : list string :=
  ["2025-05-01T10:01:00.000000+00:00"%string;
   "2025-05-01T10:01:00.100000+00:00"%string;
   "2025-05-01T10:01:00.200000+00:00"%string;
   "2025-05-01T10:01:00.300000+00:00"%string;
   "2025-05-01T10:01:00.400000+00:00"%string;
   "2025-05-01T10:01:00.500000+00:00"%string;
   "2025-05-01T10:01:00.600000+00:00"%string;
   "2025-05-01T10:01:00.700000+00:00"%string;
   "2025-05-01T10:01:00.800000+00:00"%string;
   "2025-05-01T10:01:00.900000+00:00"%string;
   "2025-05-01T10:01:01.000000+00:00"%string;
   "2025-05-01T10:01:01.100000+00:00"%string].

(** Three lines, cut into chunks that do not respect them. *)
Definition sample_stream : list byte :=
  mild_line ++ [x0a] ++ garbage_line ++ [x0a] ++ hot_line ++ [x0a].

Definition sample_chunks : list (list byte) :=
  [firstn 30 sample_stream;
   firstn 100 (skipn 30 sample_stream);
   skipn 130 sample_stream].



(** ** Sample readings as floats *)

(** The float a decimal is read as. *)
Definition as_float (q : Q) : PrimFloat.float :=
  float_of_ratio (Qnum q) (Qden q).

Definition float_reading (r : Reading Q) : Reading PrimFloat.float :=
  {| sensor_id := sensor_id r;
     temperature := as_float (temperature r);
     humidity := as_float (humidity r);
     timestamp := timestamp r |}.




(** Three readings and a garbage line arrive at a drone with a window of
    two; the process loop has taken the first reading. *)
Definition after_window_2 : @system Q :=
  match exec sample_loads
          [SensorLine hot_line; SensorLine mild_line; SensorLine garbage_line;
           SensorLine mild_line; ProcessGet] (boot 20 2) with
  | Some sys => sys
  | None => boot 20 2
  end.

(** ** Shapes the process loop can work with *)

(** Whether a value can stand next to a number in [+], [<], [>]. *)
Definition numeric {num} (v : pyval num) : bool :=
  match v with
  | PInt _ | PNum _ | PBool _ => true
  | _ => false
  end.

(** Whether an entry of the window gives a number under both
    ["temperature"] and ["humidity"]. *)
Definition measurable {num} (v : pyval num) : bool :=
  match getitem v "temperature", getitem v "humidity" with
  | Ok t, Ok h => numeric t && numeric h
  | _, _ => false
  end.

(** Whether an entry of the window gives a float under both keys, as the
    readings of [send_reading] do. *)
Definition float_valued {num} (v : pyval num) : bool :=
  match getitem v "temperature", getitem v "humidity" with
  | Ok (PNum _), Ok (PNum _) => true
  | _, _ => false
  end.

(** An entry whose temperature is the integer [2^1024], just beyond the
    floats. *)
Definition huge_entry {num} (h : num) : pyval num :=
  PDict [("temperature"%string, PInt (2 ^ 1024)); ("humidity"%string, PNum h)].

(** ** What a peer puts on the wire

    [json.dumps(...).encode("utf-8") + b"\n"]: the payload of
    [send_reading] in sensor_node/sensor.py and of [_send_to_central], for
    an object already encoded; and the stream of a connection on which
    payloads are sent one after the other. *)
Definition payload (encoded : list byte) : list byte := encoded ++ [x0a].

Definition wire (encoded : list (list byte)) : list byte :=
  concat (map payload encoded).

(** ** Counting the steps of the process loop in a schedule *)

Definition is_get (a : action) : bool :=
  match a with
  | ProcessGet => true
  | _ => false
  end.

Definition is_body (a : action) : bool :=
  match a with
  | ProcessBody _ => true
  | _ => false
  end.

(** The process loop working its queue off while no other thread moves: a
    [get] and the locked block for each reading of the clock in [nows]. *)
Definition turns (nows : list string) : list action :=
  flat_map (fun now => [ProcessGet; ProcessBody now]) nows.

(** [{}] arrives and the process loop takes it up. *)
Definition poisoned : list action :=
  [SensorLine empty_object_line; ProcessGet;
   ProcessBody "2025-05-01T10:00:01+00:00"].

(** A summary whose two averages are [round(0.0, 2)]. *)
Definition zero_summary {num} `{PyNumber num} (sm : summary num) : Prop :=
  avg_temp sm = round2 (of_int 0) /\ avg_humid sm = round2 (of_int 0).

(** ** What [_send_to_central] encodes

    The summary dictionary of [_process_loop] and the object
    [{"batch": data_batch}] as Python values. *)
Definition summary_to_py {num} (sm : summary num) : pyval num :=
  PDict [("avg_temp"%string, PNum (avg_temp sm));
         ("avg_humid"%string, PNum (avg_humid sm));
         ("last_update"%string, PStr (last_update sm))].

Definition batch_message {num} (batch : list (summary num)) : pyval num :=
  PDict [("batch"%string, PList (map summary_to_py batch))].

(** ** The central collector (central_server/central.py) *)

Module Central.

(** Records handed to the [logging] module by the collector. *)
Inductive log_record (num : Type) : Type :=
| AnomalyReceived (item : pyval num)       (* warning *)
| SummaryReceived (record : pyval num)     (* info *)
| InvalidJSON                              (* warning: "Invalid JSON from Drone" *)
| DroneDisconnected.                       (* info *)

Arguments AnomalyReceived {num} item.
Arguments SummaryReceived {num} record.
Arguments InvalidJSON {num}.
Arguments DroneDisconnected {num}.

Record CentralServer (num : Type) : Type := {
  data_records : list (pyval num);
  anomalies : list (pyval num);
  logged : list (log_record num)
}.

(** What ends a handler thread: an exception of the decoder, [x.get] on a
    value that is no dictionary, or [for item in x] on a value that cannot
    be iterated. *)
Inductive raised : Type :=
| FromLoads (e : exn)
| AttributeError
| NotIterable.

Section Collector.

Context {num : Type}.

Local Abbreviation value := (pyval num).
Local Abbreviation state := (CentralServer num).

(** Where a handler stands, with the collector as it left it. *)
Inductive outcome (A : Type) : Type :=
| Done (a : A) (c : state)
| Failed (e : raised) (c : state).

Arguments Failed {A} e c.

(** [CentralServer.__init__] *)
Definition init : state :=
  {| data_records := []; anomalies := []; logged := [] |}.

Definition log (r : log_record num) (c : state) : state :=
  {| data_records := data_records c;
     anomalies := anomalies c;
     logged := logged c ++ [r] |}.

Definition add_anomaly (item : value) (c : state) : state :=
  {| data_records := data_records c;
     anomalies := anomalies c ++ [item];
     logged := logged c |}.

Definition add_record (record : value) (c : state) : state :=
  {| data_records := data_records c ++ [record];
     anomalies := anomalies c;
     logged := logged c |}.

(** [d.get(key, default)] *)
Definition get_default (d : list (string * value)) (key : string)
  (default : value) : value :=
  match dict_get d key with
  | Some v => v
  | None => default
  end.

(** [item.get("type") == "anomaly"] *)
Definition is_anomaly_item (d : list (string * value)) : bool :=
  match dict_get d "type" with
  | Some (PStr s) => String.eqb s "anomaly"
  | _ => false
  end.

(** The record built for an item that is no anomaly; [now] is the clock at
    that moment, used when the item has no ["last_update"]. *)
Definition record_of (now : string) (d : list (string * value)) : value :=
  PDict [("timestamp"%string, get_default d "last_update" (PStr now));
         ("avg_temp"%string, get_default d "avg_temp" PNone);
         ("avg_humid"%string, get_default d "avg_humid" PNone)].

(** What [for item in batch] goes through: the elements of a list, the
    keys of a dictionary, the characters of a string; other values cannot
    be iterated. *)
Definition items_of (batch : value) : option (list value) :=
  match batch with
  | PList l => Some l
  | PDict d => Some (map (fun kv => PStr (fst kv)) d)
  | PStr s =>
      Some (map (fun ch => PStr (String ch EmptyString))
              (list_ascii_of_string s))
  | _ => None
  end.

(** The clock is read once per item that is no anomaly; [clock n] is its
    reading when [n] items have been stored so far. *)
Variable clock : nat -> string.

(** The body of [for item in batch], item by item. *)
Fixpoint store (items : list value) (c : state) : outcome unit :=
  match items with
  | [] => Done tt c
  | item :: rest =>
      match item with
      | PDict d =>
          if is_anomaly_item d
          then store rest (log (AnomalyReceived item) (add_anomaly item c))
          else
            let now := clock (length (data_records c) + length (anomalies c)) in
            let record := record_of now d in
            store rest (log (SummaryReceived record) (add_record record c))
      | _ => Failed AttributeError c
      end
  end.

(** [_process_message] *)
Definition process_message (message : value) (c : state) : outcome unit :=
  match message with
  | PDict m =>
      match items_of (get_default m "batch" (PList [])) with
      | Some items => store items c
      | None => Failed NotIterable c
      end
  | _ => Failed AttributeError c
  end.

(** [json.loads(line.decode("utf-8"))], a library call. *)
Variable json_loads : list byte -> loads_result num.

(** One line through [try ... except json.JSONDecodeError]. *)
Definition handle_line (line : list byte) (c : state) : outcome unit :=
  match json_loads line with
  | Loaded message => process_message message c
  | JSONDecodeError => Done tt (log InvalidJSON c)
  | LoadsRaises e => Failed (FromLoads e) c
  end.

(** [while b"\n" in buf]; returns what is left in [buf]. *)
Equations drain (buf : list byte) (c : state) : outcome (list byte)
  by wf (length buf) lt :=
  drain buf c with inspect (split_newline buf) => {
    | exist _ None _ => Done buf c
    | exist _ (Some (line, rest)) Hsplit with handle_line line c => {
        | Done _ c' => drain rest c'
        | Failed e c' => Failed e c' } }.
Next Obligation.
  eapply split_newline_shorter; eauto.
Qed.

(** The [recv] loop of [_handle_drone] over the chunks the socket
    delivers. *)
Fixpoint recv_loop (chunks : list (list byte)) (buf : list byte) (c : state)
  : outcome unit :=
  match chunks with
  | [] => Done tt c
  | data :: more =>
      match data with
      | [] => Done tt c
      | _ =>
          match drain (buf ++ data) c with
          | Done buf' c' => recv_loop more buf' c'
          | Failed e c' => Failed e c'
          end
      end
  end.

(** [_handle_drone] *)
Definition handle_drone (chunks : list (list byte)) (c : state)
  : outcome unit :=
  match recv_loop chunks [] c with
  | Done _ c' => Done tt (log DroneDisconnected c')
  | Failed e c' => Failed e c'
  end.

(** The lines of a stream handed over one by one. *)
Fixpoint handle_lines (lines : list (list byte)) (c : state) : outcome unit :=
  match lines with
  | [] => Done tt c
  | l :: rest =>
      match handle_line l c with
      | Done _ c' => handle_lines rest c'
      | Failed e c' => Failed e c'
      end
  end.

End Collector.

Arguments Done {num A} a c.
Arguments Failed {num A} e c.

End Central.

(** The number of items a collector has stored so far, which is where its
    clock stands. *)
Definition stored {num} (c : Central.CentralServer num) : nat :=
  length (Central.data_records c) + length (Central.anomalies c).

(** The items of a batch that are no anomalies, each with the reading of
    the clock at its turn, when [n] items were stored before the batch. *)
Definition clocked {num} (n : nat) (ds : list (list (string * pyval num)))
  : list (nat * list (string * pyval num)) :=
  filter (fun p => negb (Central.is_anomaly_item (snd p)))
    (combine (seq n (length ds)) ds).

(** The record the collector keeps for a summary. *)
Definition summary_record {num} (sm : summary num) : pyval num :=
  PDict [("timestamp"%string, PStr (last_update sm));
         ("avg_temp"%string, PNum (avg_temp sm));
         ("avg_humid"%string, PNum (avg_humid sm))].

(** ** Sample lines of the drone

    The batch the drone holds after [one_summary], the line
    [json.dumps({"batch": batch})] gives for it, and what
    [json.loads(line.decode("utf-8"))] makes of that line, of [[]] (JSON,
    but no dictionary) and of [{}]; other lines are answered as [oops]. *)
Definition sample_batch : list (summary Q) :=
  forward_queue (drone (after one_summary)).

Definition batch_line : list byte :=
  list_byte_of_string
    ("{" ++ dq ++ "batch" ++ dq ++ ": [{"
     ++ dq ++ "avg_temp" ++ dq ++ ": 25.5, "
     ++ dq ++ "avg_humid" ++ dq ++ ": 40.0, "
     ++ dq ++ "last_update" ++ dq ++ ": "
     ++ dq ++ "2025-05-01T10:00:01+00:00" ++ dq ++ "}]}")%string.

Definition empty_list_line : list byte := list_byte_of_string "[]".

Definition sample_central_loads (line : list byte) : loads_result Q :=
  let text := string_of_list_byte line in
  if String.eqb text (string_of_list_byte batch_line)
  then Loaded (batch_message sample_batch)
  else if String.eqb text (string_of_list_byte empty_list_line)
       then Loaded (PList [])
  else if String.eqb text (string_of_list_byte empty_object_line)
       then Loaded (PDict [])
  else JSONDecodeError.

(** The collector's clock in the examples. *)
Definition sample_clock (n : nat) : string := "2025-05-01T10:00:09+00:00".

(** The level after [n] ticks from the level [b]: [b - n/2], not below 0. *)
Definition level_after (n : nat) (b : Q) : Q :=
  if Qle_bool (inject_Z (Z.of_nat n) * (1 # 2)) b
  then (b - inject_Z (Z.of_nat n) * (1 # 2))%Q
  else 0%Q.

(** Items that need no clock: anomalies, and dictionaries that bring their
    own ["last_update"]. *)
Definition dated {num} (d : list (string * pyval num)) : Prop :=
  Central.is_anomaly_item d = false -> dict_get d "last_update" <> None.

(** The dictionary of a summary. *)
Definition summary_dict {num} (sm : summary num) : list (string * pyval num) :=
  [("avg_temp"%string, PNum (avg_temp sm));
   ("avg_humid"%string, PNum (avg_humid sm));
   ("last_update"%string, PStr (last_update sm))].

(** How [send_reading] would print [mild] and [hot]. *)
Definition sample_dumps (r : Reading Q) : list byte :=
  if Qeq_bool (temperature r) 100 then hot_line else mild_line.

(** The queue against the readings decoded so far [ing] and the number [g]
    of them the process loop has taken. *)
Definition queue_inv {num} (sys : @system num) (ing : list (pyval num)) (g : nat)
  : Prop :=
  g <= length ing
  /\ sensor_data (drone sys) = skipn g ing
  /\ forall r, process_at sys = PHolding r ->
               0 < g /\ nth_error ing (g - 1) = Some r.


(** * Properties *)

(** ** The rolling window *)

Section Window.

Context {num : Type} `{PyNumber num}.

Lemma deque_append_length (n : nat) (w : list (pyval num)) (x : pyval num) :
  length w <= n -> length (deque_append n w x) <= n.
Proof.
  intros Hw. unfold deque_append.
  destruct (Nat.ltb_spec n (length (w ++ [x]))) as [Hlt|Hge]; [|exact Hge].
  rewrite length_app in Hlt. simpl in Hlt.
  destruct w as [|y w]; simpl in *; [lia|].
  rewrite length_app. simpl. lia.
Qed.

Lemma skipn_tl {A} (k : nat) (l : list A) : skipn (S k) l = skipn k (tl l).
Proof. destruct l; simpl; [now rewrite skipn_nil | reflexivity]. Qed.

Lemma fold_deque_append (n : nat) (rs w : list (pyval num)) :
  length w <= n ->
  fold_left (deque_append n) rs w = skipn (length (w ++ rs) - n) (w ++ rs).
Proof.
  revert w; induction rs as [|r rs IH]; intros w Hw.
  - rewrite app_nil_r. replace (length w - n) with 0 by lia. reflexivity.
  - simpl fold_left. rewrite IH by now apply deque_append_length.
    unfold deque_append.
    destruct (Nat.ltb_spec n (length (w ++ [r]))) as [Hlt|Hge].
    + rewrite length_app in Hlt. cbn [length] in Hlt.
      assert (Hn : length w = n) by lia.
      destruct w as [|y w].
      * cbn [length] in Hn. subst n. cbn [app tl].
        rewrite !Nat.sub_0_r, !skipn_all. reflexivity.
      * cbn [app tl]. rewrite <- app_assoc. cbn [app].
        set (l := w ++ r :: rs).
        cbn [length] in *.
        assert (Hl : S (length w) <= length l)
          by (unfold l; rewrite length_app; cbn [length]; lia).
        replace (S (length l) - n) with (S (length l - n)) by lia.
        reflexivity.
    + rewrite <- app_assoc. reflexivity.
Qed.

Lemma readings_ingest_all (rs : list (pyval num)) (s : DroneEdge num) :
  readings (ingest_all rs s)
  = fold_left (deque_append (rolling_window s)) rs (readings s)
  /\ rolling_window (ingest_all rs s) = rolling_window s.
Proof.
  revert s; induction rs as [|r rs IH]; intros s; [split; reflexivity|].
  unfold ingest_all in *. simpl fold_left.
  destruct (IH (ingest r s)) as [IH1 IH2]. rewrite IH1, IH2. split; reflexivity.
Qed.

End Window.

(** ** Averages, anomalies and summaries *)

Section Processing.

Context {num : Type} `{PyNumber num}.

Lemma getitem_temperature (r : Reading num) :
  getitem (to_py r) "temperature" = Ok (PNum (temperature r)).
Proof. reflexivity. Qed.

Lemma getitem_humidity (r : Reading num) :
  getitem (to_py r) "humidity" = Ok (PNum (humidity r)).
Proof. reflexivity. Qed.

Lemma mapM_getitem (key : string) (f : Reading num -> num)
  (rs : list (Reading num)) :
  (forall r, getitem (to_py r) key = Ok (PNum (f r))) ->
  mapM (fun v => getitem v key) (map to_py rs) = Ok (map PNum (map f rs)).
Proof.
  intros Hkey. induction rs as [|r rs IH]; [reflexivity|].
  cbn [map mapM]. rewrite Hkey, IH. reflexivity.
Qed.

Lemma float_of_int_0 : float_of_int 0 = Ok (of_int 0).
Proof. reflexivity. Qed.

Lemma sum_from_numbers (xs : list num) (acc : num) :
  sum_from (NFloat acc) (map PNum xs) = Ok (NFloat (fold_left add xs acc)).
Proof.
  revert acc; induction xs as [|x xs IH]; intros acc; [reflexivity|].
  cbn [map sum_from as_number py_add bind fold_left]. apply IH.
Qed.

Lemma py_sum_numbers (x : num) (xs : list num) :
  py_sum (PNum x :: map PNum xs)
  = Ok (NFloat (fold_left add (x :: xs) (of_int 0))).
Proof.
  unfold py_sum. cbn [sum_from as_number py_add bind fold_left].
  rewrite float_of_int_0. cbn [bind]. apply sum_from_numbers.
Qed.

Lemma window_average_readings (rs : list (Reading num)) :
  window_average (map to_py rs)
  = Ok (window_mean (map (@temperature num) rs),
        window_mean (map (@humidity num) rs)).
Proof.
  destruct rs as [|r rs]; [reflexivity|].
  unfold window_average.
  change (map to_py (r :: rs)) with (to_py r :: map to_py rs).
  cbv beta iota.
  change (to_py r :: map to_py rs) with (map to_py (r :: rs)).
  rewrite (mapM_getitem "temperature" (@temperature num) (r :: rs)
             getitem_temperature).
  rewrite (mapM_getitem "humidity" (@humidity num) (r :: rs)
             getitem_humidity).
  cbn [bind map]. rewrite !py_sum_numbers. cbn [bind div_by_len].
  unfold window_mean, mean. cbn [map]. cbn [length].
  rewrite !length_map. reflexivity.
Qed.

Lemma is_anomaly_reading (r : Reading num) :
  is_anomaly (to_py r) = Ok (out_of_bounds r).
Proof.
  unfold is_anomaly, out_of_bounds.
  rewrite getitem_temperature, getitem_humidity.
  cbn [bind lt_int gt_int].
  destruct (ltb (temperature r) (of_int (-10))); [reflexivity|].
  destruct (gtb (temperature r) (of_int 60)); [reflexivity|].
  destruct (ltb (humidity r) (of_int 0)); reflexivity.
Qed.

Lemma process_reading_readings (now : string) (reading : pyval num)
  (s s' : DroneEdge num) :
  process_reading now reading s = Ok s' ->
  readings s' = readings s /\ sensor_data s' = sensor_data s
  /\ rolling_window s' = rolling_window s
  /\ battery s' = battery s /\ returning s' = returning s.
Proof.
  unfold process_reading.
  destruct (window_average (readings s)) as [avg|e]; [|discriminate].
  destruct (is_anomaly reading) as [[|]|e]; cbn [bind]; [| |discriminate].
  - destruct (annotate reading) as [a|e]; cbn [bind]; [|discriminate].
    cbn [returning log set_anomalies].
    destruct (returning s) eqn:E; cbn [negb]; intros [= <-]; cbn;
      rewrite ?E; repeat split; reflexivity.
  - destruct (returning s) eqn:E; cbn [negb]; intros [= <-]; cbn;
      rewrite ?E; repeat split; reflexivity.
Qed.

Lemma deque_append_last (n : nat) (w : list (pyval num)) (x : pyval num) :
  0 < n -> exists w', deque_append n w x = w' ++ [x].
Proof.
  intros Hn. unfold deque_append.
  destruct (n <? length (w ++ [x])) eqn:E; [|now exists w].
  destruct w as [|y w].
  - apply Nat.ltb_lt in E. simpl in E. lia.
  - exists w. reflexivity.
Qed.

Lemma annotate_reading (r : Reading num) :
  annotate (to_py r) = Ok (to_anomaly r).
Proof. reflexivity. Qed.

(** What the locked block of [_process_loop] does with a reading when the
    window holds readings. *)
Lemma process_reading_shape (now : string) (r : Reading num)
  (rs : list (Reading num)) (s : DroneEdge num) :
  readings s = map to_py rs ->
  process_reading now (to_py r) s
  = Ok (let s1 := if out_of_bounds r
                  then log (AnomalyDetected (to_anomaly r))
                         (set_anomalies (anomalies s ++ [to_anomaly r]) s)
                  else s in
        if returning s then s1
        else set_forward_queue (forward_queue s ++ [summary_of now rs]) s1).
Proof.
  intros Hw. unfold process_reading.
  rewrite Hw, window_average_readings, is_anomaly_reading. cbn [bind fst snd].
  destruct (out_of_bounds r).
  - rewrite annotate_reading.
    cbn [bind returning forward_queue log set_anomalies].
    destruct (returning s); reflexivity.
  - cbn [bind]. destruct (returning s); reflexivity.
Qed.

End Processing.

Lemma fold_left_Qplus (xs : list Q) (acc : Q) :
  (fold_left Qplus xs acc == acc + fold_right Qplus 0 xs)%Q.
Proof.
  revert acc; induction xs as [|x xs IH]; intros acc; simpl.
  - ring.
  - rewrite IH. ring.
Qed.

Lemma Qmean_sum (x : Q) (xs : list Q) :
  (mean (x :: xs) * inject_Z (Z.of_nat (length (x :: xs)))
   == fold_right Qplus 0 (x :: xs))%Q.
Proof.
  unfold mean. cbn [div_len add of_int QNumber].
  rewrite fold_left_Qplus.
  assert (Hn : ~ (inject_Z (Z.of_nat (length (x :: xs))) == 0)%Q).
  { unfold Qeq. cbn [length Qnum Qden inject_Z]. lia. }
  field. exact Hn.
Qed.

(** C5: the averages are a function of the window alone: [(0.0, 0.0)] on an
    empty window, the arithmetic means of the temperatures and of the
    humidities otherwise (in exact arithmetic, the number whose product with
    the window length is the sum); and the summary a processed reading
    yields carries the averages of the window as it is at that moment. *)
Theorem current_average_mean :
  (forall num (N : PyNumber num),
     window_average (@nil (pyval num)) = Ok (of_int 0, of_int 0))
  /\ (forall num (N : PyNumber num) (r : Reading num) (rs : list (Reading num)),
        window_average (map to_py (r :: rs))
        = Ok (mean (map (@temperature num) (r :: rs)),
              mean (map (@humidity num) (r :: rs))))
  /\ (forall (r : Reading Q) (rs : list (Reading Q)),
        let w := r :: rs in
        let n := inject_Z (Z.of_nat (length w)) in
        (mean (map (@temperature Q) w) * n
         == fold_right Qplus 0 (map (@temperature Q) w))%Q
        /\ (mean (map (@humidity Q) w) * n
            == fold_right Qplus 0 (map (@humidity Q) w))%Q)
  /\ (forall num (N : PyNumber num) (now : string) (reading : pyval num)
        (s s' : DroneEdge num),
        returning s = false ->
        process_reading now reading s = Ok s' ->
        exists avg,
          window_average (readings s) = Ok avg
          /\ forward_queue s'
             = forward_queue s ++ [{| avg_temp := round2 (fst avg);
                                      avg_humid := round2 (snd avg);
                                      last_update := now |}]).
Proof.
  split; [reflexivity|]. split; [|split].
  - intros num N r rs. apply (window_average_readings (r :: rs)).
  - intros r rs w n. subst w n. cbn [map].
    pose proof (Qmean_sum (temperature r) (map (@temperature Q) rs)) as Ht.
    pose proof (Qmean_sum (humidity r) (map (@humidity Q) rs)) as Hh.
    cbn [length] in *. rewrite length_map in Ht, Hh. split; assumption.
  - intros num N now reading s s' Hact. unfold process_reading.
    destruct (window_average (readings s)) as [avg|e]; [|discriminate].
    cbn [bind]. intros Hp. exists avg. split; [reflexivity|].
    destruct (is_anomaly reading) as [[|]|e]; cbn [bind] in Hp;
      [| |discriminate].
    + destruct (annotate reading) as [a|e]; cbn [bind] in Hp; [|discriminate].
      cbn [returning forward_queue log set_anomalies] in Hp.
      rewrite Hact in Hp. cbn [negb] in Hp. injection Hp as <-. reflexivity.
    + rewrite Hact in Hp. cbn [negb] in Hp. injection Hp as <-. reflexivity.
Qed.

Lemma current_average_mean_witness :
  returning two_readings = false
  /\ exists s' avg,
       process_reading "2025-05-01T10:00:03+00:00" (to_py hot) two_readings
       = Ok s'
       /\ window_average (readings two_readings) = Ok avg
       /\ forward_queue s'
          = forward_queue two_readings
            ++ [{| avg_temp := round2 (fst avg);
                   avg_humid := round2 (snd avg);
                   last_update := "2025-05-01T10:00:03+00:00" |}].
Proof.
  split; [reflexivity|].
  destruct (process_reading "2025-05-01T10:00:03+00:00" (to_py hot)
              two_readings) as [s'|e] eqn:Hp; [|discriminate Hp].
  destruct (proj2 (proj2 (proj2 current_average_mean)) Q QNumber
              "2025-05-01T10:00:03+00:00"%string (to_py hot) two_readings s'
              eq_refl Hp) as [avg [Ha Hq]].
  exists s', avg. split; [reflexivity|]. split; assumption.
Defined.

Lemma Qltb_lt (x y : Q) : ltb x y = true <-> (x < y)%Q.
Proof.
  cbn [ltb QNumber]. rewrite negb_true_iff. split.
  - intros Hle. apply Qnot_le_lt. intros Hyx.
    apply Qle_bool_iff in Hyx. congruence.
  - intros Hlt. destruct (Qle_bool y x) eqn:E; [|reflexivity].
    apply Qle_bool_iff in E. exfalso. exact (Qlt_not_le _ _ Hlt E).
Qed.

Lemma out_of_bounds_iff (r : Reading Q) :
  out_of_bounds r = true
  <-> (temperature r < -10 \/ 60 < temperature r
       \/ humidity r < 0 \/ 100 < humidity r)%Q.
Proof.
  unfold out_of_bounds, gtb. rewrite !orb_true_iff, !Qltb_lt.
  cbn [of_int QNumber]. tauto.
Qed.

(** C3: a reading is classified as an anomaly exactly when its temperature
    is below -10 or above 60, or its humidity is below 0 or above 100; the
    bounds themselves (60, 100) are not anomalous, 61 and -1 are; and a
    reading is appended to the rolling window when it arrives, anomalous or
    not, and recording the anomaly leaves the window as it is. *)
Theorem anomaly_bounds :
  (forall num (N : PyNumber num) (r : Reading num),
     is_anomaly (to_py r)
     = Ok (ltb (temperature r) (of_int (-10))
           || gtb (temperature r) (of_int 60)
           || ltb (humidity r) (of_int 0)
           || gtb (humidity r) (of_int 100)))
  /\ (forall r : Reading Q,
        is_anomaly (to_py r) = Ok true
        <-> (temperature r < -10 \/ 60 < temperature r
             \/ humidity r < 0 \/ 100 < humidity r)%Q)
  /\ (forall sid ts,
        is_anomaly (to_py {| sensor_id := sid; temperature := 60%Q;
                             humidity := 100%Q; timestamp := ts |})
        = Ok false)
  /\ (forall sid h ts,
        is_anomaly (to_py {| sensor_id := sid; temperature := 61%Q;
                             humidity := h; timestamp := ts |})
        = Ok true)
  /\ (forall sid t ts,
        is_anomaly (to_py {| sensor_id := sid; temperature := t;
                             humidity := (-1)%Q; timestamp := ts |})
        = Ok true)
  /\ (forall num (N : PyNumber num) (loads : list byte -> loads_result num)
        (line : list byte) (r : Reading num) (s : DroneEdge num),
        loads line = Loaded (to_py r) ->
        exists s',
          handle_line loads line s = Ret tt s'
          /\ readings s'
             = deque_append (rolling_window s) (readings s) (to_py r)
          /\ (0 < rolling_window s ->
              exists w', readings s' = w' ++ [to_py r]))
  /\ (forall num (N : PyNumber num) (now : string) (r : Reading num)
        (rs : list (Reading num)) (s : DroneEdge num),
        readings s = map to_py rs ->
        exists s',
          process_reading now (to_py r) s = Ok s'
          /\ readings s' = readings s
          /\ anomalies s'
             = anomalies s ++ (if out_of_bounds r then [to_anomaly r] else [])).
Proof.
  assert (Hiff : forall r : Reading Q,
            is_anomaly (to_py r) = Ok true
            <-> (temperature r < -10 \/ 60 < temperature r
                 \/ humidity r < 0 \/ 100 < humidity r)%Q).
  { intros r. rewrite is_anomaly_reading, <- out_of_bounds_iff.
    split; [intros [= ->]; reflexivity | intros ->; reflexivity]. }
  split; [intros; apply is_anomaly_reading|].
  split; [exact Hiff|].
  split; [reflexivity|].
  split; [intros; apply Hiff; cbn; right; left; reflexivity|].
  split; [intros; apply Hiff; cbn; right; right; left; reflexivity|].
  split.
  - intros num N loads line r s Hl. unfold handle_line. rewrite Hl.
    eexists. split; [reflexivity|]. split; [reflexivity|].
    intros Hn. exact (deque_append_last (readings s) (to_py r) Hn).
  - intros num N now r rs s Hw. rewrite (process_reading_shape now r rs s Hw).
    eexists; split; [reflexivity|].
    destruct (out_of_bounds r), (returning s); cbn;
      rewrite ?app_nil_r; split; reflexivity.
Qed.

Lemma anomaly_bounds_witness :
  sample_loads hot_line = Loaded (to_py hot)
  /\ 0 < rolling_window (init (num:=Q) 20 10)
  /\ (exists s',
        handle_line sample_loads hot_line (init 20 10) = Ret tt s'
        /\ exists w', readings s' = w' ++ [to_py hot])
  /\ readings two_readings = map to_py [mild; hot]
  /\ (exists s',
        process_reading "2025-05-01T10:00:03+00:00" (to_py hot) two_readings
        = Ok s'
        /\ readings s' = readings two_readings
        /\ anomalies s'
           = anomalies two_readings
             ++ (if out_of_bounds hot then [to_anomaly hot] else [])).
Proof.
  destruct anomaly_bounds as (_ & _ & _ & _ & _ & Hin & Hproc).
  split; [reflexivity|]. split; [cbn; lia|].
  split.
  { destruct (Hin Q QNumber sample_loads hot_line hot (init 20 10) eq_refl)
      as (s' & Hs' & _ & Hlast).
    exists s'. split; [exact Hs'|]. apply Hlast. cbn; lia. }
  split; [reflexivity|].
  apply (Hproc Q QNumber _ hot [mild; hot] two_readings). reflexivity.
Defined.




(** Twelve readings into a window of ten, the first at 100 degrees: the
    window keeps the last ten, the one anomaly is recorded when the queue
    is processed, and the averages are those of the ten kept. *)
Example twelve_readings :
  let s := ingest_all (to_py hot :: repeat (to_py mild) 11) (init 20 10) in
  readings s = repeat (to_py mild) 10
  /\ exists s' a h,
       process_turns twelve_nows s = Ok s'
       /\ anomalies s' = [to_anomaly hot]
       /\ length (forward_queue s') = 12
       /\ window_average (readings s') = Ok (a, h)
       /\ (a == 25.5)%Q /\ (h == 40)%Q.
Proof.
  split; [vm_compute; reflexivity|].
  eexists; eexists; eexists. split; [vm_compute; reflexivity|].
  split; [reflexivity|]. split; [reflexivity|].
  split; [vm_compute; reflexivity|]. split; reflexivity.
Qed.

(** On the windows of the examples the two arithmetics agree: the summary
    computed on floats is the float of the summary computed without
    rounding. *)
Example sample_windows_agree :
  Forall (fun rs =>
            avg_temp (summary_of "" (map float_reading rs))
            = as_float (avg_temp (summary_of "" rs))
            /\ avg_humid (summary_of "" (map float_reading rs))
               = as_float (avg_humid (summary_of "" rs)))
    [[mild]; [mild; hot]; [mild; hot; mild]; repeat mild 10].
Proof.
  repeat constructor; vm_compute; reflexivity.
Qed.

(** ** The lock and the forward loop *)

Section Locking.

Context {num : Type} `{PyNumber num}.
Variable json_loads : list byte -> loads_result num.

Local Abbreviation sysT := (@system num).

Lemma exec_invariant (P : sysT -> Prop) :
  (forall a sys sys', P sys -> step json_loads a sys = Some sys' -> P sys') ->
  forall schedule sys sys',
    P sys -> exec json_loads schedule sys = Some sys' -> P sys'.
Proof.
  intros Hstep schedule.
  induction schedule as [|a rest IH]; intros sys sys' HP; cbn [exec].
  - intros [= <-]. exact HP.
  - destruct (step json_loads a sys) as [sys1|] eqn:E; [|discriminate].
    apply IH. eapply Hstep; eauto.
Qed.

Lemma exec_app (l1 l2 : list action) (sys : sysT) :
  exec json_loads (l1 ++ l2) sys
  = match exec json_loads l1 sys with
    | Some sys1 => exec json_loads l2 sys1
    | None => None
    end.
Proof.
  revert sys; induction l1 as [|a l1 IH]; intros sys; cbn [app exec].
  - reflexivity.
  - destruct (step json_loads a sys); [apply IH | reflexivity].
Qed.

Lemma reachable_step (a : action) (sys sys' : sysT) :
  reachable json_loads sys -> step json_loads a sys = Some sys' ->
  reachable json_loads sys'.
Proof.
  intros (threshold & window & schedule & Hex) Hstep.
  exists threshold, window, (schedule ++ [a]).
  rewrite exec_app, Hex. cbn [exec]. rewrite Hstep. reflexivity.
Qed.

Lemma handle_line_forward (line : list byte) (s : DroneEdge num) :
  forall s',
    (handle_line json_loads line s = Ret tt s'
     \/ exists e, handle_line json_loads line s = Exc e s') ->
    forward_queue s' = forward_queue s /\ returning s' = returning s.
Proof.
  intros s'. unfold handle_line.
  destruct (json_loads line) as [v| |e]; intros [Hr|[e' Hr]];
    inversion Hr; subst; split; reflexivity.
Qed.

Lemma process_reading_forward (now : string) (reading : pyval num)
  (s s' : DroneEdge num) :
  process_reading now reading s = Ok s' ->
  returning s' = returning s
  /\ exists new, forward_queue s' = forward_queue s ++ new.
Proof.
  unfold process_reading.
  destruct (window_average (readings s)) as [avg|e]; [|discriminate].
  destruct (is_anomaly reading) as [[|]|e]; cbn [bind]; [| |discriminate].
  - destruct (annotate reading) as [a|e]; cbn [bind]; [|discriminate].
    cbn [returning forward_queue log set_anomalies].
    destruct (returning s) eqn:Hr; cbn [negb]; intros [= <-]; cbn;
      (split; [now rewrite ?Hr|]).
    + exists []. now rewrite app_nil_r.
    + eexists. reflexivity.
  - destruct (returning s) eqn:Hr; cbn [negb]; intros [= <-]; cbn;
      (split; [now rewrite ?Hr|]).
    + exists []. now rewrite app_nil_r.
    + eexists. reflexivity.
Qed.

Lemma forward_snapshot_some (s : DroneEdge num) (batch : list (summary num)) :
  forward_snapshot s = Some batch ->
  batch = forward_queue s /\ returning s = false /\ batch <> [].
Proof.
  unfold forward_snapshot.
  destruct (returning s); cbn [negb andb]; [discriminate|].
  destruct (forward_queue s) as [|x q]; cbn; [discriminate|].
  intros [= <-]. repeat split. discriminate.
Qed.

Lemma step_lock_inv (a : action) (sys sys' : sysT) :
  lock_inv sys -> step json_loads a sys = Some sys' -> lock_inv sys'.
Proof.
  unfold lock_inv. intros Hinv. destruct a; cbn [step].
  - (* SensorLine *)
    intros Hs.
    assert (Hd : exists s', sys' = with_drone s' sys
               /\ forward_queue s' = forward_queue (drone sys)
               /\ returning s' = returning (drone sys)).
    { destruct (handle_line json_loads line (drone sys)) as [[] s1|e s1] eqn:Eh;
        pose proof (@handle_line_forward line (drone sys) s1) as Hf.
      - destruct Hf as [Hq Hr]; [now left|].
        exists s1. destruct (json_loads line), (lock sys);
          inversion Hs; subst; auto.
      - destruct Hf as [Hq Hr]; [right; now exists e|].
        exists s1. destruct (json_loads line), (lock sys);
          inversion Hs; subst; auto. }
    destruct Hd as (s1 & -> & Hq & Hr). cbn. now rewrite Hq, Hr.
  - (* ProcessGet *)
    destruct (process_at sys); try discriminate.
    destruct (sensor_data (drone sys)); [discriminate|].
    intros [= <-]. exact Hinv.
  - (* ProcessBody *)
    destruct (process_at sys); try discriminate.
    destruct (lock sys) eqn:Hl; [discriminate|].
    destruct (forward_at sys) eqn:Hf; [|destruct Hinv; discriminate].
    destruct (process_reading now reading (drone sys));
      intros [= <-]; cbn; now rewrite Hf.
  - (* BatteryTick *)
    destruct (lock sys) eqn:Hl; [discriminate|].
    destruct (forward_at sys) eqn:Hf; [|destruct Hinv; discriminate].
    intros [= <-]; cbn; now rewrite Hf.
  - (* GuiReset *)
    destruct (lock sys) eqn:Hl; [discriminate|].
    destruct (forward_at sys) eqn:Hf; [|destruct Hinv; discriminate].
    intros [= <-]; cbn; now rewrite Hf.
  - (* GuiThreshold *)
    destruct (lock sys) eqn:Hl; [discriminate|].
    destruct (forward_at sys) eqn:Hf; [|destruct Hinv; discriminate].
    intros [= <-]; cbn; now rewrite Hf.
  - (* ForwardBegin *)
    destruct (forward_at sys) eqn:Hf; [|discriminate].
    destruct (lock sys) eqn:Hl; [discriminate|].
    destruct (forward_snapshot (drone sys)) as [batch|] eqn:Hs;
      intros [= <-]; cbn.
    + apply forward_snapshot_some in Hs. destruct Hs as (-> & Hr & Hne). auto.
    + now rewrite Hf.
  - (* ForwardEnd *)
    destruct (forward_at sys); [discriminate|].
    intros [= <-]. reflexivity.
Qed.

Lemma reachable_lock_inv (sys : sysT) :
  reachable json_loads sys -> lock_inv sys.
Proof.
  intros (threshold & window & schedule & Hex).
  eapply (exec_invariant lock_inv); [apply step_lock_inv | | exact Hex].
  reflexivity.
Qed.

Lemma step_other_keeps_sending (a : action) (sys sys' : sysT)
  (batch : list (summary num)) :
  other_thread a = true ->
  lock_inv sys ->
  forward_at sys = FSending batch ->
  step json_loads a sys = Some sys' ->
  forward_at sys' = FSending batch /\ written sys' = written sys.
Proof.
  intros Ha Hinv Hf. unfold lock_inv in Hinv. rewrite Hf in Hinv.
  destruct Hinv as (Hl & _).
  destruct a; cbn [step other_thread] in *; try discriminate; rewrite ?Hl;
    try (intros Hx; discriminate Hx).
  - destruct (handle_line json_loads line (drone sys)) as [[] s1|e s1];
      destruct (json_loads line); intros [= <-]; auto.
  - destruct (process_at sys); try discriminate.
    destruct (sensor_data (drone sys)); [discriminate|].
    intros [= <-]; auto.
  - destruct (process_at sys); discriminate.
Qed.

Lemma exec_other_keeps_sending (mid : list action) :
  forall (sys sys' : sysT) (batch : list (summary num)),
    forallb other_thread mid = true ->
    lock_inv sys ->
    forward_at sys = FSending batch ->
    exec json_loads mid sys = Some sys' ->
    forward_at sys' = FSending batch /\ written sys' = written sys
    /\ lock_inv sys'.
Proof.
  induction mid as [|a mid IH]; intros sys sys' batch Hall Hinv Hf;
    cbn [exec forallb] in *.
  - intros [= <-]. auto.
  - apply andb_prop in Hall. destruct Hall as [Ha Hall].
    destruct (step json_loads a sys) as [sys1|] eqn:E; [|discriminate].
    destruct (@step_other_keeps_sending a sys sys1 batch Ha Hinv Hf E)
      as [Hf1 Hw1].
    intros Hex.
    destruct (IH sys1 sys' batch Hall (@step_lock_inv a sys sys1 Hinv E)
                Hf1 Hex)
      as (Hf' & Hw' & Hinv').
    repeat split; congruence || assumption.
Qed.

Lemma forward_begin_sending (sys sys1 : sysT) (batch : list (summary num)) :
  step json_loads ForwardBegin sys = Some sys1 ->
  forward_at sys1 = FSending batch ->
  batch = forward_queue (drone sys)
  /\ written sys1 = written sys /\ drone sys1 = drone sys.
Proof.
  cbn [step]. destruct (forward_at sys) eqn:Hf; [|discriminate].
  destruct (lock sys); [discriminate|].
  destruct (forward_snapshot (drone sys)) as [b|] eqn:Hs; intros [= <-].
  - cbn. intros [= <-]. apply forward_snapshot_some in Hs. tauto.
  - rewrite Hf. discriminate.
Qed.

Lemma battery_tick_forward_queue (s : DroneEdge num) :
  forward_queue (battery_tick s) = forward_queue s.
Proof.
  unfold battery_tick.
  match goal with |- context [if ?c then _ else _] => destruct c end;
    reflexivity.
Qed.

(** Every step keeps what was written to the collector followed by what is
    queued, and can only add to its end. *)
Lemma step_accounted (a : action) (sys sys' : sysT) :
  lock_inv sys ->
  step json_loads a sys = Some sys' ->
  exists new,
    concat (written sys') ++ forward_queue (drone sys')
    = (concat (written sys) ++ forward_queue (drone sys)) ++ new.
Proof.
  intros Hinv. destruct a; cbn [step].
  - intros Hs.
    assert (Hd : exists s', sys' = with_drone s' sys
               /\ forward_queue s' = forward_queue (drone sys)).
    { destruct (handle_line json_loads line (drone sys)) as [[] s1|e s1] eqn:Eh;
        pose proof (@handle_line_forward line (drone sys) s1) as Hf.
      - destruct Hf as [Hq Hr]; [now left|].
        exists s1. destruct (json_loads line), (lock sys);
          inversion Hs; subst; auto.
      - destruct Hf as [Hq Hr]; [right; now exists e|].
        exists s1. destruct (json_loads line), (lock sys);
          inversion Hs; subst; auto. }
    destruct Hd as (s1 & -> & Hq). exists []. cbn. now rewrite Hq, app_nil_r.
  - destruct (process_at sys); try discriminate.
    destruct (sensor_data (drone sys)); [discriminate|].
    intros [= <-]. exists []. cbn. now rewrite app_nil_r.
  - destruct (process_at sys); try discriminate.
    destruct (lock sys); [discriminate|].
    destruct (process_reading now reading (drone sys)) as [s1|e] eqn:Ep;
      intros [= <-]; cbn.
    + apply process_reading_forward in Ep. destruct Ep as (_ & new & ->).
      exists new. now rewrite app_assoc.
    + exists []. now rewrite app_nil_r.
  - destruct (lock sys); [discriminate|]. intros [= <-].
    exists []. cbn [drone written with_drone].
    now rewrite battery_tick_forward_queue, app_nil_r.
  - destruct (lock sys); [discriminate|]. intros [= <-].
    exists []. cbn. now rewrite app_nil_r.
  - destruct (lock sys); [discriminate|]. intros [= <-].
    exists []. cbn. now rewrite app_nil_r.
  - destruct (forward_at sys); [|discriminate].
    destruct (lock sys); [discriminate|].
    destruct (forward_snapshot (drone sys)); intros [= <-];
      exists []; cbn; now rewrite app_nil_r.
  - unfold lock_inv in Hinv.
    destruct (forward_at sys) as [|batch]; [discriminate|].
    destruct Hinv as (_ & Hq & _). intros [= <-]. exists [].
    destruct o; cbn; rewrite Hq, ?concat_app; cbn;
      now rewrite ?app_nil_r.
Qed.

End Locking.

(** ** The window under any schedule *)

Section WindowSchedule.

Context {num : Type} `{PyNumber num}.
Variable json_loads : list byte -> loads_result num.

Lemma battery_tick_readings (s : DroneEdge num) :
  readings (battery_tick s) = readings s
  /\ rolling_window (battery_tick s) = rolling_window s.
Proof.
  unfold battery_tick.
  match goal with |- context [if ?c then _ else _] => destruct c end;
    split; reflexivity.
Qed.

Lemma step_readings (a : action) (sys sys' : @system num) :
  step json_loads a sys = Some sys' ->
  rolling_window (drone sys') = rolling_window (drone sys)
  /\ readings (drone sys')
     = fold_left (deque_append (rolling_window (drone sys)))
         (ingested json_loads [a]) (readings (drone sys)).
Proof.
  destruct a; cbn [step ingested flat_map app fold_left].
  - unfold handle_line.
    destruct (json_loads line) as [v| |e]; [destruct (lock sys)|..];
      try discriminate; intros [= <-]; split; reflexivity.
  - destruct (process_at sys); try discriminate.
    destruct (sensor_data (drone sys)); [discriminate|].
    intros [= <-]; split; reflexivity.
  - destruct (process_at sys); try discriminate.
    destruct (lock sys); [discriminate|].
    destruct (process_reading now reading (drone sys)) as [s1|e] eqn:Ep;
      intros [= <-]; cbn [drone with_process]; [|split; reflexivity].
    apply process_reading_readings in Ep. destruct Ep as (Hr & _ & Hw & _).
    split; assumption.
  - destruct (lock sys); [discriminate|]. intros [= <-].
    cbn [drone with_drone].
    destruct (battery_tick_readings (drone sys)). split; assumption.
  - destruct (lock sys); [discriminate|]. intros [= <-]. split; reflexivity.
  - destruct (lock sys); [discriminate|]. intros [= <-]. split; reflexivity.
  - destruct (forward_at sys); [|discriminate].
    destruct (lock sys); [discriminate|].
    destruct (forward_snapshot (drone sys)); intros [= <-]; split; reflexivity.
  - destruct (forward_at sys); [discriminate|]. intros [= <-].
    destruct o; split; reflexivity.
Qed.

Lemma exec_readings (schedule : list action) :
  forall sys sys' : @system num,
    exec json_loads schedule sys = Some sys' ->
    rolling_window (drone sys') = rolling_window (drone sys)
    /\ readings (drone sys')
       = fold_left (deque_append (rolling_window (drone sys)))
           (ingested json_loads schedule) (readings (drone sys)).
Proof.
  induction schedule as [|a rest IH]; intros sys sys'; cbn [exec].
  - intros [= <-]. split; reflexivity.
  - destruct (step json_loads a sys) as [sys1|] eqn:E; [|discriminate].
    intros Hex. destruct (IH sys1 sys' Hex) as [Hw Hr].
    destruct (step_readings a sys E) as [Hw1 Hr1].
    split; [congruence|].
    unfold ingested in *. cbn [flat_map] in *. rewrite app_nil_r in Hr1.
    rewrite fold_left_app, <- Hr1, <- Hw1. exact Hr.
Qed.

End WindowSchedule.

(** C4: after ingesting the readings [rs] into a fresh drone with window
    capacity [window], the rolling window holds the last [window] of them
    in arrival order (the oldest ones were evicted first), so its length is
    [min window (length rs)]; and so it is at every point of every run of
    the threads, for the readings decoded so far. *)
Theorem rolling_window_fifo :
  (forall (num : Type) (threshold : Q) (window : nat) (rs : list (pyval num)),
     let s := ingest_all rs (init threshold window) in
     readings s = skipn (length rs - window) rs
     /\ length (readings s) = Nat.min window (length rs)
     /\ length (readings s) <= window)
  /\ (forall (num : Type) (N : PyNumber num)
        (loads : list byte -> loads_result num) (threshold : Q)
        (window : nat) (schedule : list action) (sys : @system num),
        exec loads schedule (boot threshold window) = Some sys ->
        let rs := ingested loads schedule in
        readings (drone sys) = skipn (length rs - window) rs
        /\ length (readings (drone sys)) = Nat.min window (length rs)
        /\ length (readings (drone sys)) <= window).
Proof.
  split.
  - intros num threshold window rs s. subst s.
    destruct (readings_ingest_all rs (init threshold window)) as [-> _].
    cbn [rolling_window readings init].
    rewrite fold_deque_append by (cbn; lia). cbn [app].
    split; [reflexivity|]. rewrite length_skipn. lia.
  - intros num N loads threshold window schedule sys Hex rs. subst rs.
    destruct (exec_readings loads schedule _ Hex) as [_ ->].
    cbn [rolling_window readings init boot drone].
    rewrite fold_deque_append by (cbn; lia). cbn [app].
    split; [reflexivity|]. rewrite length_skipn. lia.
Qed.

Lemma rolling_window_fifo_witness :
  exec sample_loads
    ([SensorLine hot_line; SensorLine mild_line; SensorLine garbage_line;
      SensorLine mild_line; ProcessGet]) (boot 20 2)
  = Some (after_window_2)
  /\ readings (drone after_window_2) = [to_py mild; to_py mild]
  /\ length (readings (drone after_window_2)) = 2.
Proof.
  assert (Hex : exec sample_loads
                  ([SensorLine hot_line; SensorLine mild_line;
                    SensorLine garbage_line; SensorLine mild_line; ProcessGet])
                  (boot 20 2) = Some after_window_2)
    by (vm_compute; reflexivity).
  destruct (proj2 rolling_window_fifo Q QNumber sample_loads _ _ _ _ Hex)
    as (Hr & Hl & _).
  split; [exact Hex|]. split; [rewrite Hr|rewrite Hl]; vm_compute; reflexivity.
Defined.

(** C2: a forwarding tick that took its copy of the queue finds the queue
    equal to that copy when [_send_to_central] comes back, whatever the
    other threads did meanwhile; if the call raised, the queue is what it
    was before the tick and only an error is logged; if it returned, the
    queue is emptied and the copy is what was written.  Over any step of
    any thread, what was written followed by what is queued only grows at
    its end: no summary leaves the queue except into a written batch. *)
Theorem forward_keeps_unsent :
  (forall num (N : PyNumber num) (loads : list byte -> loads_result num)
     (sys sys1 sys2 sys3 : @system num) (batch : list (summary num))
     (mid : list action) (o : send_outcome),
     reachable loads sys ->
     step loads ForwardBegin sys = Some sys1 ->
     forward_at sys1 = FSending batch ->
     forallb other_thread mid = true ->
     exec loads mid sys1 = Some sys2 ->
     step loads (ForwardEnd o) sys2 = Some sys3 ->
     batch = forward_queue (drone sys)
     /\ forward_queue (drone sys2) = batch
     /\ match o with
        | SendRaised =>
            forward_queue (drone sys3) = forward_queue (drone sys)
            /\ written sys3 = written sys
            /\ logged (drone sys3) = logged (drone sys2) ++ [ForwardFailed]
        | SendOk =>
            forward_queue (drone sys3) = []
            /\ written sys3 = written sys ++ [batch]
        end)
  /\ (forall num (N : PyNumber num) (loads : list byte -> loads_result num)
        (a : action) (sys sys' : @system num),
        reachable loads sys ->
        step loads a sys = Some sys' ->
        exists new,
          concat (written sys') ++ forward_queue (drone sys')
          = (concat (written sys) ++ forward_queue (drone sys)) ++ new)
  /\ (forall num (N : PyNumber num) (s : DroneEdge num),
        forward_queue (forward_tick SendRaised s) = forward_queue s).
Proof.
  split; [|split].
  - intros num N loads sys sys1 sys2 sys3 batch mid o Hr Hb Hf Hmid Hex He.
    destruct (forward_begin_sending loads sys Hb Hf) as (Hbatch & Hw1 & Hd1).
    pose proof (reachable_lock_inv (reachable_step ForwardBegin Hr Hb)) as Hi1.
    destruct (@exec_other_keeps_sending _ _ loads mid sys1 sys2 batch
                Hmid Hi1 Hf Hex) as (Hf2 & Hw2 & Hi2).
    unfold lock_inv in Hi2. rewrite Hf2 in Hi2. destruct Hi2 as (_ & Hq2 & _).
    split; [exact Hbatch|]. split; [exact Hq2|].
    cbn [step] in He. rewrite Hf2 in He. injection He as <-.
    destruct o; cbn.
    + split; [reflexivity|]. congruence.
    + split; [congruence|]. split; [congruence | reflexivity].
  - intros num N loads a sys sys' Hr Hs.
    exact (@step_accounted num N loads a sys sys' (reachable_lock_inv Hr) Hs).
  - intros num N s. unfold forward_tick.
    destruct (forward_snapshot s); reflexivity.
Qed.

Lemma forward_keeps_unsent_witness :
  reachable sample_loads (after one_summary)
  /\ step sample_loads ForwardBegin (after one_summary) = Some (after sending)
  /\ forward_at (after sending)
     = FSending (forward_queue (drone (after one_summary)))
  /\ forallb other_thread [SensorLine garbage_line] = true
  /\ exec sample_loads [SensorLine garbage_line] (after sending)
     = Some (after (sending ++ [SensorLine garbage_line]))
  /\ step sample_loads (ForwardEnd SendOk)
       (after (sending ++ [SensorLine garbage_line]))
     = Some (after (sending ++ [SensorLine garbage_line; ForwardEnd SendOk]))
  /\ forward_queue
       (drone (after (sending ++ [SensorLine garbage_line; ForwardEnd SendOk])))
     = []
  /\ written (after (sending ++ [SensorLine garbage_line; ForwardEnd SendOk]))
     = written (after one_summary)
       ++ [forward_queue (drone (after one_summary))]
  /\ exists new,
       concat (written (after sending)) ++ forward_queue (drone (after sending))
       = (concat (written (after one_summary))
          ++ forward_queue (drone (after one_summary))) ++ new.
Proof.
  assert (Hr : reachable sample_loads (after one_summary))
    by (exists 20%Q, 10, one_summary; vm_compute; reflexivity).
  assert (Hb : step sample_loads ForwardBegin (after one_summary)
               = Some (after sending)) by (vm_compute; reflexivity).
  assert (Hf : forward_at (after sending)
               = FSending (forward_queue (drone (after one_summary))))
    by (vm_compute; reflexivity).
  assert (Hm : forallb other_thread [SensorLine garbage_line] = true)
    by (vm_compute; reflexivity).
  assert (Hx : exec sample_loads [SensorLine garbage_line] (after sending)
               = Some (after (sending ++ [SensorLine garbage_line])))
    by (vm_compute; reflexivity).
  assert (He : step sample_loads (ForwardEnd SendOk)
                 (after (sending ++ [SensorLine garbage_line]))
               = Some (after (sending
                              ++ [SensorLine garbage_line; ForwardEnd SendOk])))
    by (vm_compute; reflexivity).
  destruct (proj1 forward_keeps_unsent Q QNumber sample_loads _ _ _ _ _ _ _
              Hr Hb Hf Hm Hx He) as (_ & _ & Hq & Hw).
  pose proof (proj1 (proj2 forward_keeps_unsent) Q QNumber sample_loads
                ForwardBegin _ _ Hr Hb) as Hacc.
  repeat (split; [assumption|]). exact Hacc.
Defined.

(** C8, as the code has it: while the forward thread is inside
    [_send_to_central] it holds the lock, and the batch it sends is the
    queue as it stands under that lock; every block that needs the lock
    (ingesting a decoded reading, processing one, a battery tick, the GUI
    commands) waits meanwhile.  The lock is never held otherwise between
    two steps: the [recv], [get] and [sleep] calls of the other loops are
    outside their locked blocks. *)
Theorem forward_sends_under_lock (num : Type) (N : PyNumber num)
  (loads : list byte -> loads_result num) (sys : @system num) :
  reachable loads sys ->
  (forall batch,
     forward_at sys = FSending batch ->
     lock sys = true
     /\ forward_queue (drone sys) = batch
     /\ step loads BatteryTick sys = None
     /\ step loads GuiReset sys = None
     /\ (forall val, step loads (GuiThreshold val) sys = None)
     /\ (forall now, step loads (ProcessBody now) sys = None)
     /\ (forall line v,
           loads line = Loaded v -> step loads (SensorLine line) sys = None))
  /\ (lock sys = true -> exists batch, forward_at sys = FSending batch).
Proof.
  intros Hr. pose proof (reachable_lock_inv Hr) as Hinv.
  unfold lock_inv in Hinv. split.
  - intros batch Hf. rewrite Hf in Hinv. destruct Hinv as (Hl & Hq & _).
    cbn [step]. rewrite Hl. repeat split; auto.
    + intros now. destruct (process_at sys); reflexivity.
    + intros line v Hv. rewrite Hv. reflexivity.
  - intros Hl. destruct (forward_at sys) as [|batch]; [congruence|].
    now exists batch.
Qed.

Lemma forward_sends_under_lock_witness :
  reachable sample_loads (after sending)
  /\ forward_at (after sending)
     = FSending (forward_queue (drone (after sending)))
  /\ lock (after sending) = true
  /\ step sample_loads BatteryTick (after sending) = None
  /\ step sample_loads (SensorLine hot_line) (after sending) = None.
Proof.
  assert (Hr : reachable sample_loads (after sending))
    by (exists 20%Q, 10, sending; vm_compute; reflexivity).
  destruct (forward_sends_under_lock Hr) as [Hs _].
  destruct (Hs (forward_queue (drone (after sending))) eq_refl)
    as (Hl & _ & Hb & _ & _ & _ & Hline).
  split; [exact Hr|]. split; [vm_compute; reflexivity|]. split; [exact Hl|].
  split; [exact Hb|]. exact (Hline hot_line (to_py hot) eq_refl).
Defined.

(** C8 as stated fails: after the schedule [sending] the forward thread is
    inside [_send_to_central], connecting and sending, and the lock is
    held. *)
Lemma send_inside_locked_block :
  exists sys batch,
    exec sample_loads sending (boot 20 10) = Some sys
    /\ forward_at sys = FSending batch
    /\ batch <> []
    /\ lock sys = true.
Proof.
  eexists; eexists. split; [reflexivity|]. split; [reflexivity|].
  split; [discriminate | reflexivity].
Qed.

(** C1, as the code has it: while the drone is returning the forward loop
    attempts no transmission and changes nothing; readings are still
    ingested into the window and processed, their anomalies recorded, but
    the summary of a reading processed while returning is not appended: the
    forward queue stays as it is. *)
Theorem returning_suppresses_forwarding (num : Type) (N : PyNumber num)
  (s : DroneEdge num) :
  returning s = true ->
  forward_snapshot s = None
  /\ (forall o, forward_tick o s = s)
  /\ (forall loads line v,
        loads line = Loaded v ->
        handle_line loads line s = Ret tt (log (Received v) (ingest v s)))
  /\ (forall now (r : Reading num) (rs : list (Reading num)),
        readings s = map to_py rs ->
        exists s',
          process_reading now (to_py r) s = Ok s'
          /\ forward_queue s' = forward_queue s
          /\ returning s' = true
          /\ readings s' = readings s
          /\ anomalies s'
             = anomalies s ++ (if out_of_bounds r then [to_anomaly r] else []))
  /\ (forall loads (sys : @system num),
        reachable loads sys ->
        drone sys = s ->
        forward_at sys = FSleeping
        /\ step loads ForwardBegin sys = Some sys
        /\ forall o, step loads (ForwardEnd o) sys = None).
Proof.
  intros Hret.
  assert (Hsnap : forward_snapshot s = None)
    by (unfold forward_snapshot; rewrite Hret; reflexivity).
  split; [exact Hsnap|].
  split; [intros o; unfold forward_tick; now rewrite Hsnap|].
  split; [intros loads line v Hv; unfold handle_line; now rewrite Hv|].
  split.
  - intros now r rs Hw. rewrite (process_reading_shape now r rs s Hw).
    rewrite Hret. eexists; split; [reflexivity|].
    destruct (out_of_bounds r); cbn; rewrite ?app_nil_r; auto.
  - intros loads sys Hr Hd. pose proof (reachable_lock_inv Hr) as Hinv.
    unfold lock_inv in Hinv.
    destruct (forward_at sys) as [|batch] eqn:Hf.
    + split; [reflexivity|]. cbn [step]. rewrite Hf, Hinv, Hd, Hsnap.
      split; reflexivity.
    + destruct Hinv as (_ & _ & Hact & _). congruence.
Qed.

Lemma returning_suppresses_forwarding_witness :
  returning low_battery = true
  /\ (forall o, forward_tick o low_battery = low_battery)
  /\ sample_loads mild_line = Loaded (to_py mild)
  /\ handle_line sample_loads mild_line low_battery
     = Ret tt (log (Received (to_py mild)) (ingest (to_py mild) low_battery))
  /\ readings low_battery = map to_py [mild; hot]
  /\ (exists s',
        process_reading "2025-05-01T10:00:04+00:00" (to_py hot) low_battery
        = Ok s'
        /\ forward_queue s' = forward_queue low_battery
        /\ anomalies s' = anomalies low_battery ++ [to_anomaly hot])
  /\ reachable sample_loads (after returning_schedule)
  /\ step sample_loads ForwardBegin (after returning_schedule)
     = Some (after returning_schedule).
Proof.
  assert (Hret : returning low_battery = true) by (vm_compute; reflexivity).
  destruct (returning_suppresses_forwarding QNumber low_battery Hret)
    as (_ & Htick & Hline & Hproc & Hsys).
  assert (Hl : sample_loads mild_line = Loaded (to_py mild))
    by (vm_compute; reflexivity).
  assert (Hw : readings low_battery = map to_py [mild; hot])
    by (vm_compute; reflexivity).
  assert (Hr : reachable sample_loads (after returning_schedule))
    by (exists 20%Q, 10, returning_schedule; vm_compute; reflexivity).
  destruct (Hproc "2025-05-01T10:00:04+00:00"%string hot [mild; hot] Hw)
    as (s' & Hp & Hq & _ & _ & Ha).
  destruct (Hsys sample_loads (after returning_schedule) Hr eq_refl)
    as (_ & Hbegin & _).
  split; [exact Hret|]. split; [exact Htick|]. split; [exact Hl|].
  split; [exact (Hline sample_loads mild_line (to_py mild) Hl)|].
  split; [exact Hw|].
  split; [exists s'; split; [exact Hp|]; split; [exact Hq | exact Ha]|].
  split; [exact Hr | exact Hbegin].
Defined.

(** C1 as stated fails: after [returning_schedule] the drone is returning
    and the process loop holds [hot]; it processes it, and no summary is
    appended for it: the forward queue keeps its one entry. *)
Lemma returning_summary_not_queued :
  exists sys sys',
    exec sample_loads returning_schedule (boot 20 10) = Some sys
    /\ returning (drone sys) = true
    /\ process_at sys = PHolding (to_py hot)
    /\ step sample_loads (ProcessBody "2025-05-01T10:00:04+00:00") sys
       = Some sys'
    /\ process_at sys' = PWaiting
    /\ anomalies (drone sys') = [to_anomaly hot]
    /\ forward_queue (drone sys') = forward_queue (drone sys)
    /\ length (forward_queue (drone sys')) = 1.
Proof.
  eexists; eexists. split; [vm_compute; reflexivity|].
  split; [reflexivity|]. split; [reflexivity|].
  split; [vm_compute; reflexivity|].
  repeat split; reflexivity.
Qed.

(** ** The battery *)

Section Battery.

Context {num : Type} `{PyNumber num}.

Lemma py_max_floor (x : Q) :
  (0 <= py_max 0 x)%Q
  /\ (py_max 0 x == (if Qle_bool 0 x then x else 0))%Q.
Proof.
  unfold py_max. destruct (Qle_bool x 0) eqn:E1, (Qle_bool 0 x) eqn:E2;
    rewrite ?Qle_bool_iff in *; split; try apply Qle_refl; try reflexivity;
    try assumption.
  - apply Qle_antisym; assumption.
  - destruct (Qlt_le_dec x 0) as [Hlt|Hle].
    + apply Qlt_le_weak in Hlt. apply Qle_bool_iff in Hlt. congruence.
    + exact Hle.
  - destruct (Qlt_le_dec x 0) as [Hlt|Hle].
    + apply Qlt_le_weak in Hlt. apply Qle_bool_iff in Hlt. congruence.
    + apply Qle_bool_iff in Hle. congruence.
Qed.

(** What one tick does to each field. *)
Lemma battery_tick_fields (s : DroneEdge num) :
  let level := py_max 0 (battery s - (1 # 2))%Q in
  let low := Qle_bool level (battery_threshold s) in
  battery (battery_tick s) = level
  /\ battery_threshold (battery_tick s) = battery_threshold s
  /\ returning (battery_tick s) = returning s || low
  /\ logged (battery_tick s)
     = logged s ++ (if low && negb (returning s) then [BatteryLow] else []).
Proof.
  cbv zeta. unfold battery_tick.
  cbn [battery battery_threshold returning set_battery].
  destruct (Qle_bool (py_max 0 (battery s - (1 # 2))) (battery_threshold s));
    destruct (returning s) eqn:E; cbn; rewrite ?E, ?app_nil_r;
    repeat split; reflexivity.
Qed.

Lemma battery_tick_level (s : DroneEdge num) :
  (0 <= battery s)%Q ->
  (0 <= battery (battery_tick s))%Q
  /\ (battery (battery_tick s) <= battery s)%Q
  /\ (battery (battery_tick s)
      == (if Qle_bool (1 # 2) (battery s) then battery s - (1 # 2) else 0))%Q.
Proof.
  intros Hpos. destruct (battery_tick_fields s) as (-> & _).
  destruct (py_max_floor (battery s - (1 # 2))%Q) as [H0 Heq].
  split; [exact H0|].
  assert (Hb : Qle_bool 0 (battery s - (1 # 2)) = Qle_bool (1 # 2) (battery s)).
  { destruct (Qle_bool (1 # 2) (battery s)) eqn:E.
    - apply Qle_bool_iff in E. apply Qle_bool_iff.
      apply (Qplus_le_l _ _ (1 # 2)). ring_simplify. exact E.
    - destruct (Qle_bool 0 (battery s - (1 # 2))) eqn:E'; [|reflexivity].
      apply Qle_bool_iff in E'.
      apply (Qplus_le_l _ _ (1 # 2)) in E'. ring_simplify in E'.
      apply Qle_bool_iff in E'. congruence. }
  rewrite Hb in Heq. split; [|exact Heq].
  rewrite Heq. destruct (Qle_bool (1 # 2) (battery s)); [|exact Hpos].
  apply (Qplus_le_l _ _ (1 # 2)). ring_simplify.
  rewrite <- (Qplus_0_r (battery s)) at 1.
  apply Qplus_le_r. discriminate.
Qed.

Lemma ticks_level (n : nat) (s : DroneEdge num) :
  (0 <= battery s)%Q ->
  (0 <= battery (ticks n s))%Q
  /\ (battery (ticks n s) <= battery s)%Q
  /\ battery_threshold (ticks n s) = battery_threshold s.
Proof.
  intros Hpos. induction n as [|n (IH0 & IHle & IHt)].
  - split; [exact Hpos|]. split; [apply Qle_refl | reflexivity].
  - change (ticks (S n) s) with (battery_tick (ticks n s)).
    destruct (battery_tick_level (ticks n s) IH0) as (H0 & Hle & _).
    destruct (battery_tick_fields (ticks n s)) as (_ & Ht & _).
    split; [exact H0|]. split; [|congruence].
    eapply Qle_trans; eauto.
Qed.

Lemma ticks_mode (n : nat) (s : DroneEdge num) :
  (0 <= battery s)%Q ->
  returning s = false ->
  returning (ticks (S n) s)
  = Qle_bool (battery (ticks (S n) s)) (battery_threshold s)
  /\ logged (ticks (S n) s)
     = logged s ++ (if returning (ticks (S n) s) then [BatteryLow] else []).
Proof.
  intros Hpos Hact. induction n as [|n [IHr IHl]].
  - change (ticks 1 s) with (battery_tick s).
    destruct (battery_tick_fields s) as (Hb & _ & Hr & Hl).
    rewrite Hr, Hl, Hb, Hact. cbn [orb negb]. rewrite andb_true_r.
    split; reflexivity.
  - change (ticks (S (S n)) s) with (battery_tick (ticks (S n) s)).
    destruct (ticks_level (S n) s Hpos) as (H0 & _ & Ht).
    destruct (battery_tick_fields (ticks (S n) s)) as (Hb & _ & Hr & Hl).
    destruct (battery_tick_level (ticks (S n) s) H0) as (_ & Hle & _).
    rewrite Hb in Hle. rewrite Hr, Hl, Hb, Ht, IHl. clear Hr Hl Hb.
    set (level := py_max 0 (battery (ticks (S n) s) - (1 # 2))%Q) in *.
    destruct (returning (ticks (S n) s)) eqn:Eprev.
    + symmetry in IHr. apply Qle_bool_iff in IHr.
      assert (Hlow : Qle_bool level (battery_threshold s) = true)
        by (apply Qle_bool_iff; eapply Qle_trans; eauto).
      rewrite Hlow. cbn. rewrite app_nil_r. split; reflexivity.
    + cbn [orb negb]. rewrite andb_true_r, app_nil_r. split; reflexivity.
Qed.

End Battery.

(** ** The battery under any schedule *)

Section BatterySchedule.

Context {num : Type} `{PyNumber num}.
Variable json_loads : list byte -> loads_result num.

(** Apart from a tick and a reset, no step touches the level or the mode. *)
Lemma step_keeps_battery (a : action) (sys sys' : @system num) :
  a <> BatteryTick -> a <> GuiReset ->
  step json_loads a sys = Some sys' ->
  battery (drone sys') = battery (drone sys)
  /\ returning (drone sys') = returning (drone sys).
Proof.
  intros Htick Hreset. destruct a; try congruence; cbn [step].
  - unfold handle_line.
    destruct (json_loads line) as [v| |e]; [destruct (lock sys)|..];
      try discriminate; intros [= <-]; split; reflexivity.
  - destruct (process_at sys); try discriminate.
    destruct (sensor_data (drone sys)); [discriminate|].
    intros [= <-]; split; reflexivity.
  - destruct (process_at sys); try discriminate.
    destruct (lock sys); [discriminate|].
    destruct (process_reading now reading (drone sys)) as [s1|e] eqn:Ep;
      intros [= <-]; cbn [drone with_process]; [|split; reflexivity].
    apply process_reading_readings in Ep. tauto.
  - destruct (lock sys); [discriminate|]. intros [= <-]. split; reflexivity.
  - destruct (forward_at sys); [|discriminate].
    destruct (lock sys); [discriminate|].
    destruct (forward_snapshot (drone sys)); intros [= <-]; split; reflexivity.
  - destruct (forward_at sys); [discriminate|]. intros [= <-].
    destruct o; split; reflexivity.
Qed.

Lemma reachable_battery (sys : @system num) :
  reachable json_loads sys -> (0 <= battery (drone sys))%Q.
Proof.
  intros (threshold & window & schedule & Hex).
  eapply (exec_invariant json_loads
            (fun sys => (0 <= battery (drone sys))%Q)); [| |exact Hex].
  - intros a sys1 sys2 Hpos Hstep.
    destruct a;
      match type of Hstep with
      | step _ ?a _ = _ =>
          try (destruct (@step_keeps_battery a sys1 sys2
                           ltac:(discriminate) ltac:(discriminate) Hstep)
                 as [Hk _];
               rewrite Hk; exact Hpos)
      end.
    + revert Hstep. cbn [step]. destruct (lock sys1); [discriminate|].
      intros [= <-]. cbn [drone with_drone].
      apply (battery_tick_level (drone sys1) Hpos).
    + revert Hstep. cbn [step]. destruct (lock sys1); [discriminate|].
      intros [= <-]. cbn. unfold Qle. cbn. lia.
  - cbn. unfold Qle. cbn. lia.
Qed.

End BatterySchedule.

(** C6: a tick takes the fixed step 0.5 off the level, stopping at 0, so
    the level never rises without a reset; a tick turns an active drone to
    returning exactly when the new level is at or below the threshold, and
    logs it then; a returning drone stays returning and nothing is logged
    again; over any number of ticks from an active drone the mode is
    returning exactly when the level has reached the threshold, with one
    log record for the one transition; a reset sets the level to 100 and
    the mode to active. *)
Theorem battery_decay (num : Type) (N : PyNumber num) (s : DroneEdge num) :
  (0 <= battery s)%Q ->
  ((battery (battery_tick s)
    == (if Qle_bool (1 # 2) (battery s) then battery s - (1 # 2) else 0))%Q
   /\ (0 <= battery (battery_tick s))%Q
   /\ (battery (battery_tick s) <= battery s)%Q)
  /\ (returning s = true ->
      returning (battery_tick s) = true
      /\ logged (battery_tick s) = logged s)
  /\ (returning s = false ->
      (returning (battery_tick s) = true
       <-> (battery (battery_tick s) <= battery_threshold s)%Q)
      /\ logged (battery_tick s)
         = logged s ++ (if returning (battery_tick s) then [BatteryLow] else []))
  /\ (forall n,
        (0 <= battery (ticks n s))%Q
        /\ (battery (ticks n s) <= battery s)%Q
        /\ (returning s = true ->
            returning (ticks n s) = true /\ logged (ticks n s) = logged s)
        /\ (returning s = false ->
            (returning (ticks (S n) s) = true
             <-> (battery (ticks (S n) s) <= battery_threshold s)%Q)
            /\ logged (ticks (S n) s)
               = logged s
                 ++ (if returning (ticks (S n) s) then [BatteryLow] else [])))
  /\ (battery (reset_battery s) = 100%Q
      /\ returning (reset_battery s) = false)
  /\ (forall (loads : list byte -> loads_result num) (a : action)
        (sys sys' : @system num),
        reachable loads sys ->
        a <> GuiReset ->
        step loads a sys = Some sys' ->
        (0 <= battery (drone sys'))%Q
        /\ (battery (drone sys') <= battery (drone sys))%Q
        /\ (returning (drone sys) = true -> returning (drone sys') = true)).
Proof.
  intros Hpos.
  destruct (battery_tick_level s Hpos) as (H0 & Hle & Heq).
  destruct (battery_tick_fields s) as (Hb & _ & Hr & Hl).
  split; [auto|]. split; [|split; [|split; [|split]]].
  - intros Hret. rewrite Hr, Hl, Hret. cbn. rewrite andb_false_r, app_nil_r.
    split; reflexivity.
  - intros Hact. destruct (ticks_mode 0 s Hpos Hact) as [Hm Hlog].
    change (ticks 1 s) with (battery_tick s) in Hm, Hlog.
    split; [|exact Hlog].
    rewrite Hm. apply Qle_bool_iff.
  - intros n. destruct (ticks_level n s Hpos) as (Hn0 & Hnle & _).
    split; [exact Hn0|]. split; [exact Hnle|]. split.
    + intros Hret. induction n as [|n IH]; [split; [exact Hret | reflexivity]|].
      destruct (ticks_level n s Hpos) as (Hn0' & Hnle' & _).
      destruct (IH Hn0' Hnle') as [IHr IHl].
      change (ticks (S n) s) with (battery_tick (ticks n s)).
      destruct (battery_tick_fields (ticks n s)) as (_ & _ & Hr' & Hl').
      rewrite Hr', Hl', IHr, IHl. cbn. rewrite andb_false_r, app_nil_r.
      split; reflexivity.
    + intros Hact. destruct (ticks_mode n s Hpos Hact) as [Hm Hlog].
      split; [|exact Hlog]. rewrite Hm. apply Qle_bool_iff.
  - split; reflexivity.
  - intros loads a sys sys' Hreach Hreset Hstep.
    pose proof (reachable_battery Hreach) as Hsys.
    split; [exact (reachable_battery (reachable_step a Hreach Hstep))|].
    assert (Hdec : {a = BatteryTick} + {a <> BatteryTick})
      by (destruct a; (left; reflexivity) || (right; discriminate)).
    destruct Hdec as [->|Htick].
    + revert Hstep. cbn [step]. destruct (lock sys); [discriminate|].
      intros [= <-]. cbn [drone with_drone].
      destruct (battery_tick_level (drone sys) Hsys) as (_ & Hle' & _).
      destruct (battery_tick_fields (drone sys)) as (_ & _ & Hr' & _).
      split; [exact Hle'|]. intros Hret. rewrite Hr', Hret. reflexivity.
    + destruct (@step_keeps_battery num N loads a sys sys' Htick Hreset Hstep)
        as [-> ->].
      split; [apply Qle_refl | auto].
Qed.

Lemma battery_decay_witness :
  (0 <= battery (init (num:=Q) 20 10))%Q
  /\ (battery (battery_tick (init (num:=Q) 20 10)) == 99.5)%Q
  /\ returning (ticks 159 (init (num:=Q) 20 10)) = false
  /\ returning (ticks 160 (init (num:=Q) 20 10)) = true
  /\ logged (ticks 200 (init (num:=Q) 20 10)) = [BatteryLow]
  /\ (battery (ticks 200 (init (num:=Q) 20 10)) == 0)%Q
  /\ reachable sample_loads (after one_summary)
  /\ step sample_loads BatteryTick (after one_summary)
     = Some (after (one_summary ++ [BatteryTick]))
  /\ (battery (drone (after (one_summary ++ [BatteryTick])))
      <= battery (drone (after one_summary)))%Q.
Proof.
  assert (Hpos : (0 <= battery (init (num:=Q) 20 10))%Q) by discriminate.
  destruct (battery_decay QNumber (init 20 10) Hpos)
    as ((Hstep & _) & _ & _ & Hrun & _ & Hsys).
  assert (Hr : reachable sample_loads (after one_summary))
    by (exists 20%Q, 10, one_summary; vm_compute; reflexivity).
  assert (Ht : step sample_loads BatteryTick (after one_summary)
               = Some (after (one_summary ++ [BatteryTick])))
    by (vm_compute; reflexivity).
  destruct (Hsys sample_loads BatteryTick _ _ Hr ltac:(discriminate) Ht)
    as (_ & Hle & _).
  split; [exact Hpos|]. split; [rewrite Hstep; reflexivity|].
  destruct (Hrun 199%nat) as (_ & _ & _ & Hmode).
  destruct (Hmode eq_refl) as [_ Hlog].
  split; [vm_compute; reflexivity|]. split; [vm_compute; reflexivity|].
  split; [rewrite Hlog; vm_compute; reflexivity|].
  split; [vm_compute; reflexivity|].
  split; [exact Hr|]. split; [exact Ht | exact Hle].
Defined.

(** ** The framed line reader *)

Section Reader.

Context {num : Type} `{PyNumber num}.
Variable json_loads : list byte -> loads_result num.

Lemma drain_step (buf : list byte) (s : DroneEdge num) :
  drain json_loads buf s
  = match split_newline buf with
    | None => Ret buf s
    | Some (line, rest) =>
        match handle_line json_loads line s with
        | Ret _ s' => drain json_loads rest s'
        | Exc e s' => Exc e s'
        end
    end.
Proof.
  funelim (drain json_loads buf s).
  - rewrite e. reflexivity.
  - rewrite Hsplit, Heq. reflexivity.
  - rewrite Hsplit, Heq. reflexivity.
Qed.

(** The first line [split] cuts off is the first complete line. *)
Lemma split_newline_lines (buf : list byte) :
  match split_newline buf with
  | Some (line, rest) =>
      complete_lines buf = line :: complete_lines rest
      /\ unterminated buf = unterminated rest
  | None => complete_lines buf = [] /\ unterminated buf = buf
  end.
Proof.
  unfold complete_lines, unterminated.
  induction buf as [|b buf IH]; cbn [split_newline stream_lines].
  - split; reflexivity.
  - destruct (stream_lines buf) as [lines tail] eqn:El. cbn [fst snd] in IH.
    destruct (Byte.eqb b x0a).
    + cbn [fst snd]. rewrite El. split; reflexivity.
    + destruct (split_newline buf) as [[line rest]|].
      * destruct IH as [-> ->]. split; reflexivity.
      * destruct IH as [-> ->]. split; reflexivity.
Qed.

Lemma drain_lines (buf : list byte) :
  forall s,
    drain json_loads buf s
    = match handle_lines json_loads (complete_lines buf) s with
      | Ret _ s' => Ret (unterminated buf) s'
      | Exc e s' => Exc e s'
      end.
Proof.
  induction buf as [buf IH] using (induction_ltof1 _ (@length byte)).
  unfold ltof in IH. intros s. rewrite drain_step.
  pose proof (split_newline_lines buf) as Hl.
  destruct (split_newline buf) as [[line rest]|] eqn:Es.
  - destruct Hl as [-> ->]. cbn [handle_lines].
    destruct (handle_line json_loads line s) as [[] s'|e s']; [|reflexivity].
    apply IH. eapply split_newline_shorter; eauto.
  - destruct Hl as [-> ->]. reflexivity.
Qed.

Lemma stream_lines_app (a b : list byte) :
  complete_lines (a ++ b)
  = complete_lines a ++ complete_lines (unterminated a ++ b)
  /\ unterminated (a ++ b) = unterminated (unterminated a ++ b).
Proof.
  unfold complete_lines, unterminated.
  induction a as [|x a IH]; cbn [app stream_lines]; [split; reflexivity|].
  destruct (stream_lines (a ++ b)) as [lab tab].
  destruct (stream_lines a) as [la ta].
  cbn [fst snd] in IH. destruct IH as [-> ->].
  destruct (Byte.eqb x x0a) eqn:Ex.
  - cbn [fst snd app]. split; reflexivity.
  - destruct la as [|l la]; cbn [fst snd app stream_lines].
    + rewrite Ex.
      destruct (stream_lines (ta ++ b)) as [l2 t2]. cbn [fst snd].
      destruct l2; split; reflexivity.
    + split; reflexivity.
Qed.

Lemma unterminated_no_line (a : list byte) :
  complete_lines (unterminated a) = []
  /\ unterminated (unterminated a) = unterminated a.
Proof.
  unfold complete_lines, unterminated.
  induction a as [|x a IH]; cbn [stream_lines]; [split; reflexivity|].
  destruct (stream_lines a) as [la ta]. cbn [fst snd] in IH.
  destruct (Byte.eqb x x0a) eqn:Ex; [exact IH|].
  destruct la as [|l la]; [|exact IH].
  cbn [fst snd stream_lines]. rewrite Ex.
  destruct (stream_lines ta) as [l2 t2]. cbn [fst snd] in IH.
  destruct IH as [-> ->]. split; reflexivity.
Qed.

Lemma handle_lines_app (l1 l2 : list (list byte)) (s : DroneEdge num) :
  handle_lines json_loads (l1 ++ l2) s
  = match handle_lines json_loads l1 s with
    | Ret _ s' => handle_lines json_loads l2 s'
    | Exc e s' => Exc e s'
    end.
Proof.
  revert s; induction l1 as [|l l1 IH]; intros s; cbn [app handle_lines].
  - reflexivity.
  - destruct (handle_line json_loads l s) as [[] s'|e s']; [apply IH|reflexivity].
Qed.

Lemma recv_loop_lines (chunks : list (list byte)) :
  forall (buf : list byte) (s : DroneEdge num),
    Forall (fun data => data <> []) chunks ->
    complete_lines buf = [] ->
    unterminated buf = buf ->
    recv_loop json_loads chunks buf s
    = handle_lines json_loads (complete_lines (buf ++ concat chunks)) s.
Proof.
  induction chunks as [|data more IH]; intros buf s Hne Hnl Hbuf.
  - cbn [recv_loop concat]. rewrite app_nil_r, Hnl. reflexivity.
  - inversion Hne as [|? ? Hdata Hmore]; subst.
    cbn [recv_loop concat].
    destruct data as [|d data]; [congruence|].
    rewrite drain_lines.
    rewrite app_assoc.
    destruct (stream_lines_app (buf ++ d :: data) (concat more)) as [-> _].
    rewrite handle_lines_app.
    destruct (handle_lines json_loads (complete_lines (buf ++ d :: data)) s)
      as [[] s'|e s']; [|reflexivity].
    destruct (unterminated_no_line (buf ++ d :: data)) as [Hc Hu].
    apply IH; assumption.
Qed.

Lemma handle_lines_decoded (lines : list (list byte)) :
  forall s : DroneEdge num,
    (forall l e, In l lines -> json_loads l <> LoadsRaises e) ->
    exists s',
      handle_lines json_loads lines s = Ret tt s'
      /\ sensor_data s' = sensor_data s ++ decoded json_loads lines.
Proof.
  induction lines as [|l lines IH]; intros s Hok; cbn [handle_lines decoded flat_map].
  - exists s. now rewrite app_nil_r.
  - unfold handle_line.
    destruct (json_loads l) as [v| |e] eqn:El.
    + destruct (IH (log (Received v) (ingest v s))) as (s' & -> & Hq).
      { intros l' e Hin. apply Hok. now right. }
      exists s'. split; [reflexivity|]. rewrite Hq. cbn.
      now rewrite <- app_assoc.
    + destruct (IH (log InvalidJSON s)) as (s' & -> & Hq).
      { intros l' e Hin. apply Hok. now right. }
      exists s'. split; [reflexivity|]. exact Hq.
    + exfalso. apply (Hok l e); [now left | exact El].
Qed.

End Reader.

(** C9: whatever the (non-empty) chunks [recv] returns, the handler does
    exactly what reading the concatenated stream line by line does: each
    newline-terminated line goes through the decoder once, in order, and an
    unterminated rest is never decoded.  When no line makes the decoder
    raise anything but a JSON error, the handler ends normally and the
    objects it queued are the decoded complete lines of the stream. *)
Theorem reader_chunking_independent (num : Type)
  (loads : list byte -> loads_result num) (chunks : list (list byte))
  (s : DroneEdge num) :
  Forall (fun data => data <> []) chunks ->
  handle_sensor loads chunks s = spec_reader loads (concat chunks) s
  /\ handle_sensor loads chunks s = handle_sensor loads [concat chunks] s
  /\ ((forall l e, In l (complete_lines (concat chunks)) ->
                   loads l <> LoadsRaises e) ->
      exists s',
        handle_sensor loads chunks s = Ret tt s'
        /\ sensor_data s'
           = sensor_data s ++ decoded loads (complete_lines (concat chunks))).
Proof.
  intros Hne.
  assert (Hspec : handle_sensor loads chunks s
                  = spec_reader loads (concat chunks) s).
  { unfold handle_sensor, spec_reader.
    rewrite (@recv_loop_lines num loads chunks [] s Hne eq_refl eq_refl).
    reflexivity. }
  split; [exact Hspec|]. split.
  - rewrite Hspec. unfold handle_sensor, spec_reader.
    cbn [recv_loop]. destruct (concat chunks) as [|b stream] eqn:Ec.
    + reflexivity.
    + rewrite drain_lines. cbn [app].
      destruct (handle_lines loads (complete_lines (b :: stream)) s)
        as [[] s'|e s']; reflexivity.
  - intros Hok. rewrite Hspec. unfold spec_reader.
    destruct (@handle_lines_decoded num loads
                (complete_lines (concat chunks)) s Hok) as (s' & -> & Hq).
    eexists. split; [reflexivity|]. exact Hq.
Qed.

Lemma reader_chunking_independent_witness :
  Forall (fun data => data <> []) sample_chunks
  /\ concat sample_chunks = sample_stream
  /\ handle_sensor sample_loads sample_chunks (init 20 10)
     = spec_reader sample_loads sample_stream (init 20 10)
  /\ exists s',
       handle_sensor sample_loads sample_chunks (init 20 10) = Ret tt s'
       /\ sensor_data s' = [to_py mild; to_py hot].
Proof.
  assert (Hne : Forall (fun data => data <> []) sample_chunks)
    by (repeat constructor; vm_compute; discriminate).
  assert (Hcat : concat sample_chunks = sample_stream)
    by (vm_compute; reflexivity).
  destruct (@reader_chunking_independent Q sample_loads sample_chunks
              (init 20 10) Hne) as (Hspec & _ & Hdec).
  split; [exact Hne|]. split; [exact Hcat|].
  split; [rewrite <- Hcat; exact Hspec|].
  destruct Hdec as (s' & Hs' & Hq).
  - intros l e Hin. vm_compute in Hin.
    destruct Hin as [<-|[<-|[<-|[]]]]; vm_compute; discriminate.
  - exists s'. split; [exact Hs'|]. rewrite Hq. vm_compute. reflexivity.
Defined.

Section InvalidJSON.

Context {num : Type} `{PyNumber num}.
Variable json_loads : list byte -> loads_result num.

Lemma split_newline_app (line rest : list byte) :
  ~ In x0a line -> split_newline (line ++ x0a :: rest) = Some (line, rest).
Proof.
  induction line as [|b line IH]; intros Hnl; cbn [app split_newline].
  - reflexivity.
  - destruct (Byte.eqb b x0a) eqn:E.
    + apply byte_dec_bl in E. exfalso. apply Hnl. now left.
    + rewrite IH; [reflexivity|]. intros Hin. apply Hnl. now right.
Qed.

End InvalidJSON.

(** C7, as the code has it: a line on which decoding raises
    [json.JSONDecodeError] is dropped with the warning "Invalid JSON from
    sensor"; the queue, the window, the anomalies, the forward queue and
    the battery are what they were; the handler goes on with the rest of
    its buffer; and the step needs no lock and moves no other thread. *)
Theorem invalid_json_discarded (num : Type) (N : PyNumber num)
  (loads : list byte -> loads_result num) (line : list byte)
  (s : DroneEdge num) :
  loads line = JSONDecodeError ->
  handle_line loads line s = Ret tt (log InvalidJSON s)
  /\ level (@InvalidJSON num) = WARNING
  /\ (sensor_data (log InvalidJSON s) = sensor_data s
      /\ readings (log InvalidJSON s) = readings s
      /\ anomalies (log InvalidJSON s) = anomalies s
      /\ forward_queue (log InvalidJSON s) = forward_queue s
      /\ battery (log InvalidJSON s) = battery s
      /\ returning (log InvalidJSON s) = returning s)
  /\ (forall rest,
        ~ In x0a line ->
        drain loads (line ++ x0a :: rest) s
        = drain loads rest (log InvalidJSON s))
  /\ (forall sys : @system num,
        drone sys = s ->
        step loads (SensorLine line) sys
        = Some (with_drone (log InvalidJSON s) sys)).
Proof.
  intros Hbad.
  assert (Hline : handle_line loads line s = Ret tt (log InvalidJSON s))
    by (unfold handle_line; now rewrite Hbad).
  split; [exact Hline|]. split; [reflexivity|].
  split; [repeat split|]. split.
  - intros rest Hnl. rewrite (drain_step loads (line ++ x0a :: rest) s).
    rewrite (split_newline_app line rest Hnl), Hline. reflexivity.
  - intros sys <-. cbn [step]. rewrite Hbad, Hline. reflexivity.
Qed.

Lemma invalid_json_discarded_witness :
  sample_loads garbage_line = JSONDecodeError
  /\ handle_line sample_loads garbage_line (drone (after sending))
     = Ret tt (log InvalidJSON (drone (after sending)))
  /\ ~ In x0a garbage_line
  /\ drain sample_loads (garbage_line ++ x0a :: hot_line)
       (drone (after sending))
     = drain sample_loads hot_line (log InvalidJSON (drone (after sending)))
  /\ lock (after sending) = true
  /\ step sample_loads (SensorLine garbage_line) (after sending)
     = Some (with_drone (log InvalidJSON (drone (after sending)))
               (after sending)).
Proof.
  assert (Hbad : sample_loads garbage_line = JSONDecodeError) by reflexivity.
  assert (Hnl : ~ In x0a garbage_line).
  { vm_compute. intros [E|[E|[E|[E|[]]]]]; discriminate E. }
  destruct (@invalid_json_discarded Q QNumber sample_loads garbage_line
              (drone (after sending)) Hbad) as (Hline & _ & _ & Hdrain & Hsys).
  split; [exact Hbad|]. split; [exact Hline|]. split; [exact Hnl|].
  split; [exact (Hdrain hot_line Hnl)|].
  split; [vm_compute; reflexivity|]. exact (Hsys (after sending) eq_refl).
Defined.

(** C7 as stated fails on a line that is JSON but not a reading: [{}] is
    queued and appended to the window with no warning, and the process loop
    then ends on [KeyError]. *)
Lemma malformed_record_kept :
  sample_loads empty_object_line = Loaded (PDict [])
  /\ (exists s',
        handle_line sample_loads empty_object_line (init 20 10) = Ret tt s'
        /\ sensor_data s' = [PDict []]
        /\ readings s' = [PDict []]
        /\ logged s' = [Received (PDict [])]
        /\ process_iteration "2025-05-01T10:00:01+00:00" s' = Raise KeyError)
  /\ (exists sys,
        exec sample_loads
          [SensorLine empty_object_line; ProcessGet;
           ProcessBody "2025-05-01T10:00:01+00:00"] (boot 20 10) = Some sys
        /\ process_at sys = PDead KeyError).
Proof.
  split; [reflexivity|]. split.
  - eexists. split; [reflexivity|]. repeat split; reflexivity.
  - eexists. split; [vm_compute; reflexivity | reflexivity].
Qed.

(** * Further properties *)

(** ** Malformed shapes in the process loop *)

Section Shapes.

Context {num : Type} `{PyNumber num}.

Lemma numeric_as_number (v : pyval num) :
  numeric v = true <-> exists n, as_number v = Ok n.
Proof.
  destruct v; cbn; split; try discriminate; try (intros [n Hn]; discriminate);
    intros _; eauto.
Qed.

Lemma mapM_Forall2 {A B} (f : A -> result B) (l : list A) (ys : list B) :
  mapM f l = Ok ys <-> Forall2 (fun x y => f x = Ok y) l ys.
Proof.
  revert ys; induction l as [|a l IH]; intros ys; cbn [mapM].
  - split; [intros [= <-]; constructor | intros Hf; inversion Hf; reflexivity].
  - split.
    + destruct (f a) as [b|e] eqn:Ea; cbn [bind]; [|discriminate].
      destruct (mapM f l) as [bs|e] eqn:El; cbn [bind]; [|discriminate].
      intros [= <-]. constructor; [exact Ea|]. now apply IH.
    + intros Hf. inversion Hf as [|? y ? ys' Hy Hrest]; subst.
      rewrite Hy. cbn [bind]. apply IH in Hrest. rewrite Hrest. reflexivity.
Qed.

Lemma sum_from_numeric (xs : list (pyval num)) :
  forall acc r, sum_from acc xs = Ok r -> forallb numeric xs = true.
Proof.
  induction xs as [|x xs IH]; intros acc r; cbn [sum_from forallb];
    [reflexivity|].
  destruct (as_number x) as [n|e] eqn:En; cbn [bind]; [|discriminate].
  assert (Hx : numeric x = true) by (apply numeric_as_number; eauto).
  rewrite Hx. cbn [andb].
  destruct (py_add acc n) as [a|e]; cbn [bind]; [|discriminate].
  apply IH.
Qed.

Lemma window_average_measurable (w : list (pyval num)) (avg : num * num) :
  window_average w = Ok avg -> forallb measurable w = true.
Proof.
  unfold window_average. destruct w as [|v w']; [reflexivity|].
  set (w := v :: w'). intros Havg.
  destruct (mapM (fun r => getitem r "temperature") w) as [temps|e] eqn:Et;
    cbn [bind] in Havg; [|discriminate].
  destruct (mapM (fun r => getitem r "humidity") w) as [hums|e] eqn:Eh;
    cbn [bind] in Havg; [|discriminate].
  destruct (py_sum temps) as [st|e] eqn:Est; cbn [bind] in Havg;
    [|discriminate].
  destruct (div_by_len st (length temps)) as [mt|e]; cbn [bind] in Havg;
    [|discriminate].
  destruct (py_sum hums) as [sh|e] eqn:Esh; cbn [bind] in Havg;
    [|discriminate].
  assert (Hnt : forallb numeric temps = true)
    by (exact (sum_from_numeric temps (NInt 0) Est)).
  assert (Hnh : forallb numeric hums = true)
    by (exact (sum_from_numeric hums (NInt 0) Esh)).
  apply mapM_Forall2 in Et, Eh. clear Havg Est Esh. clearbody w.
  revert hums Eh Hnt Hnh.
  induction Et as [|x t l ts Hx Hrest IH]; intros hums Eh Hnt Hnh;
    [reflexivity|].
  inversion Eh as [|? h ? hs Hh Hrest']; subst.
  cbn [forallb] in *. apply andb_prop in Hnt, Hnh.
  destruct Hnt as [Ht Hts], Hnh as [Hh' Hhs].
  unfold measurable at 1. rewrite Hx, Hh, Ht, Hh'. cbn [andb].
  eapply IH; eauto.
Qed.

Lemma float_valued_items (w : list (pyval num)) :
  forallb float_valued w = true ->
  exists ts hs,
    mapM (fun r => getitem r "temperature") w = Ok (map PNum ts)
    /\ mapM (fun r => getitem r "humidity") w = Ok (map PNum hs)
    /\ length ts = length w /\ length hs = length w.
Proof.
  induction w as [|x w IH]; cbn [forallb]; intros Hall.
  - exists [], []. repeat split; reflexivity.
  - apply andb_prop in Hall. destruct Hall as [Hx Hw].
    destruct (IH Hw) as (ts & hs & Hts & Hhs & Hlt & Hlh).
    unfold float_valued in Hx.
    destruct (getitem x "temperature") as [[| | |t| | |]|] eqn:Et;
      try discriminate Hx.
    destruct (getitem x "humidity") as [[| | |h| | |]|] eqn:Eh;
      try discriminate Hx.
    exists (t :: ts), (h :: hs). cbn [mapM map length].
    rewrite Et, Eh, Hts, Hhs, Hlt, Hlh. repeat split; reflexivity.
Qed.

Lemma window_average_float_valued (w : list (pyval num)) :
  forallb float_valued w = true -> exists avg, window_average w = Ok avg.
Proof.
  intros Hall. destruct (float_valued_items w Hall)
    as (ts & hs & Hts & Hhs & Hlt & Hlh).
  unfold window_average. destruct w as [|v w']; [eauto|].
  rewrite Hts, Hhs. cbn [bind].
  destruct ts as [|t ts]; [discriminate Hlt|].
  destruct hs as [|h hs]; [discriminate Hlh|].
  cbn [map]. rewrite !py_sum_numbers. cbn [bind div_by_len]. eauto.
Qed.

End Shapes.

Lemma is_anomaly_dict {num} `{PyNumber num} (v : pyval num) (b : bool) :
  is_anomaly v = Ok b -> exists d, v = PDict d.
Proof.
  destruct v; try discriminate. eauto.
Qed.

Lemma process_reading_after_average {num} `{PyNumber num} (now : string)
  (reading : pyval num) (s : DroneEdge num) (avg : num * num) (b : bool) :
  window_average (readings s) = Ok avg ->
  is_anomaly reading = Ok b ->
  exists s', process_reading now reading s = Ok s'.
Proof.
  intros Ha Hb. unfold process_reading. rewrite Ha, Hb. cbn [bind].
  destruct b; cbn [bind].
  - destruct (is_anomaly_dict reading Hb) as [d ->]. cbn [annotate bind].
    match goal with |- context [if ?c then _ else _] => destruct c end; eauto.
  - destruct (returning s); cbn; eauto.
Qed.

(** X1: the locked block of the process loop raises, for any reading
    however well formed, unless every entry of the window gives a number
    (an integer, a float or a boolean) under both keys and the anomaly
    check of the reading at hand raises nothing.  When every entry gives
    floats under both keys, as the readings of the sensors do, that is
    also enough for it to get through.  It is not in general: with the
    integer [2^1024] as a temperature in the window every entry gives
    numbers, and [sum(temps) / len(temps)] raises [OverflowError]. *)
Theorem process_reading_needs_numbers (num : Type) (N : PyNumber num)
  (now : string) (reading : pyval num) (s : DroneEdge num) :
  ((exists s', process_reading now reading s = Ok s') ->
   forallb measurable (readings s) = true
   /\ exists b, is_anomaly reading = Ok b)
  /\ (forallb float_valued (readings s) = true ->
      (exists b, is_anomaly reading = Ok b) ->
      exists s', process_reading now reading s = Ok s')
  /\ (forall h : num,
        readings s = [huge_entry h] ->
        forallb measurable (readings s) = true
        /\ process_reading now reading s = Raise OverflowError).
Proof.
  split; [|split].
  - intros [s' Hs']. unfold process_reading in Hs'.
    destruct (window_average (readings s)) as [avg|e] eqn:Ea; [|discriminate].
    destruct (is_anomaly reading) as [b|e]; [|discriminate].
    split; [exact (window_average_measurable (readings s) Ea) | eauto].
  - intros Hall [b Hb].
    destruct (window_average_float_valued (readings s) Hall) as [avg Ha].
    exact (process_reading_after_average now reading s Ha Hb).
  - intros h Hw. unfold process_reading. rewrite Hw. split; reflexivity.
Qed.

Lemma process_reading_needs_numbers_witness :
  (forallb measurable (readings two_readings) = true
   /\ exists b, is_anomaly (to_py hot) = Ok b)
  /\ (exists s',
        process_reading "2025-05-01T10:00:03+00:00" (to_py hot) two_readings
        = Ok s')
  /\ process_reading "2025-05-01T10:00:03+00:00" (to_py hot)
       (set_readings [huge_entry 40%Q] two_readings)
     = Raise OverflowError.
Proof.
  destruct (@process_reading_needs_numbers Q QNumber
              "2025-05-01T10:00:03+00:00"%string (to_py hot) two_readings)
    as (Hneed & Hfloat & _).
  destruct (@process_reading_needs_numbers Q QNumber
              "2025-05-01T10:00:03+00:00"%string (to_py hot)
              (set_readings [huge_entry 40%Q] two_readings))
    as (_ & _ & Hhuge).
  assert (Hok : exists s',
             process_reading "2025-05-01T10:00:03+00:00" (to_py hot)
               two_readings = Ok s').
  { apply Hfloat; [reflexivity | exists true; reflexivity]. }
  split; [exact (Hneed Hok)|]. split; [exact Hok|].
  exact (proj2 (Hhuge 40%Q eq_refl)).
Defined.

(** X2: the anomaly check stops at the first bound that is broken: a
    temperature out of range makes an anomaly of a dictionary that has no
    humidity at all, while a temperature in range with no humidity, or no
    temperature, is a [KeyError], and a value that is no dictionary, or a
    temperature that is text, is a [TypeError]. *)
Theorem is_anomaly_edges (num : Type) (N : PyNumber num) :
  (forall d t,
     dict_get d "temperature" = Some (PNum t) ->
     ltb t (of_int (-10)) || gtb t (of_int 60) = true ->
     is_anomaly (PDict d) = Ok true)
  /\ (forall d t,
        dict_get d "temperature" = Some (PNum t) ->
        ltb t (of_int (-10)) || gtb t (of_int 60) = false ->
        dict_get d "humidity" = None ->
        is_anomaly (PDict d) = Raise KeyError)
  /\ (forall d : list (string * pyval num),
        dict_get d "temperature" = None ->
        is_anomaly (PDict d) = Raise KeyError)
  /\ (forall d text,
        dict_get d "temperature" = Some (PStr text) ->
        is_anomaly (PDict d) = Raise (A:=bool) TypeError)
  /\ (forall v : pyval num,
        (forall d, v <> PDict d) -> is_anomaly v = Raise TypeError).
Proof.
  split; [|split; [|split; [|split]]].
  - intros d t Ht Hout. unfold is_anomaly, getitem. rewrite Ht.
    cbn [bind lt_int gt_int as_number].
    destruct (ltb t (of_int (-10))); [reflexivity|].
    cbn [orb] in Hout. rewrite Hout. reflexivity.
  - intros d t Ht Hin Hh. unfold is_anomaly, getitem. rewrite Ht, Hh.
    cbn [bind lt_int gt_int as_number].
    apply orb_false_elim in Hin. destruct Hin as [-> ->]. reflexivity.
  - intros d Ht. unfold is_anomaly, getitem. rewrite Ht. reflexivity.
  - intros d text Ht. unfold is_anomaly, getitem. rewrite Ht. reflexivity.
  - intros v Hv. destruct v; try reflexivity. exfalso. exact (Hv d eq_refl).
Qed.

Lemma is_anomaly_edges_witness :
  is_anomaly (PDict [("temperature"%string, PNum 75%Q)]) = Ok true
  /\ is_anomaly (PDict [("temperature"%string, PNum 20%Q)]) = Raise KeyError
  /\ is_anomaly (PDict [("humidity"%string, PNum 20%Q)]) = Raise KeyError
  /\ is_anomaly (PDict [("temperature"%string, @PStr Q "hot")])
     = Raise TypeError
  /\ is_anomaly (@PList Q []) = Raise TypeError.
Proof.
  destruct (is_anomaly_edges QNumber) as (H1 & H2 & H3 & H4 & H5).
  split; [apply (H1 _ 75%Q); reflexivity|].
  split; [apply (H2 _ 20%Q); reflexivity|].
  split; [apply H3; reflexivity|].
  split; [apply (H4 _ "hot"%string); reflexivity|].
  apply H5. discriminate.
Defined.

Section Dicts.

Context {num : Type}.

Lemma dict_get_set_same (d : list (string * pyval num)) (key : string)
  (v : pyval num) :
  dict_get (dict_set d key v) key = Some v.
Proof.
  induction d as [|[k x] d IH]; cbn [dict_set dict_get].
  - now rewrite String.eqb_refl.
  - destruct (String.eqb k key) eqn:E; cbn [dict_get]; rewrite E; auto.
Qed.

Lemma dict_get_set_other (d : list (string * pyval num)) (key key' : string)
  (v : pyval num) :
  key' <> key -> dict_get (dict_set d key v) key' = dict_get d key'.
Proof.
  intros Hne. induction d as [|[k x] d IH]; cbn [dict_set dict_get].
  - destruct (String.eqb key key') eqn:E; [|reflexivity].
    apply String.eqb_eq in E. congruence.
  - destruct (String.eqb k key) eqn:E; cbn [dict_get].
    + apply String.eqb_eq in E. subst k.
      destruct (String.eqb key key') eqn:E'; [|reflexivity].
      apply String.eqb_eq in E'. congruence.
    + destruct (String.eqb k key'); [reflexivity | exact IH].
Qed.

Lemma dict_set_keys (d : list (string * pyval num)) (key : string)
  (v : pyval num) :
  map fst (dict_set d key v)
  = match dict_get d key with
    | Some _ => map fst d
    | None => map fst d ++ [key]
    end.
Proof.
  induction d as [|[k x] d IH]; cbn [dict_set dict_get map fst]; [reflexivity|].
  destruct (String.eqb k key); cbn [map fst app]; [reflexivity|].
  rewrite IH. destruct (dict_get d key); reflexivity.
Qed.

End Dicts.

(** X3: the anomaly record built from a dictionary has ["type"] set to
    ["anomaly"] and every other key of the reading with the value it had,
    in the reading's key order; a ["type"] the reading brought along is
    overwritten in place, otherwise the key is added at the end. *)
Theorem annotate_keeps_fields (num : Type) (d : list (string * pyval num)) :
  exists d',
    annotate (PDict d) = Ok (PDict d')
    /\ dict_get d' "type" = Some (PStr "anomaly")
    /\ (forall key, key <> "type"%string -> dict_get d' key = dict_get d key)
    /\ map fst d' = match dict_get d "type" with
                    | Some _ => map fst d
                    | None => map fst d ++ ["type"%string]
                    end.
Proof.
  exists (dict_set d "type" (PStr "anomaly")).
  split; [reflexivity|]. split; [apply dict_get_set_same|].
  split; [intros key Hkey; now apply dict_get_set_other | apply dict_set_keys].
Qed.

Lemma annotate_keeps_fields_witness :
  exists d',
    annotate (to_py hot) = Ok (PDict d')
    /\ dict_get d' "type" = Some (PStr "anomaly")
    /\ dict_get d' "humidity" = Some (PNum 50%Q).
Proof.
  destruct (annotate_keeps_fields
              [("sensor_id"%string, PStr (sensor_id hot));
               ("temperature"%string, PNum (temperature hot));
               ("humidity"%string, PNum (humidity hot));
               ("timestamp"%string, PStr (timestamp hot))])
    as (d' & Ha & Ht & Hk & _).
  exists d'. split; [exact Ha|]. split; [exact Ht|].
  rewrite (Hk "humidity"%string); [reflexivity | discriminate].
Defined.

(** ** A queue of readings against one window *)

Lemma exec_turns {num} `{PyNumber num}
  (loads : list byte -> loads_result num) (rs : list (Reading num)) :
  forall (nows : list string) (qs : list (Reading num)) (sys : @system num),
    lock sys = false ->
    process_at sys = PWaiting ->
    returning (drone sys) = false ->
    readings (drone sys) = map to_py rs ->
    sensor_data (drone sys) = map to_py qs ->
    length nows = length qs ->
    exists sys',
      exec loads (turns nows) sys = Some sys'
      /\ process_at sys' = PWaiting
      /\ sensor_data (drone sys') = []
      /\ readings (drone sys') = readings (drone sys)
      /\ forward_queue (drone sys')
         = forward_queue (drone sys) ++ map (fun now => summary_of now rs) nows
      /\ anomalies (drone sys')
         = anomalies (drone sys) ++ map to_anomaly (filter out_of_bounds qs).
Proof.
  induction nows as [|now nows IH]; intros qs sys Hl Hp Hact Hw Hq Hlen.
  - destruct qs; [|discriminate Hlen]. exists sys.
    cbn [turns flat_map exec map filter]. rewrite !app_nil_r.
    repeat split; auto.
  - destruct qs as [|q qs]; [discriminate Hlen|].
    injection Hlen as Hlen. cbn [map] in Hq.
    cbn [turns flat_map app exec step]. rewrite Hp, Hq.
    cbn [exec step process_at with_process lock drone]. rewrite Hl.
    rewrite (process_reading_shape now q rs
               (set_sensor_data (map to_py qs) (drone sys)) Hw).
    cbn [returning set_sensor_data]. rewrite Hact. cbv zeta.
    match goal with
    | |- context [exec loads _ ?sys1] =>
        destruct (IH qs sys1) as (sys' & He & Hp' & Hd & Hr & Hfq & Han);
          [exact Hl | reflexivity
          | destruct (out_of_bounds q); exact Hact
          | destruct (out_of_bounds q); exact Hw
          | destruct (out_of_bounds q); reflexivity
          | exact Hlen |]
    end.
    exists sys'. fold (turns nows). split; [exact He|].
    split; [exact Hp'|]. split; [exact Hd|].
    split; [rewrite Hr; destruct (out_of_bounds q); reflexivity|].
    rewrite Hfq, Han. cbn [map filter].
    destruct (out_of_bounds q); cbn [map drone with_process forward_queue
                                      anomalies set_forward_queue log
                                      set_anomalies set_sensor_data];
      rewrite <- ?app_assoc; split; reflexivity.
Qed.

(** X4: summaries are taken off the window as it stands when a reading is
    processed, not as it stood when the reading arrived: when readings have
    queued up against a window and the process loop of an active drone
    works the queue off undisturbed, it adds one summary per reading, all
    with the same two averages (those of that window) and each with the
    time of its own turn, while the anomalies recorded are the out-of-range
    readings of the queue, in order. *)
Theorem queued_readings_share_summary (num : Type) (N : PyNumber num)
  (loads : list byte -> loads_result num) (nows : list string)
  (rs qs : list (Reading num)) (sys : @system num) :
  lock sys = false ->
  process_at sys = PWaiting ->
  returning (drone sys) = false ->
  readings (drone sys) = map to_py rs ->
  sensor_data (drone sys) = map to_py qs ->
  length nows = length qs ->
  exists sys',
    exec loads (turns nows) sys = Some sys'
    /\ sensor_data (drone sys') = []
    /\ readings (drone sys') = readings (drone sys)
    /\ forward_queue (drone sys')
       = forward_queue (drone sys) ++ map (fun now => summary_of now rs) nows
    /\ map (fun sm => (avg_temp sm, avg_humid sm)) (forward_queue (drone sys'))
       = map (fun sm => (avg_temp sm, avg_humid sm)) (forward_queue (drone sys))
         ++ repeat (round2 (window_mean (map (@temperature num) rs)),
                    round2 (window_mean (map (@humidity num) rs)))
              (length qs)
    /\ map (@last_update num) (forward_queue (drone sys'))
       = map (@last_update num) (forward_queue (drone sys)) ++ nows
    /\ anomalies (drone sys')
       = anomalies (drone sys) ++ map to_anomaly (filter out_of_bounds qs).
Proof.
  intros Hl Hp Hact Hw Hq Hlen.
  destruct (exec_turns loads rs nows qs sys Hl Hp Hact Hw Hq Hlen)
    as (sys' & He & _ & Hd & Hr & Hfq & Han).
  exists sys'. split; [exact He|]. split; [exact Hd|]. split; [exact Hr|].
  split; [exact Hfq|]. rewrite Hfq, !map_app, !map_map. cbn [last_update avg_temp
    avg_humid summary_of]. rewrite map_id, <- Hlen.
  split; [|split; [reflexivity | exact Han]].
  f_equal. clear. induction nows as [|now nows IH]; [reflexivity|].
  cbn [map length repeat]. now rewrite IH.
Qed.

Lemma queued_readings_share_summary_witness :
  exists sys',
    exec sample_loads
      (turns ["2025-05-01T10:00:03.000000+00:00"%string;
              "2025-05-01T10:00:03.100000+00:00"%string])
      (after [SensorLine mild_line; SensorLine hot_line]) = Some sys'
    /\ forward_queue (drone sys')
       = [summary_of "2025-05-01T10:00:03.000000+00:00" [mild; hot];
          summary_of "2025-05-01T10:00:03.100000+00:00" [mild; hot]]
    /\ anomalies (drone sys') = [to_anomaly hot].
Proof.
  destruct (@queued_readings_share_summary Q QNumber sample_loads
              ["2025-05-01T10:00:03.000000+00:00"%string;
               "2025-05-01T10:00:03.100000+00:00"%string]
              [mild; hot] [mild; hot]
              (after [SensorLine mild_line; SensorLine hot_line])
              eq_refl eq_refl eq_refl eq_refl eq_refl eq_refl)
    as (sys' & He & _ & _ & Hfq & _ & _ & Han).
  exists sys'. split; [exact He|]. split; [exact Hfq | exact Han].
Defined.

(** ** Framing *)

Lemma split_newline_none (x : list byte) :
  ~ In x0a x -> split_newline x = None.
Proof.
  induction x as [|b x IH]; intros Hnl; cbn [split_newline]; [reflexivity|].
  destruct (Byte.eqb b x0a) eqn:E.
  - apply byte_dec_bl in E. exfalso. apply Hnl. now left.
  - rewrite IH; [reflexivity|]. intros Hin. apply Hnl. now right.
Qed.

Lemma no_newline_no_line (x : list byte) :
  ~ In x0a x -> complete_lines x = [] /\ unterminated x = x.
Proof.
  intros Hnl. pose proof (split_newline_lines x) as Hl.
  rewrite (split_newline_none x Hnl) in Hl. exact Hl.
Qed.

Lemma unterminated_no_newline (a : list byte) : ~ In x0a (unterminated a).
Proof.
  unfold unterminated. induction a as [|x a IH]; cbn [stream_lines].
  - intros [].
  - destruct (stream_lines a) as [la ta]. cbn [snd] in IH.
    destruct (Byte.eqb x x0a) eqn:Ex; [exact IH|].
    destruct la as [|l la]; [|exact IH].
    cbn [snd]. intros [Hx|Hin]; [|exact (IH Hin)].
    subst x. discriminate Ex.
Qed.

Lemma stream_lines_payload (l rest : list byte) :
  ~ In x0a l ->
  complete_lines (payload l ++ rest) = l :: complete_lines rest
  /\ unterminated (payload l ++ rest) = unterminated rest.
Proof.
  intros Hnl. pose proof (split_newline_lines (payload l ++ rest)) as Hl.
  unfold payload in *. rewrite <- app_assoc in *. cbn [app] in *.
  rewrite (split_newline_app l rest Hnl) in Hl. exact Hl.
Qed.

Lemma stream_lines_wire (lines : list (list byte)) (rest : list byte) :
  Forall (fun l => ~ In x0a l) lines ->
  complete_lines (wire lines ++ rest) = lines ++ complete_lines rest
  /\ unterminated (wire lines ++ rest) = unterminated rest.
Proof.
  intros Hall. induction Hall as [|l lines Hl Hrest [IHc IHu]].
  - split; reflexivity.
  - unfold wire in *. cbn [map concat]. rewrite <- app_assoc.
    destruct (stream_lines_payload l (concat (map payload lines) ++ rest) Hl)
      as [-> ->].
    rewrite IHc, IHu. split; reflexivity.
Qed.

(** X5: framing round trip.  When lines that contain no newline byte are
    sent each followed by one, the stream splits back into exactly those
    lines with nothing left over, and a handler that receives the stream in
    any non-empty chunks hands exactly those lines to the decoder, in
    order; if none of them makes the decoder raise anything but a JSON
    error, the handler ends normally and has queued the decoded objects. *)
Theorem framing_round_trip (num : Type)
  (loads : list byte -> loads_result num) (lines : list (list byte))
  (chunks : list (list byte)) (s : DroneEdge num) :
  Forall (fun l => ~ In x0a l) lines ->
  Forall (fun data => data <> []) chunks ->
  concat chunks = wire lines ->
  complete_lines (wire lines) = lines
  /\ unterminated (wire lines) = []
  /\ handle_sensor loads chunks s
     = match handle_lines loads lines s with
       | Ret _ s' => Ret tt (log SensorDisconnected s')
       | Exc e s' => Exc e s'
       end
  /\ ((forall l e, In l lines -> loads l <> LoadsRaises e) ->
      exists s',
        handle_sensor loads chunks s = Ret tt s'
        /\ sensor_data s' = sensor_data s ++ decoded loads lines).
Proof.
  intros Hlines Hne Hcat.
  destruct (stream_lines_wire [] Hlines) as [Hc Hu].
  rewrite app_nil_r in Hc, Hu. cbn in Hc, Hu. rewrite app_nil_r in Hc.
  assert (Hh : handle_sensor loads chunks s
               = match handle_lines loads lines s with
                 | Ret _ s' => Ret tt (log SensorDisconnected s')
                 | Exc e s' => Exc e s'
                 end).
  { unfold handle_sensor.
    rewrite (@recv_loop_lines num loads chunks [] s Hne eq_refl eq_refl).
    cbn [app]. rewrite Hcat, Hc. reflexivity. }
  split; [exact Hc|]. split; [exact Hu|]. split; [exact Hh|].
  intros Hok. rewrite Hh.
  destruct (@handle_lines_decoded num loads lines s Hok) as (s' & -> & Hq).
  eexists. split; [reflexivity | exact Hq].
Qed.

Lemma framing_round_trip_witness :
  Forall (fun l => ~ In x0a l) [mild_line; garbage_line; hot_line]
  /\ concat sample_chunks = wire [mild_line; garbage_line; hot_line]
  /\ exists s',
       handle_sensor sample_loads sample_chunks (init 20 10) = Ret tt s'
       /\ sensor_data s' = [to_py mild; to_py hot].
Proof.
  assert (Hnl : forall l, forallb (fun b => negb (Byte.eqb b x0a)) l = true ->
                          ~ In x0a l).
  { intros l Hl Hin. rewrite forallb_forall in Hl.
    specialize (Hl x0a Hin). discriminate Hl. }
  assert (Hlines : Forall (fun l => ~ In x0a l)
                     [mild_line; garbage_line; hot_line])
    by (repeat constructor; apply Hnl; vm_compute; reflexivity).
  assert (Hne : Forall (fun data => data <> []) sample_chunks)
    by (repeat constructor; vm_compute; discriminate).
  assert (Hcat : concat sample_chunks
                 = wire [mild_line; garbage_line; hot_line])
    by (vm_compute; reflexivity).
  destruct (@framing_round_trip Q sample_loads _ sample_chunks (init 20 10)
              Hlines Hne Hcat) as (_ & _ & _ & Hdec).
  split; [exact Hlines|]. split; [exact Hcat|].
  destruct Hdec as (s' & Hs' & Hq).
  - intros l e Hin. cbn [In] in Hin.
    destruct Hin as [<-|[<-|[<-|[]]]]; vm_compute; discriminate.
  - exists s'. split; [exact Hs'|]. rewrite Hq. vm_compute. reflexivity.
Defined.

Lemma recv_loop_closed {num} (loads : list byte -> loads_result num)
  (chunks : list (list byte)) :
  forall (buf : list byte) (s : DroneEdge num),
    recv_loop loads (chunks ++ [[]]) buf s = recv_loop loads chunks buf s.
Proof.
  induction chunks as [|data more IH]; intros buf s; cbn [app recv_loop].
  - reflexivity.
  - destruct data as [|d data]; [reflexivity|].
    destruct (drain loads (buf ++ d :: data) s) as [buf' s'|e s'];
      [apply IH | reflexivity].
Qed.

(** X6: bytes that follow the last newline of a connection never reach the
    decoder: a handler that receives a last chunk with no newline in it
    before the peer closes ends exactly as if that chunk had not come. *)
Theorem unterminated_tail_dropped (num : Type)
  (loads : list byte -> loads_result num) (chunks : list (list byte))
  (tail : list byte) (s : DroneEdge num) :
  Forall (fun data => data <> []) chunks ->
  ~ In x0a tail ->
  handle_sensor loads (chunks ++ [tail]) s = handle_sensor loads chunks s.
Proof.
  intros Hne Hnl. unfold handle_sensor.
  destruct tail as [|b tail]; [now rewrite recv_loop_closed|].
  rewrite (@recv_loop_lines num loads (chunks ++ [b :: tail]) [] s);
    [|apply Forall_app; split; [exact Hne | repeat constructor; discriminate]
     |reflexivity|reflexivity].
  rewrite (@recv_loop_lines num loads chunks [] s Hne eq_refl eq_refl).
  cbn [app]. rewrite concat_app. cbn [concat]. rewrite app_nil_r.
  destruct (stream_lines_app (concat chunks) (b :: tail)) as [-> _].
  destruct (no_newline_no_line (unterminated (concat chunks) ++ b :: tail))
    as [-> _].
  - intros Hin. apply in_app_or in Hin. destruct Hin as [Hin|Hin].
    + exact (unterminated_no_newline _ Hin).
    + exact (Hnl Hin).
  - now rewrite app_nil_r.
Qed.

Lemma unterminated_tail_dropped_witness :
  handle_sensor sample_loads (sample_chunks ++ [hot_line]) (init 20 10)
  = handle_sensor sample_loads sample_chunks (init 20 10).
Proof.
  apply unterminated_tail_dropped.
  - repeat constructor; vm_compute; discriminate.
  - intros Hin.
    assert (Hb : forallb (fun b => negb (Byte.eqb b x0a)) hot_line = true)
      by (vm_compute; reflexivity).
    rewrite forallb_forall in Hb. specialize (Hb x0a Hin). discriminate Hb.
Defined.

(** ** The threads over whole schedules *)

Section Schedules.

Context {num : Type} `{PyNumber num}.
Variable json_loads : list byte -> loads_result num.

Lemma battery_tick_frame (s : DroneEdge num) :
  sensor_data (battery_tick s) = sensor_data s
  /\ anomalies (battery_tick s) = anomalies s
  /\ forward_queue (battery_tick s) = forward_queue s
  /\ exists l, logged (battery_tick s) = logged s ++ l.
Proof.
  unfold battery_tick.
  match goal with |- context [if ?c then _ else _] => destruct c end; cbn;
    repeat split; try reflexivity.
  - now exists [BatteryLow].
  - exists []. now rewrite app_nil_r.
Qed.

Lemma process_reading_anomalies (now : string) (reading : pyval num)
  (s s' : DroneEdge num) :
  process_reading now reading s = Ok s' ->
  exists new l,
    anomalies s' = anomalies s ++ new /\ length new <= 1
    /\ logged s' = logged s ++ l.
Proof.
  unfold process_reading.
  destruct (window_average (readings s)) as [avg|e]; [|discriminate].
  destruct (is_anomaly reading) as [[|]|e]; cbn [bind]; [| |discriminate].
  - destruct (annotate reading) as [a|e]; cbn [bind]; [|discriminate].
    match goal with |- context [if ?c then _ else _] => destruct c end;
      intros [= <-]; exists [a], [AnomalyDetected a]; cbn; auto.
  - match goal with |- context [if ?c then _ else _] => destruct c end;
      intros [= <-]; exists [], []; cbn; rewrite !app_nil_r; auto.
Qed.

(** What a step does while the process loop is dead. *)
Lemma step_dead (a : action) (sys sys' : @system num) (e : exn) :
  lock_inv sys ->
  process_at sys = PDead e ->
  step json_loads a sys = Some sys' ->
  process_at sys' = PDead e
  /\ anomalies (drone sys') = anomalies (drone sys)
  /\ concat (written sys') ++ forward_queue (drone sys')
     = concat (written sys) ++ forward_queue (drone sys)
  /\ sensor_data (drone sys')
     = sensor_data (drone sys) ++ ingested json_loads [a].
Proof.
  intros Hinv Hdead. unfold ingested.
  destruct a; cbn [step flat_map app]; rewrite ?Hdead.
  - unfold handle_line.
    destruct (json_loads line) as [v| |ex]; [destruct (lock sys)|..];
      try discriminate; intros [= <-]; cbn; rewrite ?app_nil_r; auto.
  - discriminate.
  - discriminate.
  - destruct (lock sys); [discriminate|]. intros [= <-].
    cbn [drone with_drone process_at written].
    destruct (battery_tick_frame (drone sys)) as (-> & -> & -> & _).
    rewrite app_nil_r. auto.
  - destruct (lock sys); [discriminate|]. intros [= <-]. cbn.
    rewrite app_nil_r. auto.
  - destruct (lock sys); [discriminate|]. intros [= <-]. cbn.
    rewrite app_nil_r. auto.
  - destruct (forward_at sys); [|discriminate].
    destruct (lock sys); [discriminate|].
    destruct (forward_snapshot (drone sys)); intros [= <-]; cbn;
      rewrite app_nil_r; auto.
  - unfold lock_inv in Hinv.
    destruct (forward_at sys) as [|batch]; [discriminate|].
    destruct Hinv as (_ & Hq & _). intros [= <-].
    destruct o; cbn; rewrite ?Hq, ?concat_app; cbn; rewrite ?app_nil_r; auto.
Qed.

Lemma ingested_app (l1 l2 : list action) :
  ingested json_loads (l1 ++ l2)
  = ingested json_loads l1 ++ ingested json_loads l2.
Proof. unfold ingested. apply flat_map_app. Qed.

Lemma exec_dead (schedule : list action) :
  forall (sys sys' : @system num) (e : exn),
    lock_inv sys ->
    process_at sys = PDead e ->
    exec json_loads schedule sys = Some sys' ->
    process_at sys' = PDead e
    /\ anomalies (drone sys') = anomalies (drone sys)
    /\ concat (written sys') ++ forward_queue (drone sys')
       = concat (written sys) ++ forward_queue (drone sys)
    /\ sensor_data (drone sys')
       = sensor_data (drone sys) ++ ingested json_loads schedule.
Proof.
  induction schedule as [|a rest IH]; intros sys sys' e Hinv Hdead;
    cbn [exec].
  - intros [= <-]. cbn. rewrite app_nil_r. auto.
  - destruct (step json_loads a sys) as [sys1|] eqn:E; [|discriminate].
    intros Hex.
    destruct (@step_dead a sys sys1 e Hinv Hdead E) as (Hd1 & Ha1 & Hq1 & Hs1).
    destruct (IH sys1 sys' e (@step_lock_inv num _ json_loads a sys sys1 Hinv E)
                Hd1 Hex) as (Hd & Ha & Hq & Hs).
    split; [exact Hd|]. split; [congruence|]. split; [congruence|].
    rewrite Hs, Hs1, <- app_assoc.
    change (a :: rest) with ([a] ++ rest). now rewrite ingested_app.
Qed.

End Schedules.

(** X7: once the process loop has ended on an exception nothing restarts
    it: whatever the other threads do from then on, it stays dead, no
    anomaly is recorded and no summary is produced (what was written to
    the collector followed by what is queued stays the same list), while
    every reading that is decoded piles up in the queue. *)
Theorem dead_process_loop_stays_dead (num : Type) (N : PyNumber num)
  (loads : list byte -> loads_result num) (schedule : list action)
  (sys sys' : @system num) (e : exn) :
  reachable loads sys ->
  process_at sys = PDead e ->
  exec loads schedule sys = Some sys' ->
  process_at sys' = PDead e
  /\ anomalies (drone sys') = anomalies (drone sys)
  /\ concat (written sys') ++ forward_queue (drone sys')
     = concat (written sys) ++ forward_queue (drone sys)
  /\ sensor_data (drone sys')
     = sensor_data (drone sys) ++ ingested loads schedule.
Proof.
  intros Hr Hdead Hex.
  exact (@exec_dead num N loads schedule sys sys' e
           (reachable_lock_inv Hr) Hdead Hex).
Qed.

Lemma dead_process_loop_stays_dead_witness :
  reachable sample_loads (after poisoned)
  /\ process_at (after poisoned) = PDead KeyError
  /\ exists sys',
       exec sample_loads
         [SensorLine mild_line; BatteryTick; ForwardBegin; SensorLine hot_line]
         (after poisoned) = Some sys'
       /\ process_at sys' = PDead KeyError
       /\ forward_queue (drone sys') = []
       /\ sensor_data (drone sys') = [to_py mild; to_py hot].
Proof.
  assert (Hr : reachable sample_loads (after poisoned))
    by (exists 20%Q, 10, poisoned; vm_compute; reflexivity).
  assert (Hd : process_at (after poisoned) = PDead KeyError)
    by (vm_compute; reflexivity).
  destruct (exec sample_loads
              [SensorLine mild_line; BatteryTick; ForwardBegin;
               SensorLine hot_line] (after poisoned)) as [sys'|] eqn:Hex;
    [|vm_compute in Hex; discriminate Hex].
  destruct (@dead_process_loop_stays_dead Q QNumber sample_loads _ _ sys'
              KeyError Hr Hd Hex) as (Hd' & _ & Hq & Hs).
  split; [exact Hr|]. split; [exact Hd|]. exists sys'.
  split; [reflexivity|]. split; [exact Hd'|]. split.
  - assert (Hz : concat (written (after poisoned))
                 ++ forward_queue (drone (after poisoned)) = [])
      by (vm_compute; reflexivity).
    rewrite Hz in Hq. apply app_eq_nil in Hq. tauto.
  - rewrite Hs. vm_compute. reflexivity.
Defined.

Section Queue.

Context {num : Type} `{PyNumber num}.
Variable json_loads : list byte -> loads_result num.

Lemma skipn_cons_next {A} (g : nat) (l : list A) (r : A) (rest : list A) :
  skipn g l = r :: rest ->
  skipn (S g) l = rest /\ nth_error l g = Some r /\ g < length l.
Proof.
  revert l; induction g as [|g IH]; intros l; destruct l as [|x l];
    cbn [skipn nth_error length]; try discriminate.
  - intros [= -> ->]. repeat split. lia.
  - intros Hs. destruct (IH l Hs) as (H1 & H2 & H3).
    cbn [skipn] in H1. repeat split; auto. lia.
Qed.

Lemma step_queue (a : action) (sys sys' : @system num)
  (ing : list (pyval num)) (g : nat) :
  queue_inv sys ing g ->
  step json_loads a sys = Some sys' ->
  queue_inv sys' (ing ++ ingested json_loads [a])
    (g + length (filter is_get [a])).
Proof.
  intros (Hg & Hq & Hhold). unfold queue_inv, ingested.
  assert (Hkeep : forall v,
             g <= length (ing ++ [v])
             /\ skipn g ing ++ [v] = skipn g (ing ++ [v])
             /\ forall r, (0 < g /\ nth_error ing (g - 1) = Some r) ->
                          0 < g /\ nth_error (ing ++ [v]) (g - 1) = Some r).
  { intros v. rewrite length_app, skipn_app.
    replace (g - length ing) with 0 by lia. cbn [skipn length].
    split; [lia|]. split; [reflexivity|].
    intros r [H0 Hn]. split; [exact H0|].
    rewrite nth_error_app1 by lia. exact Hn. }
  destruct a; cbn [step flat_map app filter is_get length];
    rewrite ?app_nil_r, ?Nat.add_0_r.
  - unfold handle_line.
    destruct (json_loads line) as [v| |ex]; [destruct (lock sys)|..];
      try discriminate; intros [= <-]; cbn; rewrite ?app_nil_r; auto.
    destruct (Hkeep v) as (H1 & H2 & H3).
    split; [exact H1|]. split; [rewrite Hq; exact H2|].
    intros r Hr. apply H3. auto.
  - destruct (process_at sys) eqn:Ep; try discriminate.
    destruct (sensor_data (drone sys)) as [|r rest] eqn:Es; [discriminate|].
    intros [= <-]. cbn. symmetry in Hq.
    destruct (skipn_cons_next g ing Hq) as (H1 & H2 & H3).
    split; [lia|]. split; [rewrite Nat.add_1_r; now rewrite H1|].
    intros r' [= <-]. split; [lia|].
    replace (g + 1 - 1) with g by lia. exact H2.
  - destruct (process_at sys) eqn:Ep; try discriminate.
    destruct (lock sys); [discriminate|].
    destruct (process_reading now reading (drone sys)) as [s1|e] eqn:Er;
      intros [= <-]; cbn.
    + apply process_reading_readings in Er. destruct Er as (_ & -> & _).
      split; [exact Hg|]. split; [exact Hq|]. discriminate.
    + split; [exact Hg|]. split; [exact Hq|]. discriminate.
  - destruct (lock sys); [discriminate|]. intros [= <-].
    cbn [drone with_drone process_at].
    destruct (battery_tick_frame (drone sys)) as (-> & _). auto.
  - destruct (lock sys); [discriminate|]. intros [= <-]. cbn. auto.
  - destruct (lock sys); [discriminate|]. intros [= <-]. cbn. auto.
  - destruct (forward_at sys); [|discriminate].
    destruct (lock sys); [discriminate|].
    destruct (forward_snapshot (drone sys)); intros [= <-]; cbn; auto.
  - destruct (forward_at sys); [discriminate|]. intros [= <-].
    destruct o; cbn; auto.
Qed.

Lemma exec_queue (schedule : list action) :
  forall (sys sys' : @system num) (ing : list (pyval num)) (g : nat),
    queue_inv sys ing g ->
    exec json_loads schedule sys = Some sys' ->
    queue_inv sys' (ing ++ ingested json_loads schedule)
      (g + length (filter is_get schedule)).
Proof.
  induction schedule as [|a rest IH]; intros sys sys' ing g Hinv;
    cbn [exec].
  - intros [= <-]. cbn. now rewrite app_nil_r, Nat.add_0_r.
  - destruct (step json_loads a sys) as [sys1|] eqn:E; [|discriminate].
    intros Hex. pose proof (step_queue a Hinv E) as H1.
    pose proof (IH sys1 sys' _ _ H1 Hex) as H2.
    change (a :: rest) with ([a] ++ rest).
    rewrite (ingested_app json_loads [a] rest), filter_app, length_app.
    now rewrite app_assoc, Nat.add_assoc.
Qed.

End Queue.

(** X8: the queue between the handlers and the process loop is first in,
    first out and loses nothing: at every point of every run it holds the
    readings decoded so far minus the ones the process loop has taken from
    the front, and the reading the loop is holding is the one it took
    last. *)
Theorem sensor_queue_fifo (num : Type) (N : PyNumber num)
  (loads : list byte -> loads_result num) (threshold : Q) (window : nat)
  (schedule : list action) (sys : @system num) :
  exec loads schedule (boot threshold window) = Some sys ->
  let taken := length (filter is_get schedule) in
  taken <= length (ingested loads schedule)
  /\ sensor_data (drone sys) = skipn taken (ingested loads schedule)
  /\ forall r, process_at sys = PHolding r ->
               0 < taken
               /\ nth_error (ingested loads schedule) (taken - 1) = Some r.
Proof.
  intros Hex taken.
  assert (H0 : @queue_inv num (boot threshold window) [] 0).
  { split; [cbn; lia|]. split; [reflexivity|]. discriminate. }
  exact (@exec_queue num N loads schedule _ sys [] 0 H0 Hex).
Qed.

Lemma sensor_queue_fifo_witness :
  exec sample_loads returning_schedule (boot 20 10)
  = Some (after returning_schedule)
  /\ sensor_data (drone (after returning_schedule)) = []
  /\ nth_error (ingested sample_loads returning_schedule) 1
     = Some (to_py hot).
Proof.
  assert (Hex : exec sample_loads returning_schedule (boot 20 10)
                = Some (after returning_schedule))
    by (vm_compute; reflexivity).
  destruct (@sensor_queue_fifo Q QNumber sample_loads 20%Q 10 _ _ Hex)
    as (_ & Hq & Hh).
  split; [exact Hex|]. split; [rewrite Hq; vm_compute; reflexivity|].
  destruct (Hh (to_py hot)) as [_ Hn]; [vm_compute; reflexivity|].
  exact Hn.
Defined.

Section Logs.

Context {num : Type} `{PyNumber num}.
Variable json_loads : list byte -> loads_result num.

Lemma step_anomalies (a : action) (sys sys' : @system num) :
  step json_loads a sys = Some sys' ->
  exists new l,
    anomalies (drone sys') = anomalies (drone sys) ++ new
    /\ length new <= length (filter is_body [a])
    /\ logged (drone sys') = logged (drone sys) ++ l.
Proof.
  assert (Hsame : forall s : DroneEdge num,
             exists (new : list (pyval num)) (l : list (log_record num)),
               anomalies s = anomalies s ++ new /\ length new <= 0
               /\ logged s = logged s ++ l).
  { intros s. exists [], []. rewrite !app_nil_r. auto. }
  destruct a; cbn [step filter is_body length].
  - unfold handle_line.
    destruct (json_loads line) as [v| |ex]; [destruct (lock sys)|..];
      try discriminate; intros [= <-]; cbn; try apply Hsame.
    + exists [], [Received v]. rewrite app_nil_r. auto.
    + exists [], [InvalidJSON]. rewrite app_nil_r. auto.
  - destruct (process_at sys); try discriminate.
    destruct (sensor_data (drone sys)); [discriminate|].
    intros [= <-]. cbn. apply Hsame.
  - destruct (process_at sys); try discriminate.
    destruct (lock sys); [discriminate|].
    destruct (process_reading now reading (drone sys)) as [s1|e] eqn:Er;
      intros [= <-]; cbn [drone with_process].
    + exact (process_reading_anomalies now reading (drone sys) Er).
    + destruct (Hsame (drone sys)) as (new & l & H1 & H2 & H3).
      exists new, l. repeat split; auto.
  - destruct (lock sys); [discriminate|]. intros [= <-].
    cbn [drone with_drone].
    destruct (battery_tick_frame (drone sys)) as (_ & -> & _ & l & ->).
    exists [], l. rewrite app_nil_r. auto.
  - destruct (lock sys); [discriminate|]. intros [= <-]. cbn.
    exists [], [BatteryReset]. rewrite app_nil_r. auto.
  - destruct (lock sys); [discriminate|]. intros [= <-]. cbn.
    exists [], [ThresholdSet val]. rewrite app_nil_r. auto.
  - destruct (forward_at sys); [|discriminate].
    destruct (lock sys); [discriminate|].
    destruct (forward_snapshot (drone sys)); intros [= <-]; cbn; apply Hsame.
  - destruct (forward_at sys) as [|batch]; [discriminate|]. intros [= <-].
    destruct o; cbn.
    + exists [], [Forwarded (length batch)]. rewrite app_nil_r. auto.
    + exists [], [ForwardFailed]. rewrite app_nil_r. auto.
Qed.

Lemma exec_anomalies (schedule : list action) :
  forall sys sys' : @system num,
    exec json_loads schedule sys = Some sys' ->
    exists new l,
      anomalies (drone sys') = anomalies (drone sys) ++ new
      /\ length new <= length (filter is_body schedule)
      /\ logged (drone sys') = logged (drone sys) ++ l.
Proof.
  induction schedule as [|a rest IH]; intros sys sys'; cbn [exec].
  - intros [= <-]. exists [], []. rewrite !app_nil_r. auto.
  - destruct (step json_loads a sys) as [sys1|] eqn:E; [|discriminate].
    intros Hex.
    destruct (step_anomalies a sys E) as (n1 & l1 & Ha1 & Hn1 & Hl1).
    destruct (IH sys1 sys' Hex) as (n2 & l2 & Ha2 & Hn2 & Hl2).
    exists (n1 ++ n2), (l1 ++ l2).
    rewrite Ha2, Ha1, Hl2, Hl1, <- !app_assoc.
    split; [reflexivity|]. split; [|reflexivity].
    change (a :: rest) with ([a] ++ rest).
    rewrite filter_app, !length_app. lia.
Qed.

Lemma step_written (a : action) (sys sys' : @system num) :
  lock_inv sys ->
  Forall (fun b => b <> []) (written sys) ->
  step json_loads a sys = Some sys' ->
  Forall (fun b => b <> []) (written sys').
Proof.
  intros Hinv Hw. destruct a; cbn [step].
  - destruct (handle_line json_loads line (drone sys)) as [[] s1|e s1];
      destruct (json_loads line), (lock sys); try discriminate;
      intros [= <-]; exact Hw.
  - destruct (process_at sys); try discriminate.
    destruct (sensor_data (drone sys)); [discriminate|].
    intros [= <-]; exact Hw.
  - destruct (process_at sys); try discriminate.
    destruct (lock sys); [discriminate|].
    destruct (process_reading now reading (drone sys));
      intros [= <-]; exact Hw.
  - destruct (lock sys); [discriminate|]. intros [= <-]; exact Hw.
  - destruct (lock sys); [discriminate|]. intros [= <-]; exact Hw.
  - destruct (lock sys); [discriminate|]. intros [= <-]; exact Hw.
  - destruct (forward_at sys); [|discriminate].
    destruct (lock sys); [discriminate|].
    destruct (forward_snapshot (drone sys)); intros [= <-]; exact Hw.
  - unfold lock_inv in Hinv.
    destruct (forward_at sys) as [|batch]; [discriminate|].
    destruct Hinv as (_ & _ & _ & Hne). intros [= <-].
    destruct o; cbn; [|exact Hw].
    apply Forall_app. split; [exact Hw | now constructor].
Qed.

End Logs.

(** X9: the anomaly list and the log are only ever appended to, by every
    thread and over every run: nothing is evicted from them, and only the
    locked block of the process loop adds anomalies, at most one each time
    it runs. *)
Theorem anomalies_append_only (num : Type) (N : PyNumber num)
  (loads : list byte -> loads_result num) (schedule : list action)
  (sys sys' : @system num) :
  exec loads schedule sys = Some sys' ->
  exists new l,
    anomalies (drone sys') = anomalies (drone sys) ++ new
    /\ length new <= length (filter is_body schedule)
    /\ logged (drone sys') = logged (drone sys) ++ l.
Proof.
  exact (@exec_anomalies num N loads schedule sys sys').
Qed.

Lemma anomalies_append_only_witness :
  exists new l,
    anomalies
      (drone (after (one_summary
                     ++ [SensorLine hot_line; ProcessGet;
                         ProcessBody "2025-05-01T10:00:04+00:00"])))
    = anomalies (drone (after one_summary)) ++ new
    /\ length new <= 1
    /\ logged
         (drone (after (one_summary
                        ++ [SensorLine hot_line; ProcessGet;
                            ProcessBody "2025-05-01T10:00:04+00:00"])))
       = logged (drone (after one_summary)) ++ l.
Proof.
  assert (Hex : exec sample_loads
                  [SensorLine hot_line; ProcessGet;
                   ProcessBody "2025-05-01T10:00:04+00:00"]
                  (after one_summary)
                = Some (after (one_summary
                               ++ [SensorLine hot_line; ProcessGet;
                                   ProcessBody "2025-05-01T10:00:04+00:00"])))
    by (vm_compute; reflexivity).
  destruct (@anomalies_append_only Q QNumber sample_loads _ _ _ Hex)
    as (new & l & Ha & Hn & Hl).
  exists new, l. split; [exact Ha|]. split; [exact Hn | exact Hl].
Defined.

(** X10: the drone never writes an empty batch to the collector: in every
    reachable system each batch written holds at least one summary. *)
Theorem written_batches_nonempty (num : Type) (N : PyNumber num)
  (loads : list byte -> loads_result num) (sys : @system num) :
  reachable loads sys -> Forall (fun b => b <> []) (written sys).
Proof.
  intros (threshold & window & schedule & Hex).
  assert (Hboth : lock_inv sys /\ Forall (fun b => b <> []) (written sys));
    [|tauto].
  eapply (exec_invariant loads
            (fun sys => lock_inv sys /\ Forall (fun b => b <> []) (written sys)));
    [| |exact Hex].
  - intros a sys1 sys2 [Hi Hw] Hstep. split.
    + exact (@step_lock_inv num N loads a sys1 sys2 Hi Hstep).
    + exact (@step_written num N loads a sys1 sys2 Hi Hw Hstep).
  - split; [reflexivity | constructor].
Qed.

Lemma written_batches_nonempty_witness :
  reachable sample_loads (after (sending ++ [ForwardEnd SendOk]))
  /\ length (written (after (sending ++ [ForwardEnd SendOk]))) = 1
  /\ Forall (fun b => b <> [])
       (written (after (sending ++ [ForwardEnd SendOk]))).
Proof.
  assert (Hr : reachable sample_loads (after (sending ++ [ForwardEnd SendOk])))
    by (exists 20%Q, 10, (sending ++ [ForwardEnd SendOk]);
        vm_compute; reflexivity).
  split; [exact Hr|]. split; [vm_compute; reflexivity|].
  exact (@written_batches_nonempty Q QNumber sample_loads _ Hr).
Defined.

Section EmptyWindow.

Context {num : Type} `{PyNumber num}.
Variable json_loads : list byte -> loads_result num.

Lemma process_reading_empty_window (now : string) (reading : pyval num)
  (s s' : DroneEdge num) :
  readings s = [] ->
  process_reading now reading s = Ok s' ->
  exists new,
    forward_queue s' = forward_queue s ++ new /\ Forall zero_summary new.
Proof.
  intros Hw. unfold process_reading. rewrite Hw. cbn [window_average bind].
  destruct (is_anomaly reading) as [[|]|e]; cbn [bind]; [| |discriminate].
  - destruct (annotate reading) as [a|e]; cbn [bind]; [|discriminate].
    match goal with |- context [if ?c then _ else _] => destruct c end;
      intros [= <-]; cbn.
    + eexists; split; [reflexivity|]. repeat constructor.
    + exists []. rewrite app_nil_r. split; [reflexivity | constructor].
  - match goal with |- context [if ?c then _ else _] => destruct c end;
      intros [= <-]; cbn.
    + eexists; split; [reflexivity|]. repeat constructor.
    + exists []. rewrite app_nil_r. split; [reflexivity | constructor].
Qed.

Lemma step_accounted_zero (a : action) (sys sys' : @system num) :
  lock_inv sys ->
  readings (drone sys) = [] ->
  step json_loads a sys = Some sys' ->
  exists new,
    concat (written sys') ++ forward_queue (drone sys')
    = (concat (written sys) ++ forward_queue (drone sys)) ++ new
    /\ Forall zero_summary new.
Proof.
  intros Hinv Hw.
  assert (Hsame : forall l : list (summary num),
             exists new, l = l ++ new /\ Forall zero_summary new).
  { intros l. exists []. rewrite app_nil_r. split; [reflexivity|constructor]. }
  destruct a; cbn [step].
  - unfold handle_line.
    destruct (json_loads line) as [v| |ex]; [destruct (lock sys)|..];
      try discriminate; intros [= <-]; cbn; apply Hsame.
  - destruct (process_at sys); try discriminate.
    destruct (sensor_data (drone sys)); [discriminate|].
    intros [= <-]. cbn. apply Hsame.
  - destruct (process_at sys); try discriminate.
    destruct (lock sys); [discriminate|].
    destruct (process_reading now reading (drone sys)) as [s1|e] eqn:Ep;
      intros [= <-]; cbn; [|apply Hsame].
    destruct (process_reading_empty_window now reading (drone sys) Hw Ep)
      as (new & -> & Hz).
    exists new. now rewrite app_assoc.
  - destruct (lock sys); [discriminate|]. intros [= <-].
    cbn [drone written with_drone].
    destruct (battery_tick_frame (drone sys)) as (_ & _ & -> & _).
    apply Hsame.
  - destruct (lock sys); [discriminate|]. intros [= <-]. cbn. apply Hsame.
  - destruct (lock sys); [discriminate|]. intros [= <-]. cbn. apply Hsame.
  - destruct (forward_at sys); [|discriminate].
    destruct (lock sys); [discriminate|].
    destruct (forward_snapshot (drone sys)); intros [= <-]; cbn; apply Hsame.
  - unfold lock_inv in Hinv.
    destruct (forward_at sys) as [|batch]; [discriminate|].
    destruct Hinv as (_ & Hq & _). intros [= <-]. exists [].
    split; [|constructor].
    destruct o; cbn; rewrite Hq, ?concat_app; cbn; now rewrite ?app_nil_r.
Qed.

Lemma fold_deque_append_zero (l : list (pyval num)) :
  fold_left (deque_append 0) l [] = [].
Proof. induction l as [|v l IH]; [reflexivity | exact IH]. Qed.

End EmptyWindow.

(** X11: with a window capacity of 0 the window is empty at every point of
    every run, so every summary the drone ever queues or writes carries
    [round(0.0, 2)] for both averages, whatever the readings were. *)
Theorem zero_window_zero_summaries (num : Type) (N : PyNumber num)
  (loads : list byte -> loads_result num) (threshold : Q)
  (schedule : list action) (sys : @system num) :
  exec loads schedule (boot threshold 0) = Some sys ->
  readings (drone sys) = []
  /\ Forall zero_summary (concat (written sys) ++ forward_queue (drone sys)).
Proof.
  intros Hex.
  assert (Hall : (rolling_window (drone sys) = 0 /\ readings (drone sys) = [])
                 /\ lock_inv sys
                 /\ Forall zero_summary
                      (concat (written sys) ++ forward_queue (drone sys)));
    [|tauto].
  eapply (exec_invariant loads
            (fun sys =>
               (rolling_window (drone sys) = 0 /\ readings (drone sys) = [])
               /\ lock_inv sys
               /\ Forall zero_summary
                    (concat (written sys) ++ forward_queue (drone sys))));
    [| |exact Hex].
  - intros a sys1 sys2 ([Hcap Hw] & Hi & Hz) Hstep.
    destruct (@step_readings num N loads a sys1 sys2 Hstep) as [Hcap' Hw'].
    split; [|split].
    + split; [congruence|].
      rewrite Hw', Hcap, Hw. apply fold_deque_append_zero.
    + exact (@step_lock_inv num N loads a sys1 sys2 Hi Hstep).
    + destruct (@step_accounted_zero num N loads a sys1 sys2 Hi Hw Hstep)
        as (new & -> & Hnew).
      apply Forall_app. split; assumption.
  - split; [split; reflexivity|]. split; [reflexivity | constructor].
Qed.

Lemma zero_window_zero_summaries_witness :
  exists sys,
    exec sample_loads
      [SensorLine hot_line; ProcessGet;
       ProcessBody "2025-05-01T10:00:01+00:00"] (boot 20 0) = Some sys
    /\ readings (drone sys) = []
    /\ map (@avg_temp Q) (forward_queue (drone sys)) = [(0 # 100)%Q].
Proof.
  destruct (exec sample_loads
              [SensorLine hot_line; ProcessGet;
               ProcessBody "2025-05-01T10:00:01+00:00"] (boot 20 0))
    as [sys|] eqn:Hex; [|vm_compute in Hex; discriminate Hex].
  destruct (@zero_window_zero_summaries Q QNumber sample_loads 20%Q _ sys Hex)
    as [Hw _].
  exists sys. split; [reflexivity|]. split; [exact Hw|].
  vm_compute in Hex. injection Hex as <-. reflexivity.
Defined.

(** ** The battery in closed form *)

From Stdlib Require Import Lqa.

Lemma Qle_bool_false (a b : Q) : Qle_bool a b = false -> (b < a)%Q.
Proof.
  intros E. apply Qnot_le_lt. intros Hle. apply Qle_bool_iff in Hle.
  congruence.
Qed.

Lemma ticks_closed_form {num} `{PyNumber num} (n : nat) (s : DroneEdge num) :
  (0 <= battery s)%Q ->
  (battery (ticks n s) == level_after n (battery s))%Q.
Proof.
  intros Hpos. unfold level_after. induction n as [|n IH].
  - change (ticks 0 s) with s.
    match goal with
    | |- context [if ?c then _ else _] => destruct c eqn:E
    end.
    + change (inject_Z (Z.of_nat 0)) with 0%Q. lra.
    + apply Qle_bool_false in E.
      change (inject_Z (Z.of_nat 0)) with 0%Q in E. lra.
  - change (ticks (S n) s) with (battery_tick (ticks n s)).
    destruct (ticks_level n s Hpos) as (Hn0 & _ & _).
    destruct (battery_tick_level (ticks n s) Hn0) as (_ & _ & Heq).
    rewrite Heq. clear Heq.
    assert (Hx : (inject_Z (Z.of_nat (S n)) == inject_Z (Z.of_nat n) + 1)%Q).
    { rewrite Nat2Z.inj_succ. unfold Z.succ. now rewrite inject_Z_plus. }
    set (x := inject_Z (Z.of_nat n)) in *.
    set (x' := inject_Z (Z.of_nat (S n))) in *.
    set (bn := battery (ticks n s)) in *.
    set (b := battery s) in *.
    revert IH.
    destruct (Qle_bool (1 # 2) bn) eqn:E1;
      destruct (Qle_bool (x * (1 # 2)) b) eqn:E2;
      destruct (Qle_bool (x' * (1 # 2)) b) eqn:E3;
      intros IH;
      repeat match goal with
             | E : Qle_bool _ _ = true |- _ => apply Qle_bool_iff in E
             | E : Qle_bool _ _ = false |- _ => apply Qle_bool_false in E
             end;
      lra.
Qed.

(** X12: the level after [n] ticks from a non-negative level [b] is
    [b - n/2], or 0 once that would be negative; and an active drone is
    returning after [n + 1] ticks exactly when that level is at or below
    the threshold, so a drone started with the default threshold of 20
    turns back at its 160th tick. *)
Theorem battery_closed_form (num : Type) (N : PyNumber num)
  (s : DroneEdge num) (n : nat) :
  (0 <= battery s)%Q ->
  (battery (ticks n s) == level_after n (battery s))%Q
  /\ (returning s = false ->
      (returning (ticks (S n) s) = true
       <-> (level_after (S n) (battery s) <= battery_threshold s)%Q)).
Proof.
  intros Hpos. split; [exact (ticks_closed_form n s Hpos)|].
  intros Hact. destruct (ticks_mode n s Hpos Hact) as [-> _].
  rewrite Qle_bool_iff, (ticks_closed_form (S n) s Hpos). reflexivity.
Qed.

Lemma battery_closed_form_witness :
  (0 <= battery (init (num:=Q) 20 10))%Q
  /\ (battery (ticks 37 (init (num:=Q) 20 10)) == 81.5)%Q
  /\ returning (ticks 159 (init (num:=Q) 20 10)) = false
  /\ returning (ticks 160 (init (num:=Q) 20 10)) = true.
Proof.
  assert (Hpos : (0 <= battery (init (num:=Q) 20 10))%Q) by discriminate.
  destruct (battery_closed_form QNumber (init 20 10) 37 Hpos) as [H37 _].
  destruct (battery_closed_form QNumber (init 20 10) 158 Hpos) as [_ H159].
  destruct (battery_closed_form QNumber (init 20 10) 159 Hpos) as [_ H160].
  split; [exact Hpos|]. split; [rewrite H37; reflexivity|]. split.
  - apply not_true_is_false. intros E.
    apply (H159 eq_refl) in E. vm_compute in E. apply E. reflexivity.
  - apply (H160 eq_refl). vm_compute. discriminate.
Defined.

(** X13: the GUI callbacks.  Moving the threshold changes neither the mode
    nor the level nor the queue: it takes effect at the next tick, which
    turns an active drone to returning exactly when the new level is at or
    below the new threshold, and it never turns a returning drone active
    again however low it is set.  A reset makes the drone active at level
    100, but with the threshold at 99.5 or more the very next tick turns it
    back. *)
Theorem threshold_and_reset_next_tick (num : Type) (N : PyNumber num)
  (s : DroneEdge num) (val : Q) :
  (0 <= battery s)%Q ->
  (returning (on_threshold_change val s) = returning s
   /\ battery (on_threshold_change val s) = battery s
   /\ forward_queue (on_threshold_change val s) = forward_queue s)
  /\ (returning s = false ->
      (returning (battery_tick (on_threshold_change val s)) = true
       <-> (battery (battery_tick s) <= val)%Q))
  /\ (returning s = true ->
      returning (battery_tick (on_threshold_change val s)) = true)
  /\ (returning (battery_tick (reset_battery s)) = true
      <-> (99.5 <= battery_threshold s)%Q).
Proof.
  intros Hpos. split; [repeat split|].
  destruct (battery_tick_fields (on_threshold_change val s))
    as (_ & _ & Hr & _).
  destruct (battery_tick_fields s) as (Hb & _).
  cbn [battery battery_threshold returning on_threshold_change log
         set_battery_threshold] in Hr.
  split; [|split].
  - intros Hact. rewrite Hr, Hb, Hact. cbn [orb]. apply Qle_bool_iff.
  - intros Hret. rewrite Hr, Hret. reflexivity.
  - destruct (battery_tick_fields (reset_battery s)) as (_ & _ & Hr' & _).
    rewrite Hr'. cbn. rewrite Qle_bool_iff.
    split; intros Hle; lra.
Qed.

Lemma threshold_and_reset_next_tick_witness :
  (0 <= battery low_battery)%Q
  /\ returning low_battery = true
  /\ returning (battery_tick (on_threshold_change 0 low_battery)) = true
  /\ returning (battery_tick (reset_battery low_battery)) = true
  /\ returning
       (battery_tick (reset_battery (on_threshold_change 20 low_battery)))
     = false.
Proof.
  assert (Hpos : (0 <= battery low_battery)%Q) by (vm_compute; discriminate).
  assert (Hret : returning low_battery = true) by (vm_compute; reflexivity).
  destruct (threshold_and_reset_next_tick QNumber low_battery 0 Hpos)
    as (_ & _ & Hstay & Hreset).
  split; [exact Hpos|]. split; [exact Hret|]. split; [exact (Hstay Hret)|].
  split; [apply Hreset; vm_compute; discriminate|].
  vm_compute. reflexivity.
Defined.

(** ** The central collector *)

Section CentralReader.

Context {num : Type}.
Variable clock : nat -> string.
Variable json_loads : list byte -> loads_result num.

Local Abbreviation cstate := (Central.CentralServer num).

Lemma central_drain_step (buf : list byte) (c : cstate) :
  Central.drain clock json_loads buf c
  = match split_newline buf with
    | None => Central.Done buf c
    | Some (line, rest) =>
        match Central.handle_line clock json_loads line c with
        | Central.Done _ c' => Central.drain clock json_loads rest c'
        | Central.Failed e c' => Central.Failed e c'
        end
    end.
Proof.
  funelim (Central.drain clock json_loads buf c).
  - rewrite e. reflexivity.
  - rewrite Hsplit, Heq. reflexivity.
  - rewrite Hsplit, Heq. reflexivity.
Qed.

Lemma central_drain_lines (buf : list byte) :
  forall c : cstate,
    Central.drain clock json_loads buf c
    = match Central.handle_lines clock json_loads (complete_lines buf) c with
      | Central.Done _ c' => Central.Done (unterminated buf) c'
      | Central.Failed e c' => Central.Failed e c'
      end.
Proof.
  induction buf as [buf IH] using (induction_ltof1 _ (@length byte)).
  unfold ltof in IH. intros c. rewrite central_drain_step.
  pose proof (split_newline_lines buf) as Hl.
  destruct (split_newline buf) as [[line rest]|] eqn:Es.
  - destruct Hl as [-> ->]. cbn [Central.handle_lines].
    destruct (Central.handle_line clock json_loads line c) as [[] c'|e c'];
      [|reflexivity].
    apply IH. eapply split_newline_shorter; eauto.
  - destruct Hl as [-> ->]. reflexivity.
Qed.

Lemma central_handle_lines_app (l1 l2 : list (list byte)) (c : cstate) :
  Central.handle_lines clock json_loads (l1 ++ l2) c
  = match Central.handle_lines clock json_loads l1 c with
    | Central.Done _ c' => Central.handle_lines clock json_loads l2 c'
    | Central.Failed e c' => Central.Failed e c'
    end.
Proof.
  revert c; induction l1 as [|l l1 IH]; intros c;
    cbn [app Central.handle_lines].
  - reflexivity.
  - destruct (Central.handle_line clock json_loads l c) as [[] c'|e c'];
      [apply IH | reflexivity].
Qed.

Lemma central_recv_loop_lines (chunks : list (list byte)) :
  forall (buf : list byte) (c : cstate),
    Forall (fun data => data <> []) chunks ->
    complete_lines buf = [] ->
    unterminated buf = buf ->
    Central.recv_loop clock json_loads chunks buf c
    = Central.handle_lines clock json_loads
        (complete_lines (buf ++ concat chunks)) c.
Proof.
  induction chunks as [|data more IH]; intros buf c Hne Hnl Hbuf.
  - cbn [Central.recv_loop concat]. rewrite app_nil_r, Hnl. reflexivity.
  - inversion Hne as [|? ? Hdata Hmore]; subst.
    cbn [Central.recv_loop concat].
    destruct data as [|d data]; [congruence|].
    rewrite central_drain_lines, app_assoc.
    destruct (stream_lines_app (buf ++ d :: data) (concat more)) as [-> _].
    rewrite central_handle_lines_app.
    destruct (Central.handle_lines clock json_loads
                (complete_lines (buf ++ d :: data)) c) as [[] c'|e c'];
      [|reflexivity].
    destruct (unterminated_no_line (buf ++ d :: data)) as [Hc Hu].
    apply IH; assumption.
Qed.

End CentralReader.

(** X14: the collector's reader does not depend on how the bytes of a
    connection are cut into (non-empty) chunks: it hands each
    newline-terminated line of the stream to [_process_message] once, in
    order, stops at the first line that makes it raise, and never looks at
    an unterminated rest. *)
Theorem central_reader_chunking (num : Type) (clock : nat -> string)
  (loads : list byte -> loads_result num) (chunks : list (list byte))
  (c : Central.CentralServer num) :
  Forall (fun data => data <> []) chunks ->
  Central.handle_drone clock loads chunks c
  = match Central.handle_lines clock loads
            (complete_lines (concat chunks)) c with
    | Central.Done _ c' =>
        Central.Done tt (Central.log Central.DroneDisconnected c')
    | Central.Failed e c' => Central.Failed e c'
    end
  /\ Central.handle_drone clock loads chunks c
     = Central.handle_drone clock loads [concat chunks] c.
Proof.
  intros Hne. unfold Central.handle_drone.
  rewrite (@central_recv_loop_lines num clock loads chunks [] c Hne
             eq_refl eq_refl).
  cbn [app]. split; [reflexivity|].
  cbn [Central.recv_loop]. destruct (concat chunks) as [|b stream] eqn:Ec.
  - reflexivity.
  - rewrite central_drain_lines. cbn [app].
    destruct (Central.handle_lines clock loads
                (complete_lines (b :: stream)) c) as [[] c'|e c'];
      reflexivity.
Qed.

Lemma central_reader_chunking_witness :
  Forall (fun data => data <> [])
    [firstn 20 (payload batch_line); skipn 20 (payload batch_line)]
  /\ Central.handle_drone sample_clock sample_central_loads
       [firstn 20 (payload batch_line); skipn 20 (payload batch_line)]
       Central.init
     = Central.handle_drone sample_clock sample_central_loads
         [payload batch_line] Central.init.
Proof.
  assert (Hne : Forall (fun data => data <> [])
                  [firstn 20 (payload batch_line);
                   skipn 20 (payload batch_line)])
    by (repeat constructor; vm_compute; discriminate).
  destruct (@central_reader_chunking Q sample_clock sample_central_loads _
              Central.init Hne) as [_ Hone].
  split; [exact Hne|]. rewrite Hone. cbn [concat].
  rewrite app_nil_r, firstn_skipn. reflexivity.
Defined.

Section CentralStore.

Context {num : Type}.
Variable clock : nat -> string.

Local Abbreviation cstate := (Central.CentralServer num).

Lemma record_of_dated (now now' : string) (d : list (string * pyval num)) :
  dict_get d "last_update" <> None ->
  Central.record_of now d = Central.record_of now' d.
Proof.
  intros Hd. unfold Central.record_of, Central.get_default.
  destruct (dict_get d "last_update"); [reflexivity | congruence].
Qed.

Lemma central_store_dicts (ds : list (list (string * pyval num))) :
  forall c : cstate,
    Forall dated ds ->
    exists c',
      Central.store clock (map PDict ds) c = Central.Done tt c'
      /\ Central.anomalies c'
         = Central.anomalies c
           ++ map PDict (filter Central.is_anomaly_item ds)
      /\ Central.data_records c'
         = Central.data_records c
           ++ map (Central.record_of "")
                (filter (fun d => negb (Central.is_anomaly_item d)) ds)
      /\ length (Central.logged c') = length (Central.logged c) + length ds.
Proof.
  induction ds as [|d ds IH]; intros c Hall; cbn [map Central.store filter].
  - exists c. rewrite !app_nil_r, Nat.add_0_r. auto.
  - inversion Hall as [|? ? Hd Hrest]; subst.
    destruct (Central.is_anomaly_item d) eqn:Ea; cbn [negb].
    + destruct (IH (Central.log (Central.AnomalyReceived (PDict d))
                      (Central.add_anomaly (PDict d) c)) Hrest)
        as (c' & -> & Han & Hrec & Hlog).
      exists c'. split; [reflexivity|]. cbn in Han, Hrec, Hlog.
      rewrite Han, Hrec, Hlog, length_app. cbn [map length].
      rewrite <- app_assoc. repeat split; try reflexivity. lia.
    + cbv zeta.
      match goal with
      | |- context [Central.store _ _ ?c1] =>
          destruct (IH c1 Hrest) as (c' & -> & Han & Hrec & Hlog)
      end.
      exists c'. split; [reflexivity|]. cbn in Han, Hrec, Hlog.
      rewrite Han, Hrec, Hlog, length_app. cbn [map length].
      rewrite <- app_assoc. cbn [app].
      rewrite (record_of_dated _ "" d (Hd Ea)).
      repeat split; try reflexivity. lia.
Qed.

Lemma clocked_dated (now : string) (ds : list (list (string * pyval num))) :
  forall n,
    Forall dated ds ->
    map (fun p => Central.record_of (clock (fst p)) (snd p)) (clocked n ds)
    = map (Central.record_of now)
        (filter (fun d => negb (Central.is_anomaly_item d)) ds).
Proof.
  induction ds as [|d ds IH]; intros n Hall; [reflexivity|].
  inversion Hall as [|? ? Hd Hrest]; subst.
  unfold clocked. cbn [length seq combine filter snd].
  destruct (Central.is_anomaly_item d) eqn:Ea; cbn [negb map fst snd].
  - apply (IH (S n) Hrest).
  - rewrite (record_of_dated (clock n) now d (Hd Ea)). f_equal.
    apply (IH (S n) Hrest).
Qed.

Lemma central_store_all (ds : list (list (string * pyval num))) :
  forall c : cstate,
    exists c',
      Central.store clock (map PDict ds) c = Central.Done tt c'
      /\ Central.anomalies c'
         = Central.anomalies c
           ++ map PDict (filter Central.is_anomaly_item ds)
      /\ Central.data_records c'
         = Central.data_records c
           ++ map (fun p => Central.record_of (clock (fst p)) (snd p))
                (clocked (stored c) ds)
      /\ length (Central.logged c') = length (Central.logged c) + length ds.
Proof.
  induction ds as [|d ds IH]; intros c; cbn [map Central.store filter].
  - exists c. unfold clocked. cbn [length seq combine filter map].
    rewrite !app_nil_r, Nat.add_0_r. auto.
  - unfold clocked. cbn [length seq combine filter snd].
    destruct (Central.is_anomaly_item d) eqn:Ea; cbn [negb]; cbv zeta;
      match goal with
      | |- context [Central.store _ _ ?c1] =>
          destruct (IH c1) as (c' & -> & Han & Hrec & Hlog);
            assert (Hn : stored c1 = S (stored c))
              by (unfold stored; cbn; rewrite length_app; cbn; lia)
      end;
      exists c'; (split; [reflexivity|]);
      rewrite Hn in Hrec; unfold clocked in Hrec;
      cbn in Han, Hrec, Hlog;
      rewrite Han, Hrec, Hlog, length_app; cbn [map length fst snd];
      rewrite <- ?app_assoc; repeat split; try reflexivity; lia.
Qed.

Lemma central_store_stops (ds : list (list (string * pyval num)))
  (bad : pyval num) (rest : list (pyval num)) :
  forall c : cstate,
    (forall d, bad <> PDict d) ->
    Central.store clock (map PDict ds ++ bad :: rest) c
    = match Central.store clock (map PDict ds) c with
      | Central.Done _ c' => Central.Failed Central.AttributeError c'
      | Central.Failed e c' => Central.Failed e c'
      end.
Proof.
  induction ds as [|d ds IH]; intros c Hbad; cbn [map app Central.store].
  - destruct bad; try reflexivity. exfalso. exact (Hbad d eq_refl).
  - destruct (Central.is_anomaly_item d); cbv zeta; apply IH; exact Hbad.
Qed.

End CentralStore.

(** X15: a message whose ["batch"] is a list of dictionaries is stored
    item by item in order: the items with [type == "anomaly"] go to the
    anomaly list unchanged, each other item becomes one record of its
    ["last_update"], ["avg_temp"] and ["avg_humid"] ([None] for an average
    it lacks, the collector's clock at its turn for a ["last_update"] it
    lacks, and no clock at all when it has one), and one log record is
    written per item. *)
Theorem central_stores_partition (num : Type) (clock : nat -> string)
  (m : list (string * pyval num)) (ds : list (list (string * pyval num)))
  (c : Central.CentralServer num) :
  dict_get m "batch" = Some (PList (map PDict ds)) ->
  (exists c',
     Central.process_message clock (PDict m) c = Central.Done tt c'
     /\ Central.anomalies c'
        = Central.anomalies c ++ map PDict (filter Central.is_anomaly_item ds)
     /\ Central.data_records c'
        = Central.data_records c
          ++ map (fun p => Central.record_of (clock (fst p)) (snd p))
               (clocked (stored c) ds)
     /\ (Forall dated ds ->
         forall now,
           Central.data_records c'
           = Central.data_records c
             ++ map (Central.record_of now)
                  (filter (fun d => negb (Central.is_anomaly_item d)) ds))
     /\ length (Central.logged c') = length (Central.logged c) + length ds).
Proof.
  intros Hb. unfold Central.process_message, Central.get_default.
  rewrite Hb. cbn [Central.items_of].
  destruct (@central_store_all num clock ds c) as (c' & Hs & Han & Hrec & Hlog).
  exists c'. split; [exact Hs|]. split; [exact Han|]. split; [exact Hrec|].
  split; [|exact Hlog].
  intros Hd now. rewrite Hrec. f_equal.
  exact (@clocked_dated num clock now ds (stored c) Hd).
Qed.

Lemma central_stores_partition_witness :
  exists c',
    Central.process_message sample_clock
      (PDict [("batch"%string,
               PList [to_anomaly hot; PDict [];
                      summary_to_py (summary_of "t" [mild])])])
      Central.init = Central.Done tt c'
    /\ Central.anomalies c' = [to_anomaly hot]
    /\ Central.data_records c'
       = [PDict [("timestamp"%string, PStr (sample_clock 1));
                 ("avg_temp"%string, PNone);
                 ("avg_humid"%string, PNone)];
          summary_record (summary_of "t" [mild])].
Proof.
  set (ds := [[("sensor_id"%string, PStr (sensor_id hot));
               ("temperature"%string, PNum (temperature hot));
               ("humidity"%string, PNum (humidity hot));
               ("timestamp"%string, PStr (timestamp hot));
               ("type"%string, PStr "anomaly")];
              [];
              [("avg_temp"%string, PNum (avg_temp (summary_of "t" [mild])));
               ("avg_humid"%string, PNum (avg_humid (summary_of "t" [mild])));
               ("last_update"%string, @PStr Q "t")]]).
  destruct (@central_stores_partition Q sample_clock
              [("batch"%string, PList (map PDict ds))] ds
              Central.init eq_refl) as (c' & Hc' & Han & Hrec & _).
  exists c'. split; [exact Hc'|]. split; [exact Han|].
  rewrite Hrec. reflexivity.
Defined.

Section Forwarded.

Context {num : Type}.

Lemma summaries_are_records (batch : list (summary num)) :
  map summary_to_py batch = map PDict (map summary_dict batch)
  /\ Forall dated (map summary_dict batch)
  /\ filter Central.is_anomaly_item (map summary_dict batch) = []
  /\ map (Central.record_of "")
       (filter (fun d => negb (Central.is_anomaly_item d))
          (map summary_dict batch))
     = map summary_record batch.
Proof.
  induction batch as [|sm batch (IH1 & IH2 & IH3 & IH4)].
  - repeat split. constructor.
  - cbn [map filter]. rewrite IH1.
    change (Central.is_anomaly_item (summary_dict sm)) with false.
    cbn [negb map]. rewrite IH4. repeat split; auto.
    constructor; [|exact IH2]. intros _. discriminate.
Qed.

End Forwarded.

(** X16: what the drone forwards is what the collector stores.  When the
    line written by [_send_to_central] decodes to the batch it was made
    from, the collector that receives it, in whatever non-empty chunks,
    ends the connection normally with one record per summary appended in
    the batch's order (its [last_update] as timestamp, its two averages),
    and leaves its anomaly list as it was: nothing the drone forwards ever
    reaches the collector's anomaly list. *)
Theorem forwarded_batch_stored (num : Type) (clock : nat -> string)
  (loads : list byte -> loads_result num) (line : list byte)
  (batch : list (summary num)) (chunks : list (list byte))
  (c : Central.CentralServer num) :
  loads line = Loaded (batch_message batch) ->
  ~ In x0a line ->
  Forall (fun data => data <> []) chunks ->
  concat chunks = payload line ->
  exists c',
    Central.handle_drone clock loads chunks c = Central.Done tt c'
    /\ Central.data_records c'
       = Central.data_records c ++ map summary_record batch
    /\ Central.anomalies c' = Central.anomalies c.
Proof.
  intros Hl Hnl Hne Hcat. unfold Central.handle_drone.
  rewrite (@central_recv_loop_lines num clock loads chunks [] c Hne
             eq_refl eq_refl).
  cbn [app]. rewrite Hcat.
  destruct (stream_lines_payload line [] Hnl) as [Hc _].
  rewrite app_nil_r in Hc. rewrite Hc.
  cbn [Central.handle_lines complete_lines stream_lines fst].
  unfold Central.handle_line. rewrite Hl.
  unfold Central.process_message, batch_message, Central.get_default.
  cbn [dict_get String.eqb Ascii.eqb Bool.eqb Central.items_of].
  destruct (summaries_are_records batch) as (-> & Hd & Ha & Hr).
  destruct (@central_store_dicts num clock (map summary_dict batch) c Hd)
    as (c' & -> & Han & Hrec & _).
  eexists. split; [reflexivity|]. cbn [Central.data_records Central.anomalies
                                       Central.log].
  rewrite Hrec, Han, Ha, Hr. cbn [map]. rewrite app_nil_r. auto.
Qed.

Lemma forwarded_batch_stored_witness :
  sample_central_loads batch_line = Loaded (batch_message sample_batch)
  /\ exists c',
       Central.handle_drone sample_clock sample_central_loads
         [firstn 20 (payload batch_line); skipn 20 (payload batch_line)]
         Central.init = Central.Done tt c'
       /\ Central.data_records c' = map summary_record sample_batch
       /\ Central.anomalies c' = [].
Proof.
  assert (Hl : sample_central_loads batch_line
               = Loaded (batch_message sample_batch))
    by (vm_compute; reflexivity).
  assert (Hnl : ~ In x0a batch_line).
  { intros Hin.
    assert (Hb : forallb (fun b => negb (Byte.eqb b x0a)) batch_line = true)
      by (vm_compute; reflexivity).
    rewrite forallb_forall in Hb. specialize (Hb x0a Hin). discriminate Hb. }
  assert (Hne : Forall (fun data => data <> [])
                  [firstn 20 (payload batch_line);
                   skipn 20 (payload batch_line)])
    by (repeat constructor; vm_compute; discriminate).
  assert (Hcat : concat [firstn 20 (payload batch_line);
                         skipn 20 (payload batch_line)]
                 = payload batch_line)
    by (cbn [concat]; rewrite app_nil_r; apply firstn_skipn).
  split; [exact Hl|].
  exact (@forwarded_batch_stored Q sample_clock sample_central_loads
           batch_line sample_batch _ Central.init Hl Hnl Hne Hcat).
Defined.

(** X17: what the collector does with a decoded line that is no batch of
    dictionaries.  A message that is no dictionary, or a batch that cannot
    be iterated, ends the handler on an exception the [except] clause does
    not catch, with nothing stored; a dictionary with no ["batch"] stores
    nothing and goes on; and at the first item that is no dictionary the
    handler ends with the items before it already stored, so that lines
    behind it on the connection are never looked at. *)
Theorem central_malformed_messages (num : Type) (clock : nat -> string)
  (c : Central.CentralServer num) :
  (forall message : pyval num,
     (forall m, message <> PDict m) ->
     Central.process_message clock message c
     = Central.Failed Central.AttributeError c)
  /\ (forall m : list (string * pyval num),
        dict_get m "batch" = None ->
        Central.process_message clock (PDict m) c = Central.Done tt c)
  /\ (forall (m : list (string * pyval num)) (batch : pyval num),
        dict_get m "batch" = Some batch ->
        Central.items_of batch = None ->
        Central.process_message clock (PDict m) c
        = Central.Failed Central.NotIterable c)
  /\ (forall (m : list (string * pyval num)) ds (bad : pyval num) rest,
        dict_get m "batch" = Some (PList (map PDict ds ++ bad :: rest)) ->
        (forall d, bad <> PDict d) ->
        exists c',
          Central.process_message clock (PDict m) c
          = Central.Failed Central.AttributeError c'
          /\ Central.process_message clock
               (PDict [("batch"%string, PList (map PDict ds))]) c
             = Central.Done tt c')
  /\ (forall (loads : list byte -> loads_result num) line more e c',
        Central.handle_line clock loads line c = Central.Failed e c' ->
        Central.handle_lines clock loads (line :: more) c
        = Central.Failed e c').
Proof.
  split; [|split; [|split; [|split]]].
  - intros message Hm. destruct message; try reflexivity.
    exfalso. exact (Hm d eq_refl).
  - intros m Hb. unfold Central.process_message, Central.get_default.
    rewrite Hb. reflexivity.
  - intros m batch Hb Hit. unfold Central.process_message, Central.get_default.
    rewrite Hb, Hit. reflexivity.
  - intros m ds bad rest Hb Hbad.
    unfold Central.process_message, Central.get_default. rewrite Hb.
    cbn [dict_get String.eqb Ascii.eqb Bool.eqb Central.items_of].
    rewrite (@central_store_stops num clock ds bad rest c Hbad).
    destruct (@central_store_all num clock ds c) as (c' & -> & _).
    exists c'. split; reflexivity.
  - intros loads line more e c' Hf. cbn [Central.handle_lines].
    rewrite Hf. reflexivity.
Qed.

Lemma central_malformed_messages_witness :
  Central.handle_lines sample_clock sample_central_loads
    [empty_list_line; batch_line] Central.init
  = Central.Failed Central.AttributeError Central.init
  /\ Central.process_message sample_clock (@PDict Q []) Central.init
     = Central.Done tt Central.init
  /\ Central.process_message sample_clock
       (PDict [("batch"%string, @PInt Q 3)]) Central.init
     = Central.Failed Central.NotIterable Central.init
  /\ exists c',
       Central.process_message sample_clock
         (PDict [("batch"%string,
                  PList [PDict []; PInt 3;
                         summary_to_py (summary_of "t" [hot])])])
         Central.init
       = Central.Failed Central.AttributeError c'
       /\ length (Central.data_records c') = 1.
Proof.
  destruct (@central_malformed_messages Q sample_clock Central.init)
    as (Hnd & Hnb & Hni & Hstop & Hline).
  split; [|split; [|split]].
  - rewrite (Hline sample_central_loads empty_list_line [batch_line]
               Central.AttributeError Central.init); [reflexivity|].
    unfold Central.handle_line.
    change (sample_central_loads empty_list_line) with (@Loaded Q (PList [])).
    apply Hnd. discriminate.
  - apply Hnb. reflexivity.
  - apply (Hni _ (PInt 3)); reflexivity.
  - destruct (Hstop [("batch"%string,
                      PList [PDict []; PInt 3;
                             summary_to_py (summary_of "t" [hot])])]
                [[]] (PInt 3)
                [summary_to_py (summary_of "t" [hot])] eq_refl)
      as (c' & Hf & Hd).
    + discriminate.
    + exists c'. split; [exact Hf|].
      cbn in Hd. injection Hd as <-. reflexivity.
Defined.

(** ** From the sensor to the window, and lines that cannot be decoded *)

Section Ingestion.

Context {num : Type}.
Variable json_loads : list byte -> loads_result num.

Lemma handle_lines_ingests (lines : list (list byte)) :
  forall s : DroneEdge num,
    (forall l e, In l lines -> json_loads l <> LoadsRaises e) ->
    exists s',
      handle_lines json_loads lines s = Ret tt s'
      /\ sensor_data s' = sensor_data s ++ decoded json_loads lines
      /\ readings s'
         = fold_left (deque_append (rolling_window s))
             (decoded json_loads lines) (readings s)
      /\ rolling_window s' = rolling_window s.
Proof.
  induction lines as [|l lines IH]; intros s Hok;
    cbn [handle_lines decoded flat_map].
  - exists s. rewrite app_nil_r. repeat split; reflexivity.
  - unfold handle_line.
    destruct (json_loads l) as [v| |e] eqn:El.
    + destruct (IH (log (Received v) (ingest v s))) as (s' & -> & Hq & Hw & Hn).
      { intros l' e Hin. apply Hok. now right. }
      exists s'. split; [reflexivity|]. rewrite Hq, Hw, Hn. cbn.
      rewrite <- app_assoc. repeat split; reflexivity.
    + destruct (IH (log InvalidJSON s)) as (s' & -> & Hq & Hw & Hn).
      { intros l' e Hin. apply Hok. now right. }
      exists s'. split; [reflexivity|]. rewrite Hq, Hw, Hn.
      repeat split; reflexivity.
    + exfalso. apply (Hok l e); [now left | exact El].
Qed.

Lemma handle_lines_raises (before after : list (list byte)) (bad : list byte)
  (e : exn) (s s' : DroneEdge num) :
  handle_lines json_loads before s = Ret tt s' ->
  json_loads bad = LoadsRaises e ->
  handle_lines json_loads (before ++ bad :: after) s = Exc e s'.
Proof.
  intros Hb Hbad. rewrite handle_lines_app, Hb. cbn [handle_lines].
  unfold handle_line. rewrite Hbad. reflexivity.
Qed.

End Ingestion.

(** X18: from the sensor to the window.  When each reading is sent as
    [json.dumps(data).encode("utf-8") + b"\n"], the encoded line holds no
    newline and decodes to the reading's dictionary, then however the
    bytes are cut into chunks a fresh drone's handler ends normally with
    every reading queued for the process loop, in the order sent, and with
    the last [window] of them in the rolling window. *)
Theorem sensor_readings_reach_window (num : Type)
  (dumps : Reading num -> list byte) (loads : list byte -> loads_result num)
  (rs : list (Reading num)) (chunks : list (list byte))
  (threshold : Q) (window : nat) :
  Forall (fun r => loads (dumps r) = Loaded (to_py r) /\ ~ In x0a (dumps r))
    rs ->
  Forall (fun data => data <> []) chunks ->
  concat chunks = wire (map dumps rs) ->
  exists s',
    handle_sensor loads chunks (init threshold window) = Ret tt s'
    /\ sensor_data s' = map to_py rs
    /\ readings s' = skipn (length rs - window) (map to_py rs)
    /\ anomalies s' = [] /\ forward_queue s' = [].
Proof.
  intros Hrs Hne Hcat.
  assert (Hnl : Forall (fun l => ~ In x0a l) (map dumps rs)).
  { apply Forall_map. eapply Forall_impl; [|exact Hrs]. cbn. tauto. }
  assert (Hdec : decoded loads (map dumps rs) = map to_py rs).
  { clear Hcat Hnl. induction Hrs as [|r rs [Hr _] _ IH]; [reflexivity|].
    cbn [map decoded flat_map]. rewrite Hr. cbn [app]. f_equal. exact IH. }
  assert (Hok : forall l e, In l (map dumps rs) -> loads l <> LoadsRaises e).
  { intros l e Hin. apply in_map_iff in Hin. destruct Hin as (r & <- & Hin).
    rewrite Forall_forall in Hrs. destruct (Hrs r Hin) as [-> _].
    discriminate. }
  destruct (stream_lines_wire [] Hnl) as [Hc _].
  rewrite ?app_nil_r in Hc. cbn in Hc. rewrite ?app_nil_r in Hc.
  unfold handle_sensor.
  rewrite (@recv_loop_lines num loads chunks [] (init threshold window) Hne
             eq_refl eq_refl).
  cbn [app]. rewrite Hcat, Hc.
  destruct (@handle_lines_ingests num loads (map dumps rs)
              (init threshold window) Hok) as (s' & Hs' & Hq & Hw & _).
  rewrite Hs'. eexists. split; [reflexivity|].
  cbn [sensor_data readings anomalies forward_queue log].
  rewrite Hq, Hw, Hdec. cbn [sensor_data readings rolling_window init app].
  split; [reflexivity|]. split.
  - rewrite (@fold_deque_append num window (map to_py rs) []) by (cbn; lia).
    cbn [app]. now rewrite length_map.
  - clear Hq Hw Hc Hcat.
    assert (Hkeep : forall lines (s s1 : DroneEdge num),
               handle_lines loads lines s = Ret tt s1 ->
               anomalies s1 = anomalies s
               /\ forward_queue s1 = forward_queue s).
    { induction lines as [|l lines IH]; intros s s1; cbn [handle_lines].
      - intros [= <-]. split; reflexivity.
      - unfold handle_line. destruct (loads l) as [v| |e]; [| |discriminate];
          intros Hh; destruct (IH _ _ Hh) as [-> ->]; split; reflexivity. }
    destruct (Hkeep _ _ _ Hs') as [-> ->]. split; reflexivity.
Qed.

Lemma sensor_readings_reach_window_witness :
  Forall (fun r => sample_loads (sample_dumps r) = Loaded (to_py r)
                   /\ ~ In x0a (sample_dumps r)) [mild; hot; mild]
  /\ exists s',
       handle_sensor sample_loads
         [firstn 50 (wire (map sample_dumps [mild; hot; mild]));
          skipn 50 (wire (map sample_dumps [mild; hot; mild]))]
         (init 20 2) = Ret tt s'
       /\ sensor_data s' = map to_py [mild; hot; mild]
       /\ readings s' = map to_py [hot; mild].
Proof.
  assert (Hnl : forall l, forallb (fun b => negb (Byte.eqb b x0a)) l = true ->
                          ~ In x0a l).
  { intros l Hl Hin. rewrite forallb_forall in Hl.
    specialize (Hl x0a Hin). discriminate Hl. }
  assert (Hrs : Forall (fun r => sample_loads (sample_dumps r) = Loaded (to_py r)
                                 /\ ~ In x0a (sample_dumps r))
                  [mild; hot; mild]).
  { repeat constructor; try (vm_compute; reflexivity);
      apply Hnl; vm_compute; reflexivity. }
  destruct (@sensor_readings_reach_window Q sample_dumps sample_loads
              [mild; hot; mild]
              [firstn 50 (wire (map sample_dumps [mild; hot; mild]));
               skipn 50 (wire (map sample_dumps [mild; hot; mild]))]
              20%Q 2 Hrs) as (s' & Hs' & Hq & Hw & _).
  - repeat constructor; vm_compute; discriminate.
  - cbn [concat]. rewrite app_nil_r. apply firstn_skipn.
  - split; [exact Hrs|]. exists s'. split; [exact Hs'|].
    split; [exact Hq | exact Hw].
Defined.

(** X19: a line on which decoding raises anything but
    [json.JSONDecodeError] (a line that is not UTF-8) ends the handler of
    its connection there: the lines before it have been handled, the lines
    behind it never are, and no disconnection is logged. *)
Theorem undecodable_line_ends_handler (num : Type)
  (loads : list byte -> loads_result num)
  (before after : list (list byte)) (bad : list byte) (e : exn)
  (chunks : list (list byte)) (s s' : DroneEdge num) :
  Forall (fun l => ~ In x0a l) (before ++ bad :: after) ->
  Forall (fun data => data <> []) chunks ->
  concat chunks = wire (before ++ bad :: after) ->
  handle_lines loads before s = Ret tt s' ->
  loads bad = LoadsRaises e ->
  handle_sensor loads chunks s = Exc e s'.
Proof.
  intros Hnl Hne Hcat Hb Hbad. unfold handle_sensor.
  rewrite (@recv_loop_lines num loads chunks [] s Hne eq_refl eq_refl).
  cbn [app]. rewrite Hcat.
  destruct (stream_lines_wire [] Hnl) as [Hc _].
  rewrite ?app_nil_r in Hc. cbn in Hc. rewrite ?app_nil_r in Hc. rewrite Hc.
  now rewrite (@handle_lines_raises num loads before after bad e s s' Hb Hbad).
Qed.

Lemma undecodable_line_ends_handler_witness :
  exists s',
    handle_lines sample_loads [mild_line] (init 20 10) = Ret tt s'
    /\ sensor_data s' = [to_py mild]
    /\ handle_sensor sample_loads
         [wire [mild_line; not_utf8_line; hot_line]] (init 20 10)
       = Exc UnicodeDecodeError s'.
Proof.
  destruct (handle_lines sample_loads [mild_line] (init 20 10))
    as [[] s'|e s'] eqn:Hb; [|vm_compute in Hb; discriminate Hb].
  exists s'. split; [reflexivity|]. split.
  - vm_compute in Hb. injection Hb as <-. reflexivity.
  - apply (@undecodable_line_ends_handler Q sample_loads [mild_line]
             [hot_line] not_utf8_line UnicodeDecodeError).
    + assert (Hnl : forall l,
                 forallb (fun b => negb (Byte.eqb b x0a)) l = true ->
                 ~ In x0a l).
      { intros l Hl Hin. rewrite forallb_forall in Hl.
        specialize (Hl x0a Hin). discriminate Hl. }
      repeat constructor; apply Hnl; vm_compute; reflexivity.
    + repeat constructor; vm_compute; discriminate.
    + cbn [concat]. now rewrite app_nil_r.
    + exact Hb.
    + vm_compute. reflexivity.
Defined.

(** ** The levels the battery takes *)

Lemma half_step (b : Q) (k : Z) :
  (0 <= k <= 200)%Z ->
  (b == k # 2)%Q ->
  exists k', (0 <= k' <= 200)%Z
             /\ ((if Qle_bool (1 # 2) b then b - (1 # 2) else 0) == k' # 2)%Q.
Proof.
  intros Hk Hb. destruct (Qle_bool (1 # 2) b) eqn:E.
  - apply Qle_bool_iff in E. rewrite Hb in E.
    unfold Qle in E. cbn in E.
    exists (k - 1)%Z. split; [lia|]. rewrite Hb.
    unfold Qeq, Qminus, Qplus, Qopp. cbn. lia.
  - exists 0%Z. split; [lia | reflexivity].
Qed.

(** X20: in every reachable system the battery level is a whole number of
    half points between 0 and 100: the levels are exactly the values
    [k / 2] for [k] from 0 to 200. *)
Theorem battery_half_steps (num : Type) (N : PyNumber num)
  (loads : list byte -> loads_result num) (sys : @system num) :
  reachable loads sys ->
  exists k : Z,
    (0 <= k <= 200)%Z /\ (battery (drone sys) == k # 2)%Q.
Proof.
  intros (threshold & window & schedule & Hex).
  eapply (exec_invariant loads
            (fun sys => exists k : Z,
                 (0 <= k <= 200)%Z /\ (battery (drone sys) == k # 2)%Q));
    [| |exact Hex].
  - intros a sys1 sys2 (k & Hk & Hb) Hstep.
    assert (Hpos : (0 <= battery (drone sys1))%Q).
    { rewrite Hb. unfold Qle. cbn. lia. }
    destruct a;
      match type of Hstep with
      | step _ ?a _ = _ =>
          try (destruct (@step_keeps_battery num N loads a sys1 sys2
                           ltac:(discriminate) ltac:(discriminate) Hstep)
                 as [Hkeep _];
               exists k; rewrite Hkeep; split; assumption)
      end.
    + revert Hstep. cbn [step]. destruct (lock sys1); [discriminate|].
      intros [= <-]. cbn [drone with_drone].
      destruct (battery_tick_level (drone sys1) Hpos) as (_ & _ & Heq).
      destruct (@half_step (battery (drone sys1)) k Hk Hb) as (k' & Hk' & Hb').
      exists k'. split; [exact Hk'|]. rewrite Heq. exact Hb'.
    + revert Hstep. cbn [step]. destruct (lock sys1); [discriminate|].
      intros [= <-]. exists 200%Z. split; [lia | reflexivity].
  - exists 200%Z. split; [lia | reflexivity].
Qed.

Lemma battery_half_steps_witness :
  reachable sample_loads (after returning_schedule)
  /\ exists k : Z,
       (0 <= k <= 200)%Z
       /\ (battery (drone (after returning_schedule)) == k # 2)%Q.
Proof.
  assert (Hr : reachable sample_loads (after returning_schedule))
    by (exists 20%Q, 10, returning_schedule; vm_compute; reflexivity).
  split; [exact Hr|].
  exact (@battery_half_steps Q QNumber sample_loads _ Hr).
Defined.
